(** * The in-memory feedback store of [src/services/mockApi.ts]

    A shallow embedding of the mock persistence layer: the three module-level
    arrays [users], [courses] and [feedbacks], the pagination helper and the
    functions of the exported [api] object, followed by the properties the
    specification states about them.

    Conventions of the embedding.
    - A JavaScript number that the code uses as a count, an index, a page
      number or a page size is a [number]: an integer, an infinity or NaN.
      Integers are exact in a double below 2^53, which is the range the
      model covers.
    - A [Date] is its [getTime()] value, an integer number of milliseconds;
      [new Date()] reads a clock that every operation receives as [now].
    - A [User] object is mutated in place by [changePassword] and
      [updateUserStatus] and handed out by reference, so user objects live in
      a heap and the [users] array holds references.  Courses and feedback
      are never mutated in place by the store and are held by value.
    - The average of [getCourseRatings] is computed in doubles: the
      quotient is the IEEE 754 quotient of [SpecFloat], and the result of
      [toFixed(2)] is kept as its number of hundredths.
    - [delay] only postpones the settlement of a promise; an operation is
      modelled by its settled result and the store it leaves behind. *)

From Stdlib Require Import ZArith Lia SpecFloat DecimalString Ascii.
From stdpp Require Import gmap strings list sorting.

Local Open Scope Z_scope.

(** ** Numbers *)

Inductive number :=
| Int (z : Z)
| PosInf
| NegInf
| NaN.

#[global] Instance number_eq_dec : EqDecision number.
Proof. solve_decision. Defined.

Module Num.

(** [a - b] *)
Definition sub (a b : number) : number :=
  match a, b with
  | NaN, _ | _, NaN => NaN
  | Int x, Int y => Int (x - y)
  | Int _, PosInf => NegInf
  | Int _, NegInf => PosInf
  | PosInf, PosInf => NaN
  | PosInf, _ => PosInf
  | NegInf, NegInf => NaN
  | NegInf, _ => NegInf
  end.

Definition of_sign (s : Z) : number :=
  if decide (s = 0) then NaN else if decide (0 < s) then PosInf else NegInf.

(** [a * b]; zero times an infinity is NaN. *)
Definition mul (a b : number) : number :=
  match a, b with
  | NaN, _ | _, NaN => NaN
  | Int x, Int y => Int (x * y)
  | Int x, PosInf | PosInf, Int x => of_sign (Z.sgn x)
  | Int x, NegInf | NegInf, Int x => of_sign (- Z.sgn x)
  | PosInf, PosInf | NegInf, NegInf => PosInf
  | PosInf, NegInf | NegInf, PosInf => NegInf
  end.

(** [Math.ceil(a / b)] *)
Definition ceil_div (a b : number) : number :=
  match a, b with
  | NaN, _ | _, NaN => NaN
  | Int x, Int y => if decide (y = 0) then of_sign (Z.sgn x) else Int (- ((- x) / y))
  | Int _, _ => Int 0
  | PosInf, Int y => if decide (0 <= y) then PosInf else NegInf
  | NegInf, Int y => if decide (0 <= y) then NegInf else PosInf
  | _, _ => NaN
  end.

(** Truthiness of a number: [0] and [NaN] are falsy. *)
Definition truthy (a : number) : bool :=
  match a with
  | Int z => bool_decide (z ≠ 0)
  | NaN => false
  | _ => true
  end.

End Num.

(** ** Arrays *)

(** The clamping [Array.prototype.slice] applies to one of its arguments:
    NaN counts as 0, a negative index counts from the end. *)
Definition slice_index (len : Z) (i : number) : Z :=
  match i with
  | NaN => 0
  | NegInf => 0
  | PosInf => len
  | Int z => if decide (z < 0) then Z.max (len + z) 0 else Z.min z len
  end.

(** [items.slice(start, end)] *)
Definition slice {A} (items : list A) (start end_ : number) : list A :=
  let len := Z.of_nat (length items) in
  let k := slice_index len start in
  let final := slice_index len end_ in
  take (Z.to_nat (Z.max (final - k) 0)) (drop (Z.to_nat k) items).

(** [items.sort(cmp)]: the sort is stable, and [a] is kept before [b] unless
    [cmp a b] is positive.  The elements are inserted from the right, so the
    element being inserted precedes, in the array, everything it is compared
    with.  For a consistent comparator, as the differences of keys that the
    store sorts by are, this is the order every stable sort arrives at. *)
Fixpoint sort_insert {A} (cmp : A → A → Z) (x : A) (l : list A) : list A :=
  match l with
  | [] => [x]
  | y :: l' => if decide (cmp x y ≤ 0) then x :: l else y :: sort_insert cmp x l'
  end.

Definition sort {A} (cmp : A → A → Z) (items : list A) : list A :=
  foldr (sort_insert cmp) [] items.

(** ** Pagination *)

Record Page (A : Type) := mkPage {
  data : list A;
  total : number;
  totalPages : number
}.
Arguments mkPage {A}.
Arguments data {A}.
Arguments total {A}.
Arguments totalPages {A}.

Definition paginate {A} (items : list A) (page limit : number) : Page A :=
  let total := Int (Z.of_nat (length items)) in
  let totalPages := Num.ceil_div total limit in
  let data := slice items (Num.mul (Num.sub page (Int 1)) limit) (Num.mul page limit) in
  mkPage data total totalPages.

(** ** Data model ([src/types.ts]) *)

Inductive Role := STUDENT | ADMIN.

#[global] Instance Role_eq_dec : EqDecision Role.
Proof. solve_decision. Defined.

(** A field declared with [?] is an [option]; [None] is [undefined]. *)
Module User.
Record t := mk {
  id : string;
  name : string;
  email : string;
  password : option string;
  role : Role;
  profilePicture : option string;
  phoneNumber : option string;
  dateOfBirth : option string;
  address : option string;
  isBlocked : bool;
  createdAt : Z
}.
End User.

Module Course.
Record t := mk {
  id : string;
  name : string;
  description : string;
  link : option string;
  thumbnail : option string;
  createdAt : Z
}.
End Course.

Module Feedback.
Record t := mk {
  id : string;
  studentId : string;
  studentName : string;
  courseId : string;
  rating : Z;
  message : string;
  createdAt : Z
}.
End Feedback.

(** [Partial<T>]: every key may be absent ([None]).  A key that is present
    carries a value of the field's type, so for a field declared with [?]
    the value may itself be [undefined] ([Some None]). *)
Module PartialUser.
Record t := mk {
  id : option string;
  name : option string;
  email : option string;
  password : option (option string);
  role : option Role;
  profilePicture : option (option string);
  phoneNumber : option (option string);
  dateOfBirth : option (option string);
  address : option (option string);
  isBlocked : option bool;
  createdAt : option Z
}.

Definition empty : t :=
  mk None None None None None None None None None None None.
End PartialUser.

Module PartialCourse.
Record t := mk {
  id : option string;
  name : option string;
  description : option string;
  link : option (option string);
  thumbnail : option (option string);
  createdAt : option Z
}.
End PartialCourse.

Module PartialFeedback.
Record t := mk {
  id : option string;
  studentId : option string;
  studentName : option string;
  courseId : option string;
  rating : option Z;
  message : option string;
  createdAt : option Z
}.
End PartialFeedback.

(** [Omit<Course, 'id' | 'createdAt'>] *)
Module CourseData.
Record t := mk {
  name : string;
  description : string;
  link : option string;
  thumbnail : option string
}.
End CourseData.

(** [Omit<Feedback, 'id' | 'createdAt'>] *)
Module FeedbackData.
Record t := mk {
  studentId : string;
  studentName : string;
  courseId : string;
  rating : Z;
  message : string
}.
End FeedbackData.

(** The object spread [{ ...x, ...data }]: a key of [data] wins. *)
Definition spread_user (u : User.t) (d : PartialUser.t) : User.t :=
  User.mk
    (default (User.id u) (PartialUser.id d))
    (default (User.name u) (PartialUser.name d))
    (default (User.email u) (PartialUser.email d))
    (default (User.password u) (PartialUser.password d))
    (default (User.role u) (PartialUser.role d))
    (default (User.profilePicture u) (PartialUser.profilePicture d))
    (default (User.phoneNumber u) (PartialUser.phoneNumber d))
    (default (User.dateOfBirth u) (PartialUser.dateOfBirth d))
    (default (User.address u) (PartialUser.address d))
    (default (User.isBlocked u) (PartialUser.isBlocked d))
    (default (User.createdAt u) (PartialUser.createdAt d)).

Definition spread_course (c : Course.t) (d : PartialCourse.t) : Course.t :=
  Course.mk
    (default (Course.id c) (PartialCourse.id d))
    (default (Course.name c) (PartialCourse.name d))
    (default (Course.description c) (PartialCourse.description d))
    (default (Course.link c) (PartialCourse.link d))
    (default (Course.thumbnail c) (PartialCourse.thumbnail d))
    (default (Course.createdAt c) (PartialCourse.createdAt d)).

Definition spread_feedback (f : Feedback.t) (d : PartialFeedback.t) : Feedback.t :=
  Feedback.mk
    (default (Feedback.id f) (PartialFeedback.id d))
    (default (Feedback.studentId f) (PartialFeedback.studentId d))
    (default (Feedback.studentName f) (PartialFeedback.studentName d))
    (default (Feedback.courseId f) (PartialFeedback.courseId d))
    (default (Feedback.rating f) (PartialFeedback.rating d))
    (default (Feedback.message f) (PartialFeedback.message d))
    (default (Feedback.createdAt f) (PartialFeedback.createdAt d)).

(** ** The store *)

(** A reference to a user object: its address in the heap. *)
Abbreviation ref := nat (only parsing).

Record Store := mkStore {
  heap : list User.t;
  users : list ref;
  courses : list Course.t;
  feedbacks : list Feedback.t
}.

Definition empty_store : Store := mkStore [] [] [] [].

(** The object a reference points to. *)
Definition obj (st : Store) (r : ref) : option User.t := heap st !! r.

(** A callback [u => P u] applied to the object behind a reference. *)
Definition holds (h : list User.t) (P : User.t → Prop) (r : ref) : Prop :=
  from_option P False (h !! r).

#[global] Instance holds_dec h P `{∀ u, Decision (P u)} r : Decision (holds h P r).
Proof. unfold holds. destruct (h !! r); simpl; apply _. Defined.

(** [users.push(u)] for a newly created object [u]. *)
Definition push_user (u : User.t) (st : Store) : ref * Store :=
  let r := length (heap st) in
  (r, mkStore (heap st ++ [u]) (users st ++ [r]) (courses st) (feedbacks st)).

(** The users in array order, as records. *)
Definition user_list (st : Store) : list User.t := omap (obj st) (users st).

(** The e-mail addresses and the ids of the users, in array order. *)
Definition emails (st : Store) : list string := User.email <$> user_list st.
Definition ids (st : Store) : list string := User.id <$> user_list st.

(** Every element of [users] is an allocated object. *)
Definition wf (st : Store) : Prop :=
  Forall (λ r, (r < length (heap st))%nat) (users st).

(** Decimal printing of a count inside a template string. *)
Definition toString (n : nat) : string :=
  NilEmpty.string_of_uint (Nat.to_uint n).

(** ** Settled promises *)

Inductive Error :=
| InvalidCredentials
| AccountBlocked
| EmailExists
| UserNotFound
| InvalidCurrentPassword
| CourseNotFound
| FeedbackNotFound.

#[global] Instance Error_eq_dec : EqDecision Error.
Proof. solve_decision. Defined.

(** The argument of [new Error(...)] at each rejection. *)
Definition message (e : Error) : string :=
  match e with
  | InvalidCredentials => "Invalid credentials"
  | AccountBlocked => "Your account is blocked."
  | EmailExists => "Email already exists"
  | UserNotFound => "User not found"
  | InvalidCurrentPassword => "Invalid current password"
  | CourseNotFound => "Course not found"
  | FeedbackNotFound => "Feedback not found"
  end.

Inductive Settled (T : Type) :=
| Resolve (v : T)
| Reject (e : Error).
Arguments Resolve {T}.
Arguments Reject {T}.

(** ** Seed data ([createInitialData]) *)

Definition day : Z := 1000 * 3600 * 24.

(** The objects of the [for (let i = 3; i <= 22; i++)] loop. *)
Definition seed_student (now : Z) (i : nat) : User.t :=
  User.mk
    ("user-" +:+ toString i)
    ("Test Student " +:+ toString (i - 2))
    ("student" +:+ toString (i - 2) +:+ "@example.com")
    (Some "Password@123!")
    STUDENT
    None None None None
    (bool_decide (i `mod` 4 = 0)%nat)
    (now - Z.of_nat i * day).

Definition seed_users (now : Z) : list User.t :=
  [ User.mk "user-1" "Admin User" "admin@example.com" (Some "Admin@1234!") ADMIN
      (Some "https://picsum.photos/seed/admin/200") None None None false now;
    User.mk "user-2" "Student User" "student@example.com" (Some "Student@1234!") STUDENT
      (Some "https://picsum.photos/seed/student/200") (Some "123-456-7890")
      (Some "2000-01-01") (Some "123 University Ave") false now ]
  ++ (seed_student now <$> seq 3 20).

(** [courseData]: name, seed, link. *)
Definition courseData : list (string * string * string) :=
  [ ("Introduction to React", "react", "https://www.youtube.com/watch?v=bMknfKXIFA8");
    ("Advanced TypeScript", "typescript", "https://www.youtube.com/watch?v=gp5H0Lw_g_4");
    ("UI/UX Design Principles", "uiux", "https://www.youtube.com/watch?v=cKsu3K8aC2g");
    ("Backend with Node.js", "nodejs", "https://www.youtube.com/watch?v=f2EqECiTBL8");
    ("Database Management (SQL)", "database", "https://www.youtube.com/watch?v=HXV3zeQKqGY");
    ("Python for Beginners", "python", "https://www.youtube.com/watch?v=rfscVS0vtbw");
    ("Machine Learning Fundamentals", "ml", "https://www.youtube.com/watch?v=i_LwzRVP7bg");
    ("DevOps Crash Course", "devops", "https://www.youtube.com/watch?v=JothAEQoIIo");
    ("Introduction to Docker", "docker", "https://www.youtube.com/watch?v=p28piYY_j7Y");
    ("Cybersecurity Basics", "cyber", "https://www.youtube.com/watch?v=inWWhr5tnEA") ].

Definition seed_courses (now : Z) : list Course.t :=
  imap (λ i '(name, seed, link),
    Course.mk
      ("course-" +:+ toString (i + 1))
      name
      ("A comprehensive course on " +:+ name +:+ ".")
      (Some link)
      (Some ("https://picsum.photos/seed/" +:+ seed +:+ "/400/200"))
      now) courseData.

(** [a || b] on strings: the empty string is falsy. *)
Definition or_string (a : option string) (b : string) : string :=
  match a with
  | Some s => if decide (s = "") then b else s
  | None => b
  end.

(** [courses[k]] for an index [k] within the array. *)
#[global] Instance Course_inhabited : Inhabited Course.t :=
  populate (Course.mk "" "" "" None None 0).

(** One iteration of the feedback loops.  [Math.random()] is a source of
    arbitrary draws: [Math.floor(Math.random() * n)] is some index below [n],
    here the draw reduced modulo [n]. *)
Definition seed_feedback (now : Z) (us : list User.t) (cs : list Course.t)
    (rand : nat → nat → nat * nat) (i j : nat) : Feedback.t :=
  let course := cs !!! (fst (rand i j) `mod` length cs)%nat in
  let rating := Z.of_nat (snd (rand i j) `mod` 5) + 1 in
  Feedback.mk
    ("feedback-" +:+ toString ((i - 2) * 5 + j))
    ("user-" +:+ toString i)
    (or_string (User.name <$> List.find (λ u, bool_decide (User.id u = "user-" +:+ toString i)) us)
       "Unknown Student")
    (Course.id course)
    rating
    ("This was a " +:+ (if decide (rating > 3) then "great" else "decent") +:+
       " course. The content on " +:+ Course.name course +:+ " was very insightful.")
    (now - Z.of_nat j * day * 7).

Definition seed_feedbacks (now : Z) (us : list User.t) (cs : list Course.t)
    (rand : nat → nat → nat * nat) : list Feedback.t :=
  i ← seq 2 21; j ← seq 1 5; [seed_feedback now us cs rand i j].

(** The store after [createInitialData()].  The objects are pushed in
    order, so the reference of the [k]-th user is [k]. *)
Definition createInitialData (now : Z) (rand : nat → nat → nat * nat) : Store :=
  let us := seed_users now in
  let cs := seed_courses now in
  mkStore us (seq 0 (length us)) cs (seed_feedbacks now us cs rand).

(** ** Operations on user objects *)

Definition set_password (u : User.t) (p : option string) : User.t :=
  User.mk (User.id u) (User.name u) (User.email u) p (User.role u)
    (User.profilePicture u) (User.phoneNumber u) (User.dateOfBirth u)
    (User.address u) (User.isBlocked u) (User.createdAt u).

Definition set_isBlocked (u : User.t) (b : bool) : User.t :=
  User.mk (User.id u) (User.name u) (User.email u) (User.password u) (User.role u)
    (User.profilePicture u) (User.phoneNumber u) (User.dateOfBirth u)
    (User.address u) b (User.createdAt u).

(** An assignment to a field of the object behind [r]. *)
Definition write (r : ref) (u : User.t) (st : Store) : Store :=
  mkStore (<[r := u]> (heap st)) (users st) (courses st) (feedbacks st).

(** [users.find(u => P u)], with the object found. *)
Definition find_user (st : Store) (P : User.t → Prop) `{∀ u, Decision (P u)}
  : option (ref * User.t) :=
  r ← snd <$> list_find (holds (heap st) P) (users st);
  u ← obj st r;
  Some (r, u).

(** ** Doubles, for the average rating *)

Definition prec : Z := 53.
Definition emax : Z := 1024.

(** The double nearest to an integer. *)
Definition double_of_Z (z : Z) : spec_float := binary_normalize prec emax z 0 false.

(** [a / b] on doubles. *)
Definition double_div (a b : spec_float) : spec_float := SFdiv prec emax a b.

(** [parseFloat(x.toFixed(2))], as the number of hundredths that [toFixed]
    prints.  [toFixed(2)] takes the integer [n] with [n / 100] nearest to the
    exact value of the double [x], the larger one of two, on the absolute
    value of [x]; [parseFloat] maps the printed decimals to doubles in a
    strictly increasing way, so the order and the differences' signs of the
    results are those of the hundredths.  A double that is not finite does
    not arise from dividing a finite total by a count of at least 1. *)
Definition toFixed2 (x : spec_float) : Z :=
  match x with
  | S754_finite s m e =>
      let n := if decide (0 ≤ e) then 100 * Z.pos m * 2 ^ e
               else (200 * Z.pos m + 2 ^ (- e)) / 2 ^ (1 - e) in
      if s then - n else n
  | _ => 0
  end.

(** ** The [api] object *)

(** An argument with a default value ([page: number = 1]) is an [option]:
    [None] is an argument left out, or [undefined], and takes the default. *)

(** The [filters] argument of [getAllFeedback]. *)
Module Filters.
Record t := mk {
  courseId : option string;
  rating : option number
}.

(** The default value [{}]. *)
Definition empty : t := mk None None.
End Filters.

Record DashboardStats := mkStats {
  studentCount : nat;
  feedbackCount : nat;
  courseCount : nat
}.

(** An entry of [getCourseRatings]; [avgRating] is in hundredths, see
    [toFixed2]. *)
Record CourseRating := mkRating {
  rating_name : string;
  avgRating : Z
}.

Definition login (st : Store) (email password : string) : Settled ref * Store :=
  match find_user st (λ u, User.email u = email ∧ User.password u = Some password) with
  | None => (Reject InvalidCredentials, st)
  | Some (r, user) =>
      if User.isBlocked user then (Reject AccountBlocked, st)
      else (Resolve r, st)
  end.

Definition signup (st : Store) (now : Z) (name email password : string)
  : Settled ref * Store :=
  if decide (Exists (holds (heap st) (λ u, User.email u = email)) (users st))
  then (Reject EmailExists, st)
  else
    let newUser :=
      User.mk ("user-" +:+ toString (length (users st) + 1)) name email (Some password)
        STUDENT None None None None false now in
    let '(r, st') := push_user newUser st in
    (Resolve r, st').

Definition updateProfile (st : Store) (userId : string) (data : PartialUser.t)
  : Settled ref * Store :=
  match find_user st (λ u, User.id u = userId) with
  | None => (Reject UserNotFound, st)
  | Some (_, found) =>
      let user := spread_user found data in
      let r := length (heap st) in
      (Resolve r,
       mkStore (heap st ++ [user])
         ((λ u, if decide (holds (heap st) (λ o, User.id o = userId) u) then r else u)
            <$> users st)
         (courses st) (feedbacks st))
  end.

Definition changePassword (st : Store) (userId oldPass newPass : string)
  : Settled bool * Store :=
  match find_user st (λ u, User.id u = userId) with
  | None => (Reject InvalidCurrentPassword, st)
  | Some (r, user) =>
      if decide (User.password user ≠ Some oldPass)
      then (Reject InvalidCurrentPassword, st)
      else (Resolve true, write r (set_password user (Some newPass)) st)
  end.

Definition getCourses (st : Store) : Settled (list Course.t) * Store :=
  (Resolve (courses st), st).

Definition addCourse (st : Store) (now : Z) (data : CourseData.t)
  : Settled Course.t * Store :=
  let newCourse :=
    Course.mk ("course-" +:+ toString (length (courses st) + 1))
      (CourseData.name data) (CourseData.description data)
      (CourseData.link data) (CourseData.thumbnail data) now in
  (Resolve newCourse,
   mkStore (heap st) (users st) (courses st ++ [newCourse]) (feedbacks st)).

Definition updateCourse (st : Store) (id : string) (data : PartialCourse.t)
  : Settled Course.t * Store :=
  match snd <$> list_find (λ c, Course.id c = id) (courses st) with
  | None => (Reject CourseNotFound, st)
  | Some found =>
      let course := spread_course found data in
      (Resolve course,
       mkStore (heap st) (users st)
         ((λ c, if decide (Course.id c = id) then course else c) <$> courses st)
         (feedbacks st))
  end.

Definition deleteCourse (st : Store) (id : string) : Settled bool * Store :=
  (Resolve true,
   mkStore (heap st) (users st) (filter (λ c, Course.id c ≠ id) (courses st))
     (feedbacks st)).

(** The comparator [(a,b) => b.createdAt.getTime() - a.createdAt.getTime()]. *)
Definition newest_first (a b : Feedback.t) : Z :=
  Feedback.createdAt b - Feedback.createdAt a.

Definition getStudentFeedback (st : Store) (studentId : string)
    (page limit : option number) : Settled (Page Feedback.t) * Store :=
  let page := default (Int 1) page in
  let limit := default (Int 5) limit in
  let studentFeedbacks :=
    sort newest_first (filter (λ f, Feedback.studentId f = studentId) (feedbacks st)) in
  (Resolve (paginate studentFeedbacks page limit), st).

(** [if (filters.courseId)]: an absent key and the empty string are falsy. *)
Definition truthy_string (s : option string) : option string :=
  match s with
  | Some s => if decide (s = "") then None else Some s
  | None => None
  end.

(** [if (filters.rating)]: an absent key, [0] and [NaN] are falsy. *)
Definition truthy_number (n : option number) : option number :=
  match n with
  | Some n => if Num.truthy n then Some n else None
  | None => None
  end.

Definition getAllFeedback (st : Store) (page limit : option number)
    (filters : option Filters.t) : Settled (Page Feedback.t) * Store :=
  let page := default (Int 1) page in
  let limit := default (Int 10) limit in
  let filters := default Filters.empty filters in
  let filtered := feedbacks st in
  let filtered :=
    match truthy_string (Filters.courseId filters) with
    | Some courseId => filter (λ f, Feedback.courseId f = courseId) filtered
    | None => filtered
    end in
  let filtered :=
    match truthy_number (Filters.rating filters) with
    | Some rating => filter (λ f, Int (Feedback.rating f) = rating) filtered
    | None => filtered
    end in
  let sorted := sort newest_first filtered in
  (Resolve (paginate sorted page limit), st).

Definition addFeedback (st : Store) (now : Z) (feedbackData : FeedbackData.t)
  : Settled Feedback.t * Store :=
  let newFeedback :=
    Feedback.mk ("feedback-" +:+ toString (length (feedbacks st) + 1))
      (FeedbackData.studentId feedbackData) (FeedbackData.studentName feedbackData)
      (FeedbackData.courseId feedbackData) (FeedbackData.rating feedbackData)
      (FeedbackData.message feedbackData) now in
  (Resolve newFeedback,
   mkStore (heap st) (users st) (courses st) (newFeedback :: feedbacks st)).

Definition updateFeedback (st : Store) (id : string) (data : PartialFeedback.t)
  : Settled Feedback.t * Store :=
  match snd <$> list_find (λ f, Feedback.id f = id) (feedbacks st) with
  | None => (Reject FeedbackNotFound, st)
  | Some found =>
      let feedback := spread_feedback found data in
      (Resolve feedback,
       mkStore (heap st) (users st) (courses st)
         ((λ f, if decide (Feedback.id f = id) then feedback else f) <$> feedbacks st))
  end.

Definition deleteFeedback (st : Store) (id : string) : Settled bool * Store :=
  (Resolve true,
   mkStore (heap st) (users st) (courses st)
     (filter (λ f, Feedback.id f ≠ id) (feedbacks st))).

Definition updateUserStatus (st : Store) (id : string) (isBlocked : bool)
  : Settled ref * Store :=
  match find_user st (λ u, User.id u = id) with
  | None => (Reject UserNotFound, st)
  | Some (r, user) => (Resolve r, write r (set_isBlocked user isBlocked) st)
  end.

Definition deleteUser (st : Store) (id : string) : Settled bool * Store :=
  (Resolve true,
   mkStore (heap st)
     (filter (holds (heap st) (λ u, User.id u ≠ id)) (users st))
     (courses st)
     (filter (λ f, Feedback.studentId f ≠ id) (feedbacks st))).

Definition getDashboardStats (st : Store) : Settled DashboardStats * Store :=
  let studentCount :=
    length (filter (holds (heap st) (λ u, User.role u = STUDENT)) (users st)) in
  let feedbackCount := length (feedbacks st) in
  let courseCount := length (courses st) in
  (Resolve (mkStats studentCount feedbackCount courseCount), st).

(** The body of the [feedbacks.forEach] callback of [getCourseRatings]; an
    entry of [ratingsMap] is the pair of its [total] and [count]. *)
Definition add_rating (ratingsMap : gmap string (Z * Z)) (f : Feedback.t)
  : gmap string (Z * Z) :=
  let ratingsMap :=
    if decide (is_Some (ratingsMap !! Feedback.courseId f)) then ratingsMap
    else <[Feedback.courseId f := (0, 0)]> ratingsMap in
  match ratingsMap !! Feedback.courseId f with
  | Some (total, count) =>
      <[Feedback.courseId f := (total + Feedback.rating f, count + 1)]> ratingsMap
  | None => ratingsMap
  end.

(** [x || d] on numbers: [0] is falsy. *)
Definition or_number (x : option Z) (d : Z) : Z :=
  match x with
  | Some z => if decide (z = 0) then d else z
  | None => d
  end.

(** The comparator [(a,b) => b.avgRating - a.avgRating]. *)
Definition best_first (a b : CourseRating) : Z := avgRating b - avgRating a.

Definition course_rating (ratingsMap : gmap string (Z * Z)) (course : Course.t)
  : CourseRating :=
  mkRating (Course.name course)
    (toFixed2
       (double_div
          (double_of_Z (or_number (fst <$> ratingsMap !! Course.id course) 0))
          (double_of_Z (or_number (snd <$> ratingsMap !! Course.id course) 1)))).

Definition getCourseRatings (st : Store) : Settled (list CourseRating) * Store :=
  let ratingsMap := foldl add_rating ∅ (feedbacks st) in
  (Resolve (sort best_first (course_rating ratingsMap <$> courses st)), st).

(** A field of the result of a spread: the payload's value where the
    payload has the key, the previous value where it has not. *)
Abbreviation merged old upd new :=
  (match upd with Some v => new = v | None => new = old end).

(** The average the specification describes, for comparison with
    [getCourseRatings]: the sum of the ratings of the given feedback, divided
    by their number, or by 1 when there is none, and rounded to two
    decimals; in hundredths. *)
Definition sum_ratings (fs : list Feedback.t) : Z :=
  foldr (λ f acc, Feedback.rating f + acc) 0 fs.

Definition mean_rating (fs : list Feedback.t) : Z :=
  let count := Z.of_nat (length fs) in
  toFixed2
    (double_div (double_of_Z (sum_ratings fs))
       (double_of_Z (if decide (count = 0) then 1 else count))).

Section WithLocale.

(** [a.localeCompare(b)] depends on the host's locale. *)
Variable localeCompare : string → string → Z.

(** The comparator [(a, b) => a.name.localeCompare(b.name)]. *)
Definition by_name (st : Store) (a b : ref) : Z :=
  match obj st a, obj st b with
  | Some a, Some b => localeCompare (User.name a) (User.name b)
  | _, _ => 0
  end.

Definition getUsers (st : Store) (page limit : option number)
  : Settled (Page ref) * Store :=
  let page := default (Int 1) page in
  let limit := default (Int 10) limit in
  let allUsers := sort (by_name st) (users st) in
  (Resolve (paginate allUsers page limit), st).

(** *** Calls of the interface *)

Inductive Call :=
| Login (email password : string)
| Signup (name email password : string)
| UpdateProfile (userId : string) (data : PartialUser.t)
| ChangePassword (userId oldPass newPass : string)
| GetCourses
| AddCourse (data : CourseData.t)
| UpdateCourse (id : string) (data : PartialCourse.t)
| DeleteCourse (id : string)
| GetStudentFeedback (studentId : string) (page limit : option number)
| GetAllFeedback (page limit : option number) (filters : option Filters.t)
| AddFeedback (feedbackData : FeedbackData.t)
| UpdateFeedback (id : string) (data : PartialFeedback.t)
| DeleteFeedback (id : string)
| GetUsers (page limit : option number)
| UpdateUserStatus (id : string) (isBlocked : bool)
| DeleteUser (id : string)
| GetDashboardStats
| GetCourseRatings.

(** What the caller of a settled promise can tell apart without looking
    at the value: fulfilment, or the error of the rejection. *)
Definition outcome {T} (r : Settled T * Store) : option Error * Store :=
  match r with
  | (Resolve _, st) => (None, st)
  | (Reject e, st) => (Some e, st)
  end.

(** One call at time [now]. *)
Definition exec (now : Z) (c : Call) (st : Store) : option Error * Store :=
  match c with
  | Login email password => outcome (login st email password)
  | Signup name email password => outcome (signup st now name email password)
  | UpdateProfile userId data => outcome (updateProfile st userId data)
  | ChangePassword userId oldPass newPass =>
      outcome (changePassword st userId oldPass newPass)
  | GetCourses => outcome (getCourses st)
  | AddCourse data => outcome (addCourse st now data)
  | UpdateCourse id data => outcome (updateCourse st id data)
  | DeleteCourse id => outcome (deleteCourse st id)
  | GetStudentFeedback studentId page limit =>
      outcome (getStudentFeedback st studentId page limit)
  | GetAllFeedback page limit filters => outcome (getAllFeedback st page limit filters)
  | AddFeedback feedbackData => outcome (addFeedback st now feedbackData)
  | UpdateFeedback id data => outcome (updateFeedback st id data)
  | DeleteFeedback id => outcome (deleteFeedback st id)
  | GetUsers page limit => outcome (getUsers st page limit)
  | UpdateUserStatus id isBlocked => outcome (updateUserStatus st id isBlocked)
  | DeleteUser id => outcome (deleteUser st id)
  | GetDashboardStats => outcome (getDashboardStats st)
  | GetCourseRatings => outcome (getCourseRatings st)
  end.

(** A sequence of calls, each with the time it is made at. *)
Definition run (calls : list (Z * Call)) (st : Store) : Store :=
  foldl (λ st '(now, c), snd (exec now c st)) st calls.

End WithLocale.

(** ** What a caller sees *)

(** The [data] of the page a listing resolves with, as the callers read it
    ([response.data]). *)
Definition data_of {A} (r : Settled (Page A) * Store) : list A :=
  match fst r with
  | Resolve p => data p
  | Reject _ => []
  end.

(** * The components

    The forms and tabs of [src/components] that call the store.  The state
    of a component is a record of its [useState] values, and a handler is a
    function from that state and the store to the state and the store once
    the promise of the handler has settled and the effects it set off have
    run; a callback the handler may call is part of the result.  A string
    that a regular expression is tested on is a sequence of code units
    below 256. *)

(** ** The regular expressions of the forms *)

(** The fragment of JavaScript's regular expressions that the forms use,
    over strings of code units below 256: anchors, character classes
    (escapes and literals are classes too), a quantified class, sequence and
    lookahead.  The matcher backtracks over a continuation, as the
    specification of [RegExp.prototype.exec] describes it; a quantifier is
    greedy. *)
Inductive regex :=
| Bol
| Eol
| Class (p : Ascii.ascii → bool)
| Star (p : Ascii.ascii → bool)
| Seq (r1 r2 : regex)
| Lookahead (r : regex).

(** [c*] at index [pos] of the input, of which [s] is left. *)
Fixpoint star (p : Ascii.ascii → bool) (pos : nat) (s : list Ascii.ascii)
    (k : nat → list Ascii.ascii → bool) : bool :=
  match s with
  | c :: s' => (p c && star p (S pos) s' k) || k pos s
  | [] => k pos []
  end.

Fixpoint matches (r : regex) (pos : nat) (s : list Ascii.ascii)
    (k : nat → list Ascii.ascii → bool) : bool :=
  match r with
  | Bol => bool_decide (pos = 0%nat) && k pos s
  | Eol => match s with [] => k pos s | _ :: _ => false end
  | Class p => match s with c :: s' => p c && k (S pos) s' | [] => false end
  | Star p => star p pos s k
  | Seq r1 r2 => matches r1 pos s (λ pos' s', matches r2 pos' s' k)
  | Lookahead r => matches r pos s (λ _ _, true) && k pos s
  end.

(** [c+] and [c{n,}]. *)
Definition plus (p : Ascii.ascii → bool) : regex := Seq (Class p) (Star p).

Fixpoint at_least (n : nat) (p : Ascii.ascii → bool) : regex :=
  match n with
  | O => Star p
  | S n => Seq (Class p) (at_least n p)
  end.

(** [regex.test(str)] for an expression without flags: a match that starts
    at some index of the string. *)
Fixpoint test_from (r : regex) (pos : nat) (s : list Ascii.ascii) : bool :=
  matches r pos s (λ _ _, true)
  || match s with
     | _ :: s' => test_from r (S pos) s'
     | [] => false
     end.

Definition test (r : regex) (str : string) : bool :=
  test_from r 0 (String.list_ascii_of_string str).

(** *** Character classes *)

Definition in_range (lo hi c : Ascii.ascii) : bool :=
  (Ascii.N_of_ascii lo <=? Ascii.N_of_ascii c)%N && (Ascii.N_of_ascii c <=? Ascii.N_of_ascii hi)%N.

Definition one_of (cs : string) (c : Ascii.ascii) : bool :=
  existsb (Ascii.eqb c) (String.list_ascii_of_string cs).

(** [[A-Za-z]], [\d], [[@$!%*#?&]] and [[A-Za-z\d@$!%*#?&]]. *)
Definition letter (c : Ascii.ascii) : bool := in_range "A"%char "Z"%char c || in_range "a"%char "z"%char c.
Definition digit (c : Ascii.ascii) : bool := in_range "0"%char "9"%char c.
Definition special (c : Ascii.ascii) : bool := one_of "@$!%*#?&" c.
Definition allowed (c : Ascii.ascii) : bool := letter c || digit c || special c.

(** [.]: any code unit but a line terminator; [\S]: any code unit but white
    space (tab, line feed, vertical tab, form feed, carriage return, space
    and no-break space are the ones below 256). *)
Definition dot (c : Ascii.ascii) : bool :=
  negb (Ascii.eqb c "010"%char) && negb (Ascii.eqb c "013"%char).

Definition nonspace (c : Ascii.ascii) : bool :=
  negb (in_range "009"%char "013"%char c || Ascii.eqb c " "%char || Ascii.eqb c "160"%char).

(** [/^(?=.*[A-Za-z])(?=.*\d)(?=.*[@$!%*#?&])[A-Za-z\d@$!%*#?&]{8,}$/] *)
Definition password_regex : regex :=
  Seq Bol
    (Seq (Lookahead (Seq (Star dot) (Class letter)))
       (Seq (Lookahead (Seq (Star dot) (Class digit)))
          (Seq (Lookahead (Seq (Star dot) (Class special)))
             (Seq (at_least 8 allowed) Eol)))).

(** [/\S+@\S+\.\S+/] *)
Definition email_regex : regex :=
  Seq (plus nonspace)
    (Seq (Class (Ascii.eqb "@"%char))
       (Seq (plus nonspace)
          (Seq (Class (Ascii.eqb "."%char)) (plus nonspace)))).

(** [validatePassword] of [Auth]; [Profile] tests the same expression. *)
Definition validatePassword (pass : string) : bool := test password_regex pass.

(** ** The forms *)

(** [!s] on a string. *)
Definition falsy (s : string) : bool := bool_decide (s = "").

(** The state of [Auth] and its [handleSubmit].  The result is the state
    after the handler has run, the store, and the argument of
    [onAuthSuccess] if it was called. *)
Module Auth.
Record state := mk {
  isLogin : bool;
  name : string;
  email : string;
  password : string;
  error : string;
  loading : bool
}.

Definition setError (e : string) (s : state) : state :=
  mk (isLogin s) (name s) (email s) (password s) e (loading s).

Definition setLoading (b : bool) (s : state) : state :=
  mk (isLogin s) (name s) (email s) (password s) (error s) b.

Definition handleSubmit (st : Store) (now : Z) (s : state)
  : state * Store * option ref :=
  let s := setError "" s in
  if negb (isLogin s) && falsy (name s)
  then (setError "Name is required." s, st, None)
  else if negb (test email_regex (email s))
  then (setError "Please enter a valid email." s, st, None)
  else if negb (validatePassword (password s))
  then (setError "Password must be at least 8 characters, with 1 number and 1 special character." s,
        st, None)
  else
    let s := setLoading true s in
    let r := if isLogin s then login st (email s) (password s)
             else signup st now (name s) (email s) (password s) in
    match fst r with
    | Resolve user => (setLoading false s, snd r, Some user)
    | Reject err =>
        (setLoading false
           (setError (or_string (Some (message err)) "An error occurred.") s),
         snd r, None)
    end.
End Auth.

(** The state of [Profile] and its handlers; [userId] is [user.id] of the
    user of the context.  [formData] has the keys [name], [phoneNumber],
    [dateOfBirth] and [address]: the inputs that change it have these
    names. *)
Module Profile.
(** [error.message], which the field [message] of the state hides below. *)
Local Abbreviation error_message := message (only parsing).

Record state := mk {
  name : string;
  phoneNumber : option string;
  dateOfBirth : option string;
  address : option string;
  profilePic : option string;
  currentPassword : string;
  newPassword : string;
  confirmPassword : string;
  loading : bool;
  passLoading : bool;
  message : string;
  passMessage : string
}.

Definition setMessage (m : string) (s : state) : state :=
  mk (name s) (phoneNumber s) (dateOfBirth s) (address s) (profilePic s)
    (currentPassword s) (newPassword s) (confirmPassword s)
    (loading s) (passLoading s) m (passMessage s).

Definition setLoading (b : bool) (s : state) : state :=
  mk (name s) (phoneNumber s) (dateOfBirth s) (address s) (profilePic s)
    (currentPassword s) (newPassword s) (confirmPassword s)
    b (passLoading s) (message s) (passMessage s).

Definition setPassMessage (m : string) (s : state) : state :=
  mk (name s) (phoneNumber s) (dateOfBirth s) (address s) (profilePic s)
    (currentPassword s) (newPassword s) (confirmPassword s)
    (loading s) (passLoading s) (message s) m.

Definition setPassLoading (b : bool) (s : state) : state :=
  mk (name s) (phoneNumber s) (dateOfBirth s) (address s) (profilePic s)
    (currentPassword s) (newPassword s) (confirmPassword s)
    (loading s) b (message s) (passMessage s).

Definition clearPasswords (s : state) : state :=
  mk (name s) (phoneNumber s) (dateOfBirth s) (address s) (profilePic s)
    "" "" "" (loading s) (passLoading s) (message s) (passMessage s).

(** [{ ...formData, profilePicture: profilePic }] *)
Definition payload (s : state) : PartialUser.t :=
  PartialUser.mk None (Some (name s)) None None None
    (Some (profilePic s)) (Some (phoneNumber s)) (Some (dateOfBirth s))
    (Some (address s)) None None.

(** The result is the state, the store, and the argument of [setUser] if
    it was called. *)
Definition handleProfileUpdate (st : Store) (userId : string) (s : state)
  : state * Store * option ref :=
  let s := setMessage "" (setLoading true s) in
  let r := updateProfile st userId (payload s) in
  match fst r with
  | Resolve updatedUser =>
      (setLoading false (setMessage "Profile updated successfully!" s),
       snd r, Some updatedUser)
  | Reject _ =>
      (setLoading false (setMessage "Failed to update profile." s), snd r, None)
  end.

Definition handlePasswordChange (st : Store) (userId : string) (s : state)
  : state * Store :=
  if bool_decide (newPassword s ≠ confirmPassword s)
  then (setPassMessage "New passwords do not match." s, st)
  else if negb (test password_regex (newPassword s))
  then (setPassMessage "Password must be at least 8 characters, with 1 number and 1 special character." s,
        st)
  else
    let s := setPassMessage "" (setPassLoading true s) in
    let r := changePassword st userId (currentPassword s) (newPassword s) in
    match fst r with
    | Resolve _ =>
        (setPassLoading false
           (clearPasswords (setPassMessage "Password changed successfully!" s)),
         snd r)
    | Reject error =>
        (setPassLoading false
           (setPassMessage
              (or_string (Some (error_message error)) "Failed to change password.") s),
         snd r)
    end.
End Profile.

(** ** Comparing and adding numbers *)

Module NumOps.

(** [a + b] *)
Definition add (a b : number) : number :=
  match a, b with
  | NaN, _ | _, NaN => NaN
  | Int x, Int y => Int (x + y)
  | PosInf, NegInf | NegInf, PosInf => NaN
  | PosInf, _ | _, PosInf => PosInf
  | NegInf, _ | _, NegInf => NegInf
  end.

(** [a < b]; a comparison with NaN is false. *)
Definition lt (a b : number) : bool :=
  match a, b with
  | NaN, _ | _, NaN => false
  | Int x, Int y => bool_decide (x < y)
  | PosInf, _ | _, NegInf => false
  | _, PosInf | NegInf, _ => true
  end.

(** [a <= b] *)
Definition le (a b : number) : bool :=
  match a, b with
  | NaN, _ | _, NaN => false
  | Int x, Int y => bool_decide (x ≤ y)
  | NegInf, _ | _, PosInf => true
  | PosInf, _ | _, NegInf => false
  end.

(** [a > b] and [a >= b] *)
Definition gt (a b : number) : bool := lt b a.
Definition ge (a b : number) : bool := le b a.

End NumOps.

(** ** The pagination control ([Pagination]) *)

(** A rendered [Button]: its [disabled] attribute and the page that its
    [onClick] passes to [onPageChange]. *)
Record Button := mkButton {
  disabled : bool;
  onClick : number
}.

(** What [Pagination] renders: [None] is [null]; otherwise the label
    "Page [currentPage] of [totalPages]" and the two buttons. *)
Record PaginationView := mkPagination {
  label : number * number;
  Previous : Button;
  Next : Button
}.

Definition Pagination (currentPage totalPages : number) : option PaginationView :=
  if NumOps.le totalPages (Int 1) then None
  else
    Some (mkPagination (currentPage, totalPages)
            (mkButton (NumOps.le currentPage (Int 1))
               (Num.sub currentPage (Int 1)))
            (mkButton (NumOps.ge currentPage totalPages)
               (NumOps.add currentPage (Int 1)))).

(** ** The stars ([Rating]) *)

(** A rendered [StarIcon]: whether it is filled, and the rate that its
    [onClick] passes to [onRating]. *)
Record StarIcon := mkStar {
  filled : bool;
  rate : Z
}.

Definition Rating (count : nat) (rating : Z) : list StarIcon :=
  (λ i : nat, mkStar (bool_decide (Z.of_nat i < rating)) (Z.of_nat i + 1)) <$> seq 0 count.

(** ** The student's view *)

Module StudentView.

Definition ITEMS_PER_PAGE : Z := 5.

(** The feedback form, for the [user] of the context and the feedback
    being edited, if any.  The result of [handleSubmit] is the state, the
    store, and the argument of [onFeedbackSubmitted] if it was called;
    [onDone] is called after it. *)
Module FeedbackForm.
Record state := mk {
  courseId : string;
  rating : Z;
  message : string;
  loading : bool
}.

(** The initial values of [useState]. *)
Definition init (courses : list Course.t) (initialFeedback : option Feedback.t) : state :=
  mk (or_string (Feedback.courseId <$> initialFeedback)
        (match courses with c :: _ => Course.id c | [] => "" end))
     (or_number (Feedback.rating <$> initialFeedback) 0)
     (or_string (Feedback.message <$> initialFeedback) "")
     false.

Definition setRating (r : Z) (s : state) : state :=
  mk (courseId s) r (message s) (loading s).

Definition setLoading (b : bool) (s : state) : state :=
  mk (courseId s) (rating s) (message s) b.

Definition handleSubmit (st : Store) (now : Z) (user : option User.t)
    (initialFeedback : option Feedback.t) (s : state)
  : state * Store * option Feedback.t :=
  match user with
  | Some user =>
      if falsy (courseId s) || bool_decide (rating s = 0) || falsy (message s)
      then (s, st, None)
      else
        let s := setLoading true s in
        let r :=
          match initialFeedback with
          | Some initialFeedback =>
              updateFeedback st (Feedback.id initialFeedback)
                (PartialFeedback.mk None (Some (User.id user)) (Some (User.name user))
                   (Some (courseId s)) (Some (rating s)) (Some (message s)) None)
          | None =>
              addFeedback st now
                (FeedbackData.mk (User.id user) (User.name user) (courseId s)
                   (rating s) (message s))
          end in
        match fst r with
        | Resolve submittedFeedback => (setLoading false s, snd r, Some submittedFeedback)
        | Reject _ => (setLoading false s, snd r, None)
        end
  | None => (s, st, None)
  end.
End FeedbackForm.

Module FeedbackTab.
(** [feedbackResponse.totalPages], which the field [totalPages] of the state
    hides below. *)
Local Abbreviation response_totalPages := totalPages (only parsing).

Record state := mk {
  feedbacks : list Feedback.t;
  loading : bool;
  isModalOpen : bool;
  editingFeedback : option Feedback.t;
  currentPage : number;
  totalPages : number
}.

Definition setLoading (b : bool) (s : state) : state :=
  mk (feedbacks s) b (isModalOpen s) (editingFeedback s) (currentPage s) (totalPages s).

Definition setCurrentPage (p : number) (s : state) : state :=
  mk (feedbacks s) (loading s) (isModalOpen s) (editingFeedback s) p (totalPages s).

Definition setResponse (r : Page Feedback.t) (s : state) : state :=
  mk (data r) (loading s) (isModalOpen s) (editingFeedback s) (currentPage s)
    (response_totalPages r).

(** [fetchFeedback], for the [user] of the context. *)
Definition fetchFeedback (st : Store) (user : option User.t) (s : state) : state :=
  match user with
  | None => s
  | Some user =>
      let s := setLoading true s in
      match fst (getStudentFeedback st (User.id user) (Some (currentPage s))
                   (Some (Int ITEMS_PER_PAGE))) with
      | Resolve feedbackResponse => setLoading false (setResponse feedbackResponse s)
      | Reject _ => setLoading false s
      end
  end.

(** [handleDelete], with the answer of [window.confirm], and the state once
    the effects have run: [setCurrentPage] with another page makes a new
    [fetchFeedback], which the effect that depends on it calls. *)
Definition handleDelete (confirm : bool) (st : Store) (user : option User.t)
    (s : state) (id : string) : state * Store :=
  if confirm then
    let st := snd (deleteFeedback st id) in
    if bool_decide (length (feedbacks s) = 1%nat) && NumOps.gt (currentPage s) (Int 1)
    then (fetchFeedback st user (setCurrentPage (Num.sub (currentPage s) (Int 1)) s), st)
    else (fetchFeedback st user s, st)
  else (s, st).
End FeedbackTab.

End StudentView.

(** ** The administrator's view *)

Module AdminView.

(** The students tab.  Its [users] are the objects of the store that
    [getUsers] resolved with; [handleToggleBlock] reads [user.id] and
    [user.isBlocked] from the object of the row. *)
Module StudentsTab.
(** [response.totalPages], which the field [totalPages] of the state hides
    below. *)
Local Abbreviation response_totalPages := totalPages (only parsing).

Record state := mk {
  users : list ref;
  loading : bool;
  currentPage : number;
  totalPages : number
}.

Definition setCurrentPage (p : number) (s : state) : state :=
  mk (users s) (loading s) p (totalPages s).

Definition fetchUsers (localeCompare : string → string → Z) (st : Store) (s : state)
  : state :=
  match fst (getUsers localeCompare st (Some (currentPage s)) None) with
  | Resolve response =>
      mk (data response) false (currentPage s) (response_totalPages response)
  | Reject _ => mk (users s) true (currentPage s) (totalPages s)
  end.

Definition handleToggleBlock (localeCompare : string → string → Z) (st : Store)
    (s : state) (user : ref) : state * Store :=
  match obj st user with
  | Some u =>
      let r := updateUserStatus st (User.id u) (negb (User.isBlocked u)) in
      match fst r with
      | Resolve _ => (fetchUsers localeCompare (snd r) s, snd r)
      | Reject _ => (s, snd r)
      end
  | None => (s, st)
  end.

Definition handleDelete (confirm : bool) (localeCompare : string → string → Z)
    (st : Store) (s : state) (id : string) : state * Store :=
  if confirm then
    let st := snd (deleteUser st id) in
    if bool_decide
         (length (filter (holds (heap st) (λ u, User.role u = STUDENT)) (users s)) = 1%nat)
       && NumOps.gt (currentPage s) (Int 1)
    then (fetchUsers localeCompare st
            (setCurrentPage (Num.sub (currentPage s) (Int 1)) s), st)
    else (fetchUsers localeCompare st s, st)
  else (s, st).
End StudentsTab.

Module CoursesTab.
Record state := mk {
  courses : list Course.t;
  loading : bool;
  isModalOpen : bool;
  editingCourse : option Course.t;
  name : string;
  description : string;
  link : string;
  thumbnail : string
}.

Definition setCourses (cs : list Course.t) (s : state) : state :=
  mk cs (loading s) (isModalOpen s) (editingCourse s) (name s) (description s)
    (link s) (thumbnail s).

Definition setLoading (b : bool) (s : state) : state :=
  mk (courses s) b (isModalOpen s) (editingCourse s) (name s) (description s)
    (link s) (thumbnail s).

Definition closeModal (s : state) : state :=
  mk (courses s) (loading s) false None (name s) (description s) (link s) (thumbnail s).

Definition fetchCourses (st : Store) (s : state) : state :=
  match fst (getCourses st) with
  | Resolve data => setLoading false (setCourses data (setLoading true s))
  | Reject _ => setLoading true s
  end.

(** [handleSubmit]; [courseData] is [{ name, description, link, thumbnail }].
    Nothing catches a rejection: the state stays as it is. *)
Definition handleSubmit (st : Store) (now : Z) (s : state) : state * Store :=
  match editingCourse s with
  | Some editing =>
      let r := updateCourse st (Course.id editing)
                 (PartialCourse.mk None (Some (name s)) (Some (description s))
                    (Some (Some (link s))) (Some (Some (thumbnail s))) None) in
      match fst r with
      | Resolve updatedCourse =>
          (closeModal
             (setCourses
                ((λ c, if decide (Course.id c = Course.id updatedCourse)
                       then updatedCourse else c) <$> courses s) s),
           snd r)
      | Reject _ => (s, snd r)
      end
  | None =>
      let r := addCourse st now
                 (CourseData.mk (name s) (description s) (Some (link s))
                    (Some (thumbnail s))) in
      match fst r with
      | Resolve newCourse => (closeModal (setCourses (newCourse :: courses s) s), snd r)
      | Reject _ => (s, snd r)
      end
  end.

Definition handleDelete (confirm : bool) (st : Store) (s : state) (id : string)
  : state * Store :=
  if confirm then
    (setCourses (filter (λ c, Course.id c ≠ id) (courses s)) s, snd (deleteCourse st id))
  else (s, st).
End CoursesTab.

End AdminView.

(** * Properties *)

(** ** Arrays and pagination *)

Section Arrays.
Context {A : Type}.
Implicit Types (items l : list A) (cmp : A → A → Z).

Lemma sort_insert_perm cmp x l : sort_insert cmp x l ≡ₚ x :: l.
Proof.
  induction l as [|y l IH]; simpl; [done|].
  case_decide; [done|]. rewrite IH. apply Permutation_swap.
Qed.

Lemma sort_perm cmp l : sort cmp l ≡ₚ l.
Proof.
  induction l as [|x l IH]; simpl; [done|].
  unfold sort in *. simpl. rewrite sort_insert_perm. by f_equiv.
Qed.

Lemma sort_length cmp l : length (sort cmp l) = length l.
Proof. by rewrite sort_perm. Qed.

(** A comparator that compares keys orders the array by them. *)
Lemma sort_insert_sorted (key : A → Z) x l :
  StronglySorted (λ a b, key b ≤ key a) l →
  StronglySorted (λ a b, key b ≤ key a) (sort_insert (λ a b, key b - key a) x l).
Proof.
  induction 1 as [|y l Hl IH Hy]; simpl.
  - repeat constructor.
  - case_decide.
    + constructor; [by constructor|].
      constructor; [lia|]. eapply Forall_impl; [exact Hy|]. simpl. lia.
    + constructor; [done|].
      rewrite sort_insert_perm. constructor; [lia|done].
Qed.

Lemma sort_sorted (key : A → Z) l :
  StronglySorted (λ a b, key b ≤ key a) (sort (λ a b, key b - key a) l).
Proof.
  induction l as [|x l IH]; [constructor|].
  apply sort_insert_sorted, IH.
Qed.

(** [slice] between two in-range bounds is [take] after [drop]. *)
Lemma slice_window items (a n : Z) :
  0 ≤ a → 0 ≤ n →
  slice items (Int a) (Int (a + n)) = take (Z.to_nat n) (drop (Z.to_nat a) items).
Proof.
  intros Ha Hn. unfold slice, slice_index.
  rewrite !decide_False by lia.
  set (len := Z.of_nat (length items)).
  destruct (decide (len ≤ a)) as [Hge|Hlt].
  - rewrite !drop_ge by lia. by rewrite !take_nil.
  - rewrite (Z.min_l a) by lia.
    destruct (decide (a + n ≤ len)).
    + do 2 f_equal. lia.
    + rewrite !take_ge; [done| |]; rewrite length_drop; lia.
Qed.

(** Page 1 of an unbounded page size: [(1 - 1) * Infinity] is NaN, which
    [slice] reads as 0. *)
Lemma slice_all items : slice items NaN PosInf = items.
Proof.
  unfold slice, slice_index.
  rewrite Z.sub_0_r, Z.max_l, Nat2Z.id by lia.
  change (Z.to_nat 0) with 0%nat. rewrite drop_0. by apply take_ge.
Qed.

(** A page after the first of an unbounded page size starts at
    [Infinity]. *)
Lemma slice_past_end items (z : Z) :
  0 < z → slice items (Num.mul (Int z) PosInf) (Num.mul (Int (z + 1)) PosInf) = [].
Proof.
  intros Hz.
  assert (Hinf : ∀ y, 0 < y → Num.mul (Int y) PosInf = PosInf)
    by (by intros [|y|y] ?).
  rewrite !Hinf by lia. unfold slice, slice_index.
  rewrite Z.sub_diag. apply take_0.
Qed.

Lemma slice_of_nil (a b : number) : slice (@nil A) a b = [].
Proof. unfold slice. by rewrite drop_nil, take_nil. Qed.

End Arrays.

Lemma ceil_div_bounds (t n : Z) :
  0 < n → (- ((- t) / n) - 1) * n < t ≤ - ((- t) / n) * n.
Proof.
  intros Hn.
  pose proof (Z.div_mod (- t) n ltac:(lia)).
  pose proof (Z.mod_pos_bound (- t) n Hn). nia.
Qed.

(** C1, as the code has it.  For every sequence, every integer page [>= 1]
    and every integer page size [>= 1], [paginate] returns
    [total = length(sequence)], [totalPages] the ceiling of
    [total / pageSize] (the least [n] with [n * pageSize >= total]) and
    [data = sequence[(page-1)*pageSize : page*pageSize]], element by element;
    so [data] has at most [pageSize] elements and is empty when [page]
    exceeds [totalPages].  [getUsers], [getStudentFeedback] and
    [getAllFeedback] all return what this one helper computes on their
    sorted sequence.  With the unbounded page size [Infinity], [totalPages]
    is 0, page 1 is the whole sequence and the later pages are empty. *)
Theorem paginate_spec {A} (items : list A) (page limit : Z)
    (localeCompare : string → string → Z) (st : Store) :
  1 ≤ page → 1 ≤ limit →
  let p := paginate items (Int page) (Int limit) in
  total p = Int (Z.of_nat (length items)) ∧
  (∃ n : Z, totalPages p = Int n ∧
     (n - 1) * limit < Z.of_nat (length items) ≤ n * limit ∧
     (n < page → data p = [])) ∧
  data p = take (Z.to_nat limit) (drop (Z.to_nat ((page - 1) * limit)) items) ∧
  (∀ i : nat, data p !! i =
     if decide (Z.of_nat i < limit)
     then items !! (Z.to_nat ((page - 1) * limit) + i)%nat
     else None) ∧
  Z.of_nat (length (data p)) ≤ limit ∧
  (∃ us, getUsers localeCompare st (Some (Int page)) (Some (Int limit))
           = (Resolve (paginate us (Int page) (Int limit)), st)
         ∧ us ≡ₚ users st) ∧
  (∀ studentId, ∃ fs,
     getStudentFeedback st studentId (Some (Int page)) (Some (Int limit))
       = (Resolve (paginate fs (Int page) (Int limit)), st)
     ∧ fs ≡ₚ filter (λ f, Feedback.studentId f = studentId) (feedbacks st)) ∧
  (∀ filters, ∃ fs,
     getAllFeedback st (Some (Int page)) (Some (Int limit)) filters
       = (Resolve (paginate fs (Int page) (Int limit)), st)
     ∧ fs ⊆+ feedbacks st) ∧
  paginate items (Int page) PosInf
    = mkPage (if decide (page = 1) then items else [])
        (Int (Z.of_nat (length items))) (Int 0).
Proof.
  intros Hpage Hlimit p.
  assert (Hdata : data p
            = take (Z.to_nat limit) (drop (Z.to_nat ((page - 1) * limit)) items)).
  { subst p. unfold paginate. simpl.
    replace (page * limit) with ((page - 1) * limit + limit) by lia.
    apply slice_window; nia. }
  split; [done|]. split; [|split; [done|split; [|split]]].
  - exists (- ((- Z.of_nat (length items)) / limit)). split.
    { subst p. unfold paginate. simpl. by rewrite decide_False by lia. }
    split; [apply ceil_div_bounds; lia|].
    intros Hlt. rewrite Hdata, drop_ge; [apply take_nil|].
    pose proof (ceil_div_bounds (Z.of_nat (length items)) limit ltac:(lia)). nia.
  - intros i. rewrite Hdata. case_decide.
    + rewrite lookup_take_lt by lia. by rewrite lookup_drop.
    + apply lookup_ge_None. rewrite length_take. lia.
  - rewrite Hdata, length_take. lia.
  - split; [|split; [|split]].
    + eexists. split; [reflexivity|]. apply sort_perm.
    + intros studentId. eexists. split; [reflexivity|]. apply sort_perm.
    + intros filters. eexists. split; [reflexivity|].
      rewrite sort_perm.
      destruct filters as [[courseId rating]|]; simpl; [|done].
      destruct (truthy_string courseId), (truthy_number rating); try done;
        repeat (etrans; [apply sublist_submseteq, sublist_filter|]); done.
    + unfold paginate. f_equal. case_decide as Hone.
      * subst page. apply slice_all.
      * change (Num.sub (Int page) (Int 1)) with (Int (page - 1)).
        replace (Int page) with (Int (page - 1 + 1)) by (f_equal; lia).
        apply slice_past_end; lia.
Qed.

(** The pagination example of the specification: 22 items in pages of 5;
    page 5 holds the last two. *)
Lemma paginate_spec_witness :
  1 ≤ 5 ∧ 1 ≤ 5 ∧
  data (paginate (seq 1 22) (Int 5) (Int 5)) = take 5 (drop 20 (seq 1 22)) ∧
  Z.of_nat (length (data (paginate (seq 1 22) (Int 5) (Int 5)))) ≤ 5.
Proof.
  split; [lia|]. split; [lia|].
  pose proof (paginate_spec (seq 1 22) 5 5 (λ _ _, 0) empty_store
                ltac:(lia) ltac:(lia)) as H.
  simpl in H. destruct H as (_ & _ & Hd & _ & Hl & _).
  split; [exact Hd | exact Hl].
Defined.

(** The claim as the specification words it fails for the page size the
    export passes: of one item, with page size [Infinity], there are 0
    pages, and yet page 1 is not empty. *)
Lemma paginate_unbounded_counterexample :
  let p := paginate ["a"] (Int 1) PosInf in
  ∃ n : Z, totalPages p = Int n ∧ n < 1 ∧ data p ≠ [].
Proof. exists 0. by vm_compute. Qed.

(** ** Looking users up *)

Section Lookup.
Context (st : Store) (P : User.t → Prop) `{∀ u, Decision (P u)}.

Lemma holds_obj r : holds (heap st) P r ↔ ∃ u, obj st r = Some u ∧ P u.
Proof.
  unfold holds, obj. destruct (heap st !! r) as [u|]; simpl.
  - split; [eauto|]. by intros (? & [= <-] & ?).
  - split; [done|]. by intros (? & ? & ?).
Qed.

Lemma Forall_user_list :
  Forall P (user_list st) ↔ Forall (λ r, ∀ u, obj st r = Some u → P u) (users st).
Proof.
  unfold user_list. induction (users st) as [|r rs IH]; simpl.
  - split; constructor.
  - rewrite Forall_cons, <- IH. destruct (obj st r) as [u|] eqn:Hr.
    + rewrite Forall_cons. split; intros [Ha Hb]; (split; [|done]).
      * intros u0 Heq. by simplify_eq.
      * by apply Ha.
    + split; [|tauto]. intros ?; split; [done|tauto].
Qed.

(** [find] returns the first element, in array order, that passes. *)
Lemma find_user_Some r u :
  find_user st P = Some (r, u) ↔
  ∃ i, users st !! i = Some r ∧ obj st r = Some u ∧ P u ∧
       ∀ j r', users st !! j = Some r' → (j < i)%nat → ¬ holds (heap st) P r'.
Proof.
  unfold find_user. split.
  - destruct (list_find _ _) as [[i r']|] eqn:Hf; simpl; [|done].
    apply list_find_Some in Hf as (Hi & Hr & Hmin).
    destruct (obj st r') as [u'|] eqn:Ho; simpl; [|done].
    intros [= <- <-]. exists i. repeat split; try done.
    apply holds_obj in Hr as (? & ? & ?). congruence.
  - intros (i & Hi & Ho & HP & Hmin).
    assert (list_find (holds (heap st) P) (users st) = Some (i, r)) as ->.
    { apply list_find_Some. repeat split; [done| |done].
      apply holds_obj. eauto. }
    simpl. by rewrite Ho.
Qed.

Lemma find_user_None :
  find_user st P = None ↔ Forall (λ r, ¬ holds (heap st) P r) (users st).
Proof.
  unfold find_user. split.
  - destruct (list_find _ _) as [[i r]|] eqn:Hf; simpl.
    + apply list_find_Some in Hf as (_ & Hr & _).
      apply holds_obj in Hr as (u & Ho & _). by rewrite Ho.
    + intros _. by apply list_find_None in Hf.
  - intros Hall.
    by rewrite (proj2 (list_find_None (holds (heap st) P) (users st)) Hall).
Qed.

Lemma find_user_elem r u :
  find_user st P = Some (r, u) → r ∈ users st ∧ obj st r = Some u ∧ P u.
Proof.
  intros (i & Hi & Ho & HP & _)%find_user_Some.
  split; [by eapply list_elem_of_lookup_2|done].
Qed.

End Lookup.

Lemma not_holds_user_list st (P : User.t → Prop) :
  Forall (λ r, ¬ holds (heap st) P r) (users st) ↔ Forall (λ u, ¬ P u) (user_list st).
Proof.
  rewrite Forall_user_list. apply Forall_proper; [|done].
  intros r. unfold holds, obj. destruct (heap st !! r); simpl; [|naive_solver].
  split; [by intros ? ? [= <-]|eauto].
Qed.

(** The records of the users that pass a filter of the array. *)
Lemma omap_filter_holds (h : list User.t) (P : User.t → Prop)
    `{∀ u, Decision (P u)} (rs : list ref) :
  omap (λ r, h !! r) (filter (holds h P) rs) = filter P (omap (λ r, h !! r) rs).
Proof.
  induction rs as [|r rs IH]; [done|].
  rewrite filter_cons.
  destruct (decide (holds h P r)) as [Hh|Hh]; unfold holds in Hh; simpl;
    destruct (h !! r) as [u|]; simpl in Hh; try done.
  - rewrite filter_cons_True by done. f_equal. exact IH.
  - rewrite filter_cons_False by done. exact IH.
Qed.

Lemma user_list_filter st (P : User.t → Prop) `{∀ u, Decision (P u)} cs fs :
  user_list (mkStore (heap st) (filter (holds (heap st) P) (users st)) cs fs)
  = filter P (user_list st).
Proof. apply omap_filter_holds. Qed.

Lemma filter_idemp {A} (P : A → Prop) `{∀ x, Decision (P x)} (l : list A) :
  filter P (filter P l) = filter P l.
Proof. rewrite list_filter_filter. apply list_filter_iff. tauto. Qed.

(** ** Deleting a user *)

Lemma filter_contradiction {A} (P : A → Prop) `{∀ x, Decision (P x)} (l : list A) :
  filter P (filter (λ x, ¬ P x) l) = [].
Proof.
  induction l as [|x l IH]; [done|].
  rewrite filter_cons. case_decide; [|done].
  by rewrite filter_cons_False.
Qed.

(** C3.  [deleteUser] always resolves, whether or not a user has the id; it
    removes the users with that id and every feedback whose [studentId] is
    the id, and nothing else; a second call resolves too and leaves the
    store as the first one left it; afterwards [getStudentFeedback] for that
    id returns no data, for every page and page size. *)
Theorem deleteUser_cascade (st : Store) (id : string) :
  let st1 := snd (deleteUser st id) in
  fst (deleteUser st id) = Resolve true ∧
  user_list st1 = filter (λ u, User.id u ≠ id) (user_list st) ∧
  feedbacks st1 = filter (λ f, Feedback.studentId f ≠ id) (feedbacks st) ∧
  courses st1 = courses st ∧
  deleteUser st1 id = (Resolve true, st1) ∧
  ∀ page N : option number, ∃ p,
    getStudentFeedback st1 id page N = (Resolve p, st1) ∧ data p = [].
Proof.
  simpl. split; [done|]. split; [apply user_list_filter|].
  split; [done|]. split; [done|]. split.
  - unfold deleteUser. simpl. by rewrite !filter_idemp.
  - intros page N. eexists. split; [reflexivity|].
    simpl. rewrite (filter_contradiction (λ f, Feedback.studentId f = id)).
    apply slice_of_nil.
Qed.

(** ** Filters of [getAllFeedback] *)

(** C10.  [getAllFeedback] tests its filters for truthiness: a [rating] of 0
    is treated like an absent one, and so is an empty [courseId]; a caller
    passing rating 0 and no course gets the feedback of every rating. *)
Theorem getAllFeedback_falsy_filters (st : Store) (page limit : option number)
    (courseId : option string) (rating : option number) :
  getAllFeedback st page limit (Some (Filters.mk courseId (Some (Int 0))))
    = getAllFeedback st page limit (Some (Filters.mk courseId None)) ∧
  getAllFeedback st page limit (Some (Filters.mk (Some "") rating))
    = getAllFeedback st page limit (Some (Filters.mk None rating)) ∧
  getAllFeedback st page limit (Some (Filters.mk None (Some (Int 0))))
    = getAllFeedback st page limit None ∧
  ∃ p, getAllFeedback st (Some (Int 1)) (Some PosInf)
         (Some (Filters.mk None (Some (Int 0))))
         = (Resolve p, st)
       ∧ data p ≡ₚ feedbacks st.
Proof.
  split; [done|]. split; [done|]. split; [done|].
  eexists. split; [reflexivity|].
  unfold paginate. simpl. rewrite slice_all. apply sort_perm.
Qed.

(** ** Rejections *)

(** C9.  A call that rejects leaves the store as it was: the heap of user
    objects and the three arrays are those before the call.  In particular
    the number of users is unchanged when [signup] rejects. *)
Theorem reject_leaves_store (localeCompare : string → string → Z)
    (now : Z) (c : Call) (st : Store) (e : Error) :
  fst (exec localeCompare now c st) = Some e →
  snd (exec localeCompare now c st) = st ∧
  length (users (snd (exec localeCompare now c st))) = length (users st).
Proof.
  intros Hrej.
  assert (snd (exec localeCompare now c st) = st) as ->; [|done].
  destruct c; simpl in *; try done.
  - unfold login in *. destruct (find_user _ _) as [[r u]|]; [|done].
    by destruct (User.isBlocked u).
  - unfold signup in *. by case_decide.
  - unfold updateProfile in *. by destruct (find_user _ _) as [[r u]|].
  - unfold changePassword in *. destruct (find_user _ _) as [[r u]|]; [|done].
    by case_decide.
  - unfold updateCourse in *. by destruct (snd <$> list_find _ _).
  - unfold updateFeedback in *. by destruct (snd <$> list_find _ _).
  - unfold updateUserStatus in *. by destruct (find_user _ _) as [[r u]|].
Qed.

(** A registration with the e-mail address of a seeded user. *)
Lemma reject_leaves_store_witness :
  let st := createInitialData 0 (λ _ _, (0, 0)%nat) in
  let c := Signup "Mallory" "admin@example.com" "Secret@123!" in
  fst (exec (λ _ _, 0) 0 c st) = Some EmailExists ∧
  snd (exec (λ _ _, 0) 0 c st) = st ∧
  length (users (snd (exec (λ _ _, 0) 0 c st))) = length (users st).
Proof.
  assert (H : fst (exec (λ _ _, 0) 0
                     (Signup "Mallory" "admin@example.com" "Secret@123!")
                     (createInitialData 0 (λ _ _, (0, 0)%nat)))
              = Some EmailExists) by (vm_compute; reflexivity).
  split; [exact H|].
  exact (reject_leaves_store _ _ _ _ _ H).
Defined.

(** ** Writing to a user object *)

Lemma obj_write_eq st r u u' :
  obj st r = Some u → obj (write r u' st) r = Some u'.
Proof.
  unfold obj, write; simpl. intros Hr.
  apply list_lookup_insert_eq. by eapply lookup_lt_Some.
Qed.

Lemma obj_write_ne st r r' u' : r' ≠ r → obj (write r u' st) r' = obj st r'.
Proof. unfold obj, write; simpl. intros ?. by apply list_lookup_insert_ne. Qed.

(** A write that keeps what a callback looks at does not change its verdict
    on any element of [users]. *)
Lemma holds_write st (P : User.t → Prop) r u u' r' :
  obj st r = Some u → (P u' ↔ P u) →
  holds (heap (write r u' st)) P r' ↔ holds (heap st) P r'.
Proof.
  intros Hr HP. unfold holds.
  destruct (decide (r' = r)) as [->|Hne].
  - fold (obj (write r u' st) r) (obj st r).
    by rewrite (obj_write_eq _ _ _ _ Hr), Hr.
  - fold (obj (write r u' st) r') (obj st r'). by rewrite obj_write_ne.
Qed.

Lemma find_user_write st (P : User.t → Prop) `{∀ u, Decision (P u)} r u u' :
  find_user st P = Some (r, u) → (P u' ↔ P u) →
  find_user (write r u' st) P = Some (r, u').
Proof.
  intros Hf HP. pose proof Hf as (_ & Ho & Hu)%find_user_elem.
  apply find_user_Some in Hf as (i & Hi & _ & _ & Hmin).
  apply find_user_Some. exists i. split; [done|].
  split; [by eapply obj_write_eq|]. split; [by apply HP|].
  intros j r' Hj Hlt. rewrite holds_write by done. by eapply Hmin.
Qed.

(** ** Changing a password *)

(** C7, as the code has it.  [changePassword] rejects with the one error
    "Invalid current password" both when no user has the id and when the
    user found has another password, leaving the store as it was; otherwise
    it resolves with [true], the object found (which stays the one found for
    that id) has the new password and its other fields as before, and no
    other object or array has changed. *)
Theorem changePassword_spec (st : Store) (userId oldPass newPass : string) :
  let res := changePassword st userId oldPass newPass in
  (Forall (λ u, User.id u ≠ userId) (user_list st) →
     res = (Reject InvalidCurrentPassword, st)) ∧
  (∀ r u, find_user st (λ u, User.id u = userId) = Some (r, u) →
     User.password u ≠ Some oldPass →
     res = (Reject InvalidCurrentPassword, st)) ∧
  (∀ r u, find_user st (λ u, User.id u = userId) = Some (r, u) →
     User.password u = Some oldPass →
     fst res = Resolve true ∧
     (∃ u', find_user (snd res) (λ u, User.id u = userId) = Some (r, u') ∧
        User.password u' = Some newPass ∧
        User.id u' = User.id u ∧ User.name u' = User.name u ∧
        User.email u' = User.email u ∧ User.role u' = User.role u ∧
        User.profilePicture u' = User.profilePicture u ∧
        User.phoneNumber u' = User.phoneNumber u ∧
        User.dateOfBirth u' = User.dateOfBirth u ∧
        User.address u' = User.address u ∧
        User.isBlocked u' = User.isBlocked u ∧
        User.createdAt u' = User.createdAt u) ∧
     (∀ r', r' ≠ r → obj (snd res) r' = obj st r') ∧
     users (snd res) = users st ∧
     courses (snd res) = courses st ∧
     feedbacks (snd res) = feedbacks st).
Proof.
  simpl. split; [|split].
  - intros Hnone. apply not_holds_user_list in Hnone.
    apply (find_user_None st (λ u, User.id u = userId)) in Hnone.
    unfold changePassword. by rewrite Hnone.
  - intros r u Hf Hpw. unfold changePassword. rewrite Hf.
    by rewrite decide_True.
  - intros r u Hf Hpw. unfold changePassword. rewrite Hf.
    rewrite decide_False by (intros ?; done). simpl.
    split; [done|]. split.
    { exists (set_password u (Some newPass)).
      split; [by apply (find_user_write _ _ _ u)|]. done. }
    split; [|done]. intros r' Hne. by apply obj_write_ne.
Qed.

(** The seeded student changes the seeded password. *)
Lemma changePassword_spec_witness :
  let st := createInitialData 0 (λ _ _, (0, 0)%nat) in
  let res := changePassword st "user-2" "Student@1234!" "Changed@123!" in
  fst res = Resolve true ∧
  (User.password <$> obj (snd res) 1%nat) = Some (Some "Changed@123!").
Proof.
  pose (st := createInitialData 0 (λ _ _, (0, 0)%nat)).
  assert (Hu : ∃ u, find_user st (λ u, User.id u = "user-2") = Some (1%nat, u)
                    ∧ User.password u = Some "Student@1234!")
    by (eexists; split; vm_compute; reflexivity).
  destruct Hu as (u & Hf & Hpw).
  destruct (changePassword_spec st "user-2" "Student@1234!" "Changed@123!")
    as (_ & _ & Hok).
  destruct (Hok _ _ Hf Hpw) as (Hres & (u' & Hfind & Hnew & _) & _).
  split; [exact Hres|].
  apply find_user_elem in Hfind as (_ & Ho & _).
  fold st. rewrite Ho. simpl. by rewrite Hnew.
Defined.

(** The claim as the specification words it fails where no user has the id:
    the rejection is not "User not found", and it is the very rejection a
    wrong old password gets. *)
Lemma changePassword_absent_id_counterexample :
  let st := createInitialData 0 (λ _ _, (0, 0)%nat) in
  Forall (λ u, User.id u ≠ "user-99") (user_list st) ∧
  fst (changePassword st "user-99" "Password@123!" "Changed@123!")
    ≠ Reject UserNotFound ∧
  fst (changePassword st "user-99" "Password@123!" "Changed@123!")
    = fst (changePassword st "user-2" "wrong" "Changed@123!").
Proof.
  split; [|split].
  - apply (bool_decide_unpack _). by vm_compute.
  - intros H. vm_compute in H. discriminate H.
  - by vm_compute.
Qed.

(** ** Logging in *)

(** C8, as the code has it.  [login] rejects with "Invalid credentials"
    exactly when no user has that e-mail address and that password; it
    rejects with "Your account is blocked." exactly when the first user with
    them is blocked; otherwise it resolves with that user, password
    included: with the very object the [users] array holds, not a copy.  The
    store is not changed. *)
Theorem login_spec (st : Store) (email password : string) :
  let res := fst (login st email password) in
  (res = Reject InvalidCredentials ↔
     Forall (λ u, ¬ (User.email u = email ∧ User.password u = Some password))
       (user_list st)) ∧
  (res = Reject AccountBlocked ↔
     ∃ r u, find_user st (λ u, User.email u = email ∧ User.password u = Some password)
              = Some (r, u) ∧ User.isBlocked u = true) ∧
  (∀ r, res = Resolve r ↔
     ∃ u, find_user st (λ u, User.email u = email ∧ User.password u = Some password)
            = Some (r, u) ∧ User.isBlocked u = false) ∧
  (∀ r, res = Resolve r →
     r ∈ users st ∧
     ∃ u, obj st r = Some u ∧ User.email u = email ∧
          User.password u = Some password ∧ User.isBlocked u = false) ∧
  snd (login st email password) = st.
Proof.
  simpl. unfold login.
  pose proof (find_user_None st
    (λ u, User.email u = email ∧ User.password u = Some password)) as HNone.
  rewrite not_holds_user_list in HNone.
  destruct (find_user st _) as [[r u]|] eqn:Hf.
  - pose proof Hf as (Hin & Ho & He & Hp)%find_user_elem.
    destruct (User.isBlocked u) eqn:Hb; simpl.
    + split; [split; [done|]; intros HF; by apply HNone in HF|].
      split; [split; [eauto|done]|].
      split; [intros r'; split; [done|]; intros (u' & [= <- <-] & ?); congruence|].
      done.
    + split; [split; [done|]; intros HF; by apply HNone in HF|].
      split; [split; [done|]; intros (r' & u' & [= <- <-] & ?); congruence|].
      split; [intros r'; split; [intros [= <-]; eauto|by intros (u' & [= <- <-] & _)]|].
      split; [|done]. intros r' [= <-]. split; [done|]. eauto 6.
  - simpl. split; [split; [intros _; by apply HNone|done]|].
    split; [split; [done|]; by intros (? & ? & ? & _)|].
    split; [intros r; split; [done|]; by intros (? & ? & _)|].
    done.
Qed.

(** The seeded student logs in. *)
Lemma login_spec_witness :
  let st := createInitialData 0 (λ _ _, (0, 0)%nat) in
  fst (login st "student@example.com" "Student@1234!") = Resolve 1%nat ∧
  1%nat ∈ users st ∧
  (User.password <$> obj st 1%nat) = Some (Some "Student@1234!").
Proof.
  pose (st := createInitialData 0 (λ _ _, (0, 0)%nat)).
  assert (Hres : fst (login st "student@example.com" "Student@1234!")
                 = Resolve 1%nat) by (vm_compute; reflexivity).
  destruct (login_spec st "student@example.com" "Student@1234!")
    as (_ & _ & _ & Hobj & _).
  destruct (Hobj _ Hres) as (Hin & u & Ho & _ & Hpw & _).
  split; [exact Hres|]. split; [exact Hin|].
  fold st. rewrite Ho. simpl. by rewrite Hpw.
Defined.

(** What [login] resolves with is no defensive copy: it is an element of
    the store's own [users] array, and a later [changePassword] on the store
    shows through it. *)
Lemma login_returns_store_object_counterexample :
  let st := createInitialData 0 (λ _ _, (0, 0)%nat) in
  ∃ r,
    fst (login st "student@example.com" "Student@1234!") = Resolve r ∧
    r ∈ users st ∧
    let st' := snd (changePassword st "user-2" "Student@1234!" "Changed@123!") in
    (User.password <$> obj st r) = Some (Some "Student@1234!") ∧
    (User.password <$> obj st' r) = Some (Some "Changed@123!").
Proof.
  exists 1%nat. split; [by vm_compute|]. split.
  - apply (bool_decide_unpack _). by vm_compute.
  - split; by vm_compute.
Qed.

(** ** Updating a profile *)

(** The array after [users.map(u => P u ? user : u)], where [user] is a new
    object: read as records, the users that pass [P] have become [user]. *)
Lemma omap_replace (h : list User.t) (user : User.t) (P : User.t → Prop)
    `{∀ u, Decision (P u)} (rs : list ref) :
  Forall (λ r, (r < length h)%nat) rs →
  omap (λ r, (h ++ [user]) !! r)
    ((λ r, if decide (holds h P r) then length h else r) <$> rs)
  = (λ u, if decide (P u) then user else u) <$> omap (λ r, h !! r) rs.
Proof.
  induction 1 as [|r rs Hr _ IH]; [done|].
  destruct (lookup_lt_is_Some_2 h r Hr) as [u Hu].
  rewrite fmap_cons. cbn [omap list_omap]. rewrite Hu. rewrite fmap_cons.
  change (list_omap _ _ ?f ?l) with (omap f l). rewrite <- IH.
  destruct (decide (holds h P r)) as [Hh|Hh]; unfold holds in Hh;
    rewrite Hu in Hh; simpl in Hh.
  - rewrite (decide_True (P:=P u)) by done.
    by rewrite list_lookup_middle.
  - rewrite (decide_False (P:=P u)) by done.
    by rewrite lookup_app_l, Hu.
Qed.

(** C6, as the code has it.  For an absent id [updateProfile] rejects with
    "User not found" and changes nothing.  Otherwise it resolves with a new
    object in which every field is the payload's where the payload has the
    key and the previous value where it has not; that holds for [id] and
    [role] like for any other field, so they are kept when the payload
    leaves them out and overwritten when it carries them.  The new object
    takes the place of the users with that id, and the other users, the
    courses and the feedback are as before. *)
Theorem updateProfile_spec (st : Store) (userId : string) (data : PartialUser.t) :
  (Forall (λ u, User.id u ≠ userId) (user_list st) →
     updateProfile st userId data = (Reject UserNotFound, st)) ∧
  (∀ r u, find_user st (λ u, User.id u = userId) = Some (r, u) →
     let st' := snd (updateProfile st userId data) in
     ∃ r' u',
       fst (updateProfile st userId data) = Resolve r' ∧
       obj st' r' = Some u' ∧ r' ∈ users st' ∧
       merged (User.id u) (PartialUser.id data) (User.id u') ∧
       merged (User.name u) (PartialUser.name data) (User.name u') ∧
       merged (User.email u) (PartialUser.email data) (User.email u') ∧
       merged (User.password u) (PartialUser.password data) (User.password u') ∧
       merged (User.role u) (PartialUser.role data) (User.role u') ∧
       merged (User.profilePicture u) (PartialUser.profilePicture data)
         (User.profilePicture u') ∧
       merged (User.phoneNumber u) (PartialUser.phoneNumber data)
         (User.phoneNumber u') ∧
       merged (User.dateOfBirth u) (PartialUser.dateOfBirth data)
         (User.dateOfBirth u') ∧
       merged (User.address u) (PartialUser.address data) (User.address u') ∧
       merged (User.isBlocked u) (PartialUser.isBlocked data) (User.isBlocked u') ∧
       merged (User.createdAt u) (PartialUser.createdAt data) (User.createdAt u') ∧
       (wf st →
          user_list st'
          = (λ x, if decide (User.id x = userId) then u' else x) <$> user_list st) ∧
       courses st' = courses st ∧
       feedbacks st' = feedbacks st).
Proof.
  split.
  - intros Hnone. apply not_holds_user_list in Hnone.
    apply (find_user_None st (λ u, User.id u = userId)) in Hnone.
    unfold updateProfile. by rewrite Hnone.
  - intros r u Hf. unfold updateProfile. rewrite Hf. simpl.
    apply find_user_elem in Hf as (Hin & Ho & Hid).
    exists (length (heap st)), (spread_user u data).
    split; [done|]. split; [apply list_lookup_middle; done|]. split.
    { apply list_elem_of_fmap. exists r. split; [|done].
      rewrite decide_True; [done|]. unfold holds. unfold obj in Ho. by rewrite Ho. }
    simpl.
    repeat (split; [by match goal with
                       | |- match ?o with _ => _ end => destruct o
                       end|]).
    split; [|done]. intros Hwf. by apply omap_replace.
Qed.

(** The seeded student renames himself; id and role are left out and kept. *)
Lemma updateProfile_spec_witness :
  let st := createInitialData 0 (λ _ _, (0, 0)%nat) in
  let data := PartialUser.mk None (Some "Renamed") None None None None None None
                None None None in
  ∃ r' u',
    fst (updateProfile st "user-2" data) = Resolve r' ∧
    obj (snd (updateProfile st "user-2" data)) r' = Some u' ∧
    User.name u' = "Renamed" ∧ User.id u' = "user-2" ∧ User.role u' = STUDENT.
Proof.
  pose (st := createInitialData 0 (λ _ _, (0, 0)%nat)).
  pose (data := PartialUser.mk None (Some "Renamed") None None None None None
                  None None None None).
  assert (Hu : ∃ u, find_user st (λ u, User.id u = "user-2") = Some (1%nat, u)
                    ∧ User.id u = "user-2" ∧ User.role u = STUDENT)
    by (eexists; repeat split; vm_compute; reflexivity).
  destruct Hu as (u & Hf & Hid & Hrole).
  destruct (updateProfile_spec st "user-2" data) as (_ & Hok).
  destruct (Hok _ _ Hf) as (r' & u' & Hres & Ho & _ & Hi & Hn & _ & _ & Hr & _).
  exists r', u'. simpl in Hi, Hn, Hr.
  repeat split; [exact Hres|exact Ho|exact Hn|congruence|congruence].
Defined.

(** The claim as the specification words it fails for a payload that carries
    [id] and [role]: the record the store then holds has the payload's. *)
Lemma updateProfile_overwrites_id_role_counterexample :
  let st := createInitialData 0 (λ _ _, (0, 0)%nat) in
  let data := PartialUser.mk (Some "user-1") None None None (Some ADMIN) None None
                None None None None in
  ∃ r u r' u',
    find_user st (λ u, User.id u = "user-2") = Some (r, u) ∧
    fst (updateProfile st "user-2" data) = Resolve r' ∧
    obj (snd (updateProfile st "user-2" data)) r' = Some u' ∧
    r' ∈ users (snd (updateProfile st "user-2" data)) ∧
    User.id u = "user-2" ∧ User.role u = STUDENT ∧
    User.id u' = "user-1" ∧ User.role u' = ADMIN.
Proof.
  do 4 eexists.
  split; [by vm_compute|]. split; [by vm_compute|]. split; [by vm_compute|].
  split; [apply (bool_decide_unpack _); by vm_compute|].
  by vm_compute.
Qed.

(** ** Uniqueness of e-mail addresses *)

Lemma snd_outcome {T} (r : Settled T * Store) : snd (outcome r) = snd r.
Proof. by destruct r as [[?|?] ?]. Qed.

Lemma fst_outcome {T} (r : Settled T * Store) e :
  fst (outcome r) = Some e ↔ fst r = Reject e.
Proof. destruct r as [[?|?] ?]; simpl; split; congruence. Qed.

Lemma elem_of_emails st email :
  email ∈ emails st ↔ Exists (holds (heap st) (λ u, User.email u = email)) (users st).
Proof.
  unfold emails, user_list. rewrite list_elem_of_fmap, Exists_exists. split.
  - intros (u & -> & (r & Hr & Ho)%list_elem_of_omap).
    exists r. split; [done|]. apply holds_obj. eauto.
  - intros (r & Hr & (u & Ho & <-)%holds_obj).
    exists u. split; [done|]. apply list_elem_of_omap. eauto.
Qed.

Lemma omap_lookup_app (h : list User.t) (u : User.t) (rs : list nat) :
  Forall (λ r, (r < length h)%nat) rs →
  omap (λ r, (h ++ [u]) !! r) rs = omap (λ r, h !! r) rs.
Proof.
  induction 1 as [|r rs Hr _ IH]; [done|].
  cbn [omap list_omap]. rewrite lookup_app_l by done.
  destruct (h !! r); [f_equal|]; exact IH.
Qed.

Lemma user_list_push st u :
  wf st → user_list (snd (push_user u st)) = user_list st ++ [u].
Proof.
  intros Hwf. unfold user_list, obj, push_user. simpl.
  rewrite omap_app, omap_lookup_app by done. f_equal.
  simpl. by rewrite list_lookup_middle.
Qed.

Lemma wf_push st u : wf st → wf (snd (push_user u st)).
Proof.
  unfold wf, push_user. simpl. intros Hwf.
  rewrite length_app. simpl. apply Forall_app. split.
  - eapply Forall_impl; [exact Hwf|]. simpl. lia.
  - repeat constructor. lia.
Qed.

(** A write that keeps the address keeps the list of addresses. *)
Lemma emails_write st r u u' :
  obj st r = Some u → User.email u' = User.email u →
  emails (write r u' st) = emails st.
Proof.
  intros Ho He. unfold emails, user_list.
  change (users (write r u' st)) with (users st).
  induction (users st) as [|r' rs IH]; [done|].
  cbn [omap list_omap].
  change (list_omap _ _ ?f ?l) with (omap f l).
  destruct (decide (r' = r)) as [->|Hne].
  - rewrite (obj_write_eq _ _ _ _ Ho), Ho. rewrite !fmap_cons, He. by f_equal.
  - rewrite obj_write_ne by done.
    destruct (obj st r'); [rewrite !fmap_cons; f_equal|]; exact IH.
Qed.

Lemma wf_write st r u : wf st → wf (write r u st).
Proof. unfold wf, write. simpl. by rewrite length_insert. Qed.

Lemma filter_at_most_one {A} (P : A → Prop) `{∀ x, Decision (P x)} (l : list A) x y :
  (length (filter P l) ≤ 1)%nat → x ∈ l → y ∈ l → P x → P y → x = y.
Proof.
  intros Hlen Hx Hy HPx HPy.
  assert (Hx' : x ∈ filter P l) by by apply list_elem_of_filter.
  assert (Hy' : y ∈ filter P l) by by apply list_elem_of_filter.
  destruct (filter P l) as [|z [|z' l']]; simpl in Hlen; [|..|lia].
  - by apply elem_of_nil in Hx'.
  - apply list_elem_of_singleton in Hx', Hy'. congruence.
Qed.

Lemma wf_replace st u (f : nat → nat) cs fs :
  wf st → (∀ r, (r < length (heap st))%nat → (f r ≤ length (heap st))%nat) →
  wf (mkStore (heap st ++ [u]) (f <$> users st) cs fs).
Proof.
  unfold wf. simpl. intros Hwf Hf. rewrite length_app. simpl.
  apply Forall_fmap. eapply Forall_impl; [exact Hwf|].
  simpl. intros r Hr. specialize (Hf r Hr). lia.
Qed.

(** X15.  What the code does keep.  [signup] rejects with "Email already exists"
    exactly when a user has exactly that e-mail address.  In a store whose
    addresses are unique, every call leaves them unique, [updateProfile]
    excepted: it merges the payload without looking at the other users, and
    keeps the addresses unique when the payload carries no [email] and no
    second user has the id it is called with. *)
Theorem emails_stay_unique (localeCompare : string → string → Z)
    (now : Z) (c : Call) (st : Store) :
  wf st → NoDup (emails st) →
  match c with
  | UpdateProfile userId data =>
      PartialUser.email data = None ∧
      (length (filter (λ u, User.id u = userId) (user_list st)) ≤ 1)%nat
  | _ => True
  end →
  let st' := snd (exec localeCompare now c st) in
  wf st' ∧ NoDup (emails st') ∧
  ∀ name email password, c = Signup name email password →
    (fst (exec localeCompare now c st) = Some EmailExists ↔ email ∈ emails st).
Proof.
  intros Hwf Hnd Hc. simpl.
  cut (wf (snd (exec localeCompare now c st))
       ∧ NoDup (emails (snd (exec localeCompare now c st)))).
  { intros [? ?]. split; [done|]. split; [done|].
    intros name email password ->. simpl. rewrite fst_outcome, elem_of_emails.
    unfold signup. case_decide; simpl; split; done. }
  destruct c; simpl; rewrite ?snd_outcome; try exact (conj Hwf Hnd).
  - (* login *)
    unfold login. destruct (find_user _ _) as [[r u]|]; [|done].
    by destruct (User.isBlocked u).
  - (* signup *)
    unfold signup. case_decide as Hex; [done|].
    set (newUser := User.mk _ _ _ _ _ _ _ _ _ _ _).
    change (wf (snd (push_user newUser st))
            ∧ NoDup (emails (snd (push_user newUser st)))).
    split; [by apply wf_push|]. unfold emails.
    rewrite user_list_push by done.
    rewrite fmap_app. apply NoDup_app. split; [done|]. split; [|repeat constructor].
    + intros x Hx ->%list_elem_of_singleton. by apply Hex, elem_of_emails.
    + by intros ?%elem_of_nil.
  - (* updateProfile *)
    unfold updateProfile.
    destruct (find_user _ _) as [[r u]|] eqn:Hf; [|done]. simpl. split.
    { apply wf_replace; [done|]. intros r' Hr'. case_decide; lia. }
    destruct Hc as [Hemail Hone].
    apply find_user_elem in Hf as (Hin & Ho & Hid).
    unfold emails, user_list, obj. simpl.
    rewrite (omap_replace _ _ (λ u, User.id u = userId)) by done.
    rewrite <- list_fmap_compose.
    erewrite Forall_fmap_ext_1; [exact Hnd|].
    apply Forall_forall. intros x Hx. simpl. case_decide as Hxid; [|done].
    assert (x = u) as ->.
    { eapply (filter_at_most_one (λ u, User.id u = userId)); try done.
      apply list_elem_of_omap. eauto. }
    unfold spread_user. simpl. by rewrite Hemail.
  - (* changePassword *)
    unfold changePassword.
    destruct (find_user _ _) as [[r u]|] eqn:Hf; [|done].
    case_decide; [done|]. simpl. split; [by apply wf_write|].
    apply find_user_elem in Hf as (_ & Ho & _). by erewrite emails_write.
  - (* updateCourse *)
    unfold updateCourse. by destruct (snd <$> list_find _ _).
  - (* updateFeedback *)
    unfold updateFeedback. by destruct (snd <$> list_find _ _).
  - (* updateUserStatus *)
    unfold updateUserStatus.
    destruct (find_user _ _) as [[r u]|] eqn:Hf; [|done]. simpl.
    split; [by apply wf_write|].
    apply find_user_elem in Hf as (_ & Ho & _). by erewrite emails_write.
  - (* deleteUser *)
    split.
    + unfold wf in *. simpl. apply Forall_forall. intros r Hr.
      apply list_elem_of_filter in Hr as [_ Hr].
      by eapply Forall_forall in Hwf.
    + unfold emails. rewrite (user_list_filter st (λ u, User.id u ≠ id)).
      eapply sublist_NoDup; [exact Hnd|]. apply fmap_sublist, sublist_filter.
Qed.

(** The seeded student edits the name; no [email] in the payload. *)
Lemma emails_stay_unique_witness :
  let st := createInitialData 0 (λ _ _, (0, 0)%nat) in
  let c := UpdateProfile "user-2"
             (PartialUser.mk None (Some "Renamed") None None None None None None
                None None None) in
  wf st ∧ NoDup (emails st) ∧
  NoDup (emails (snd (exec (λ _ _, 0) 0 c st))).
Proof.
  pose (st := createInitialData 0 (λ _ _, (0, 0)%nat)).
  assert (Hwf : wf st) by (apply (bool_decide_unpack _); vm_compute; exact I).
  assert (Hnd : NoDup (emails st))
    by (apply (bool_decide_unpack _); vm_compute; exact I).
  split; [exact Hwf|]. split; [exact Hnd|].
  refine (proj1 (proj2 (emails_stay_unique (λ _ _, 0) 0
            (UpdateProfile "user-2" _) st Hwf Hnd _))).
  split; [reflexivity|]. vm_compute. lia.
Defined.

(** C5 fails on the code.  [signup] refuses an address that is taken, but
    [updateProfile] merges an [email] of the payload without that check: in
    the store as seeded the student takes the administrator's address, and
    two users share it. *)
Theorem updateProfile_duplicates_email :
  let st := createInitialData 0 (λ _ _, (0, 0)%nat) in
  let data := PartialUser.mk None None (Some "admin@example.com") None None None
                None None None None None in
  wf st ∧ NoDup (emails st) ∧ NoDup (ids st) ∧
  fst (signup st 0 "Mallory" "admin@example.com" "Secret@123!") = Reject EmailExists ∧
  fst (updateProfile st "user-2" data) = Resolve 22%nat ∧
  take 2 (emails (snd (updateProfile st "user-2" data)))
    = ["admin@example.com"; "admin@example.com"] ∧
  ¬ NoDup (emails (snd (updateProfile st "user-2" data))).
Proof.
  repeat split; try (apply (bool_decide_unpack _); vm_compute; exact I);
    by vm_compute.
Qed.

(** ** Ids after a deletion *)

(** C4 fails on the code.  In the store as seeded, with ids [user-1] to
    [user-22], the administrator deletes [user-1] and somebody registers:
    the new user gets the id [user-22] of a user who is still there, made
    from the length of the array.  Courses and feedback get their ids the
    same way: after [course-1] is deleted a new course is a second
    [course-10], and after [feedback-1] is deleted a new feedback is a
    second [feedback-105]. *)
Theorem ids_reused_after_delete (localeCompare : string → string → Z)
    (now : Z) (rand : nat → nat → nat * nat)
    (course : CourseData.t) (feedback : FeedbackData.t) :
  let st0 := createInitialData now rand in
  let st := run localeCompare
              [(now, DeleteUser "user-1");
               (now, Signup "New Student" "new@example.com" "Passw0rd@1")] st0 in
  let st_c := run localeCompare
                [(now, DeleteCourse "course-1"); (now, AddCourse course)] st0 in
  let st_f := run localeCompare
                [(now, DeleteFeedback "feedback-1"); (now, AddFeedback feedback)] st0 in
  (NoDup (ids st0) ∧
   length (users st) = 22%nat ∧
   ids st !! 20%nat = Some "user-22" ∧
   ids st !! 21%nat = Some "user-22" ∧
   ¬ NoDup (ids st)) ∧
  (NoDup (Course.id <$> courses st0) ∧
   ¬ NoDup (Course.id <$> courses st_c)) ∧
  (NoDup (Feedback.id <$> feedbacks st0) ∧
   ¬ NoDup (Feedback.id <$> feedbacks st_f)).
Proof.
  intros st0 st st_c st_f. split; [|split].
  2: { assert (Hc0 : Course.id <$> courses st0
                     = (λ i, "course-" +:+ toString i) <$> seq 1 10)
         by (vm_compute; reflexivity).
       assert (Hc : Course.id <$> courses st_c
                    = (λ i, "course-" +:+ toString i) <$> (seq 2 9 ++ [10%nat]))
         by (vm_compute; reflexivity).
       rewrite Hc0, Hc.
       split; apply (bool_decide_unpack _); vm_compute; exact I. }
  2: { assert (Hf0 : Feedback.id <$> feedbacks st0
                     = (λ i, "feedback-" +:+ toString i) <$> seq 1 105)
         by (vm_compute; reflexivity).
       assert (Hf : Feedback.id <$> feedbacks st_f
                    = (λ i, "feedback-" +:+ toString i) <$> (105%nat :: seq 2 104))
         by (vm_compute; reflexivity).
       rewrite Hf0, Hf.
       split; apply (bool_decide_unpack _); vm_compute; exact I. }
  assert (Hids0 : ids st0 = (λ i, "user-" +:+ toString i) <$> seq 1 22)
    by (vm_compute; reflexivity).
  assert (Hids : ids st = (λ i, "user-" +:+ toString i) <$> (seq 2 21 ++ [22%nat]))
    by (vm_compute; reflexivity).
  assert (Hlen : length (users st) = 22%nat) by (vm_compute; reflexivity).
  rewrite Hids0, Hids.
  split; [apply (bool_decide_unpack _); vm_compute; exact I|].
  split; [exact Hlen|].
  split; [by vm_compute|]. split; [by vm_compute|].
  apply (bool_decide_unpack _). vm_compute. exact I.
Qed.

(** ** Average ratings *)

Lemma add_rating_lookup (m : gmap string (Z * Z)) (f : Feedback.t) (k : string) :
  add_rating m f !! k =
    if decide (Feedback.courseId f = k)
    then Some ((default (0, 0) (m !! k)).1 + Feedback.rating f,
               (default (0, 0) (m !! k)).2 + 1)
    else m !! k.
Proof.
  unfold add_rating. destruct (decide (Feedback.courseId f = k)) as [<-|Hk].
  - destruct (m !! Feedback.courseId f) as [[t c]|] eqn:Hm.
    + rewrite decide_True by eauto. rewrite Hm. by rewrite lookup_insert_eq.
    + rewrite decide_False by (by intros [? ?]).
      rewrite lookup_insert_eq. by rewrite lookup_insert_eq.
  - destruct (decide (is_Some (m !! Feedback.courseId f))) as [[[t c] Hm]|Hn].
    + rewrite Hm. by rewrite lookup_insert_ne.
    + rewrite lookup_insert_eq. by rewrite !lookup_insert_ne.
Qed.

(** What [ratingsMap] holds for a course after the [forEach]: nothing if no
    feedback names the course, else the sum and the number of the ratings
    of the feedback that does. *)
Lemma ratingsMap_lookup (fs : list Feedback.t) (m : gmap string (Z * Z)) (k : string) :
  let ms := filter (λ f, Feedback.courseId f = k) fs in
  foldl add_rating m fs !! k =
    if decide (ms = []) then m !! k
    else Some ((default (0, 0) (m !! k)).1 + sum_ratings ms,
               (default (0, 0) (m !! k)).2 + Z.of_nat (length ms)).
Proof.
  revert m. induction fs as [|f fs IH]; intros m; [done|].
  cbn [foldl]. cbv zeta in *. rewrite IH, add_rating_lookup, filter_cons.
  destruct (decide (Feedback.courseId f = k)) as [Hk|Hk].
  - rewrite (decide_False (P:=_ :: _ = [])) by done.
    case_decide as Hnil.
    + rewrite Hnil. simpl. do 2 f_equal; lia.
    + simpl. do 2 f_equal; lia.
  - done.
Qed.

Lemma course_rating_mean (fs : list Feedback.t) (course : Course.t) :
  course_rating (foldl add_rating ∅ fs) course
  = mkRating (Course.name course)
      (mean_rating (filter (λ f, Feedback.courseId f = Course.id course) fs)).
Proof.
  unfold course_rating, mean_rating. f_equal.
  pose proof (ratingsMap_lookup fs ∅ (Course.id course)) as Hm.
  cbv zeta in Hm. rewrite Hm, lookup_empty. clear Hm.
  set (ms := filter _ fs). case_decide as Hnil.
  - by rewrite Hnil.
  - simpl. rewrite !Z.add_0_l.
    assert (Z.of_nat (length ms) ≠ 0) by (destruct ms; simpl; [done|lia]).
    rewrite (decide_False (P:=Z.of_nat (length ms) = 0)) by done.
    do 3 f_equal. unfold or_number. by case_decide.
Qed.

(** [toFixed(2)] of a double with a fraction: the number of hundredths
    nearest to its exact value [m * 2^e]. *)
Lemma toFixed2_nearest (s : bool) (m : positive) (e : Z) :
  e < 0 →
  let n := Z.abs (toFixed2 (S754_finite s m e)) in
  - 2 ^ (- e) < 2 * (n * 2 ^ (- e) - 100 * Z.pos m) ≤ 2 ^ (- e).
Proof.
  intros He. simpl. rewrite decide_False by lia.
  set (p := 2 ^ (- e)). assert (0 < p) by (apply Z.pow_pos_nonneg; lia).
  replace (2 ^ (1 - e)) with (2 * p)
    by (unfold p; rewrite <- Z.pow_succ_r by lia; f_equal; lia).
  set (q := (200 * Z.pos m + p) / (2 * p)).
  assert (0 ≤ q) by (apply Z.div_pos; lia).
  replace (Z.abs (if s then - q else q)) with q by (destruct s; lia).
  pose proof (Z.div_mod (200 * Z.pos m + p) (2 * p) ltac:(lia)).
  pose proof (Z.mod_pos_bound (200 * Z.pos m + p) (2 * p) ltac:(lia)).
  fold q in H1. nia.
Qed.

(** ** Accuracy of the quotient of two doubles *)

(** The number of binary digits of a positive number. *)
Lemma digits2_pos_bounds (p : positive) :
  2 ^ (Z.pos (digits2_pos p) - 1) ≤ Z.pos p < 2 ^ Z.pos (digits2_pos p).
Proof.
  induction p as [p IH|p IH|]; simpl digits2_pos; [| |simpl; lia].
  all: rewrite Pos2Z.inj_succ.
  all: replace (Z.succ (Z.pos (digits2_pos p)) - 1) with (Z.pos (digits2_pos p)) by lia.
  all: rewrite Z.pow_succ_r by lia.
  all: assert (2 ^ Z.pos (digits2_pos p) = 2 * 2 ^ (Z.pos (digits2_pos p) - 1))
         as Hp by (rewrite <- Z.pow_succ_r by lia; f_equal; lia).
  all: lia.
Qed.

Lemma digits2_pos_unique (p : positive) (k : Z) :
  2 ^ (k - 1) ≤ Z.pos p < 2 ^ k → Z.pos (digits2_pos p) = k.
Proof.
  intros [Hlo Hhi]. pose proof (digits2_pos_bounds p) as [Hlo' Hhi'].
  assert (0 < k).
  { destruct (decide (0 < k)); [done|]. 
    assert (2 ^ k ≤ 1); [|lia].
    destruct (decide (k = 0)) as [->|]; [done|].
    rewrite Z.pow_neg_r by lia. lia. }
  destruct (Z.lt_trichotomy (Z.pos (digits2_pos p)) k) as [Hlt|[Heq|Hgt]]; [|done|].
  - assert (2 ^ Z.pos (digits2_pos p) ≤ 2 ^ (k - 1))
      by (apply Z.pow_le_mono_r; lia). lia.
  - assert (2 ^ k ≤ 2 ^ (Z.pos (digits2_pos p) - 1))
      by (apply Z.pow_le_mono_r; lia). lia.
Qed.

Lemma iter_xO (m n : positive) : Z.pos (Pos.iter xO m n) = Z.pos m * 2 ^ Z.pos n.
Proof.
  induction n as [|n IH] using Pos.peano_ind.
  - simpl. lia.
  - rewrite Pos.iter_succ, Pos2Z.inj_succ, Z.pow_succ_r by lia.
    rewrite Pos2Z.inj_xO, IH. lia.
Qed.

(** [shr_fexp] on a mantissa of 53 digits shifts nothing; on one of 54
    digits it shifts one digit out. *)
Lemma shr_fexp_53 (m : positive) (e : Z) (l : location) :
  Z.pos (digits2_pos m) = 53 → -1074 ≤ e →
  shr_fexp prec emax (Z.pos m) e l = (shr_record_of_loc (Z.pos m) l, e).
Proof.
  intros Hd He. unfold shr_fexp, fexp, emin, Zdigits2. rewrite Hd.
  unfold prec, emax.
  replace (Z.max (53 + e - 53) (3 - 1024 - 53) - e) with 0 by lia.
  reflexivity.
Qed.

Lemma shr_fexp_54 (m : positive) (e : Z) (l : location) :
  Z.pos (digits2_pos m) = 54 → -1075 ≤ e →
  shr_fexp prec emax (Z.pos m) e l = (shr_1 (shr_record_of_loc (Z.pos m) l), e + 1).
Proof.
  intros Hd He. unfold shr_fexp, fexp, emin, Zdigits2. rewrite Hd.
  unfold prec, emax.
  replace (Z.max (54 + e - 53) (3 - 1024 - 53) - e) with 1 by lia.
  reflexivity.
Qed.

Lemma loc_of_shr_record_of_loc (m : Z) (l : location) :
  loc_of_shr_record (shr_record_of_loc m l) = l.
Proof. by destruct l as [|[]]. Qed.

Lemma shr_m_of_loc (m : Z) (l : location) : shr_m (shr_record_of_loc m l) = m.
Proof. by destruct l as [|[]]. Qed.

(** The last step of a rounding: a mantissa of 53 digits is kept, and
    [2^53], which a rounding upwards may reach, becomes [2^52] with the
    exponent raised. *)
Lemma round_final (s : bool) (M : Z) (e : Z) :
  2 ^ 52 ≤ M ≤ 2 ^ 53 → -1074 ≤ e ≤ 970 →
  let '(mrs, e') := shr_fexp prec emax M e loc_Exact in
  ∃ (m : positive) (k : Z),
    shr_m mrs = Z.pos m ∧ 0 ≤ k ≤ 1 ∧ e' = e + k ∧ Z.pos m * 2 ^ k = M ∧
    Z.pos m < 2 ^ 53.
Proof.
  intros HM He. destruct M as [|M|M]; [lia| |lia].
  destruct (decide (Z.pos M = 2 ^ 53)) as [Heq|Hne].
  - assert (M = 9007199254740992%positive) as -> by lia.
    rewrite shr_fexp_54 by (done || lia).
    exists 4503599627370496%positive, 1. simpl. lia.
  - rewrite shr_fexp_53 by (try apply digits2_pos_unique; lia).
    exists M, 0. simpl. lia.
Qed.

(** What a location says about the fraction [r / d] it stands for. *)
Lemma new_location_spec (d r : Z) :
  0 ≤ r < d →
  match new_location d r with
  | loc_Exact => r = 0
  | loc_Inexact Lt => 0 < 2 * r < d
  | loc_Inexact Eq => 2 * r = d
  | loc_Inexact Gt => d < 2 * r
  end.
Proof.
  intros Hr. unfold new_location, new_location_even, new_location_odd.
  destruct (Z.even d) eqn:Hev.
  - destruct (Z.eqb_spec r 0); [done|].
    destruct (Z.compare_spec (2 * r) d); lia.
  - destruct (Z.eqb_spec r 0); [done|].
    assert (Z.odd d = true) as [k ->]%Z.odd_spec
      by (by rewrite <- Z.negb_even, Hev).
    destruct (Z.compare_spec (2 * r + 1) (2 * k + 1)); lia.
Qed.

(** Rounding to nearest moves to one of the two neighbours, the nearer
    one. *)
Lemma round_nearest_even_spec (mx r d : Z) (l : location) :
  0 ≤ r < d →
  match l with
  | loc_Exact => r = 0
  | loc_Inexact Lt => 0 < 2 * r < d
  | loc_Inexact Eq => 2 * r = d
  | loc_Inexact Gt => d < 2 * r
  end →
  mx ≤ round_nearest_even mx l ≤ mx + 1 ∧
  2 * Z.abs (round_nearest_even mx l * d - (mx * d + r)) ≤ d.
Proof.
  intros Hr Hl. destruct l as [|[]]; simpl; try destruct (Z.even mx); nia.
Qed.

(** The quotient [q + r / d], with [q] of 53 or 54 digits, is rounded to a
    double [m * 2^(e + k)] that is off by at most half a unit of its last
    digit. *)
Lemma binary_round_aux_quotient (s : bool) (q : positive) (e r d : Z) :
  2 ^ 52 ≤ Z.pos q < 2 ^ 54 → -1074 ≤ e ≤ 968 → 0 ≤ r < d →
  ∃ (m : positive) (k : Z),
    binary_round_aux prec emax s (Z.pos q) e (new_location d r)
      = S754_finite s m (e + k) ∧
    0 ≤ k ≤ 2 ∧ Z.pos m < 2 ^ 53 ∧
    2 * Z.abs (Z.pos m * 2 ^ k * d - (Z.pos q * d + r)) ≤ 2 ^ k * d.
Proof.
  intros Hq He Hr. pose proof (new_location_spec d r Hr) as Hl.
  unfold binary_round_aux.
  destruct (decide (Z.pos q < 2 ^ 53)) as [Hlt|Hge].
  - (* 53 digits: nothing is shifted out before the rounding *)
    rewrite shr_fexp_53 by (try apply digits2_pos_unique; lia).
    rewrite shr_m_of_loc, loc_of_shr_record_of_loc.
    destruct (round_nearest_even_spec (Z.pos q) r d _ Hr Hl) as [HR Herr].
    pose proof (round_final s (round_nearest_even (Z.pos q) (new_location d r)) e
                  ltac:(lia) ltac:(lia)) as Hfin.
    destruct (shr_fexp prec emax _ e loc_Exact) as [mrs e''].
    destruct Hfin as (m & k & -> & Hk & -> & Hm & Hm53).
    exists m, k. rewrite (proj2 (Z.leb_le _ _)) by (unfold emax, prec; lia).
    split; [done|]. split; [lia|]. split; [done|].
    rewrite Hm. assert (2 ^ k = 1 ∨ 2 ^ k = 2) as [->| ->]; [|lia|lia].
    assert (k = 0 ∨ k = 1) as [->| ->] by lia; auto.
  - (* 54 digits: the last digit is shifted out and joins the location *)
    rewrite shr_fexp_54 by (try apply digits2_pos_unique; lia).
    set (mrs := shr_1 (shr_record_of_loc (Z.pos q) (new_location d r))).
    assert (Hmrs : ∃ (p : positive) (r' : Z),
              shr_m mrs = Z.pos p ∧ 2 ^ 52 ≤ Z.pos p < 2 ^ 53 ∧ 0 ≤ r' < 2 * d ∧
              Z.pos p * (2 * d) + r' = Z.pos q * d + r ∧
              match loc_of_shr_record mrs with
              | loc_Exact => r' = 0
              | loc_Inexact Lt => 0 < 2 * r' < 2 * d
              | loc_Inexact Eq => 2 * r' = 2 * d
              | loc_Inexact Gt => 2 * d < 2 * r'
              end).
    { subst mrs. destruct q as [p|p|]; [| |lia].
      - exists p, (d + r).
        destruct (new_location d r) as [|[]]; simpl; lia.
      - exists p, r.
        destruct (new_location d r) as [|[]]; simpl; lia. }
    destruct Hmrs as (p & r' & Hp & Hp53 & Hr' & Hval & Hl').
    rewrite Hp.
    destruct (round_nearest_even_spec (Z.pos p) r' (2 * d) _ Hr' Hl') as [HR Herr].
    pose proof (round_final s (round_nearest_even (Z.pos p) (loc_of_shr_record mrs))
                  (e + 1) ltac:(lia) ltac:(lia)) as Hfin.
    destruct (shr_fexp prec emax _ (e + 1) loc_Exact) as [mrs'' e''].
    destruct Hfin as (m & k & -> & Hk & -> & Hm & Hm53).
    exists m, (1 + k). rewrite (proj2 (Z.leb_le _ _)) by (unfold emax, prec; lia).
    split; [f_equal; lia|]. split; [lia|]. split; [done|].
    rewrite Z.pow_add_r by lia. change (2 ^ 1) with 2.
    assert (2 ^ k = 1 ∨ 2 ^ k = 2) as [Hk2|Hk2].
    { assert (k = 0 ∨ k = 1) as [->| ->] by lia; auto. }
    all: rewrite Hk2 in *; nia.
Qed.

Lemma binary_round_aux_exact (s : bool) (m : positive) (e : Z) :
  Z.pos (digits2_pos m) = 53 → -1074 ≤ e ≤ 971 →
  binary_round_aux prec emax s (Z.pos m) e loc_Exact = S754_finite s m e.
Proof.
  intros Hd He. unfold binary_round_aux.
  rewrite shr_fexp_53 by (done || lia). simpl.
  rewrite shr_fexp_53 by (done || lia). simpl.
  by rewrite (proj2 (Z.leb_le _ _)) by (unfold emax, prec; lia).
Qed.

(** An integer below [2^53] is a double: its digits, shifted up to 53. *)
Lemma double_of_Z_pos (t : positive) :
  Z.pos t < 2 ^ 53 →
  ∃ (m : positive) (a : Z),
    double_of_Z (Z.pos t) = S754_finite false m (- a) ∧
    a = 53 - Z.pos (digits2_pos t) ∧ 0 ≤ a ∧
    Z.pos m = Z.pos t * 2 ^ a ∧ Z.pos (digits2_pos m) = 53.
Proof.
  intros Ht. pose proof (digits2_pos_bounds t) as [Hlo Hhi].
  assert (Hd : Z.pos (digits2_pos t) ≤ 53).
  { destruct (decide (Z.pos (digits2_pos t) ≤ 53)); [done|].
    assert (2 ^ 53 ≤ 2 ^ (Z.pos (digits2_pos t) - 1))
      by (apply Z.pow_le_mono_r; lia). lia. }
  unfold double_of_Z, binary_normalize, binary_round, shl_align, fexp, emin.
  unfold prec at 1 2 3, emax at 1 2.
  replace (Z.max (Z.pos (digits2_pos t) + 0 - 53) (3 - 1024 - 53) - 0)
    with (Z.pos (digits2_pos t) - 53) by lia.
  destruct (Z.pos (digits2_pos t) - 53) as [|n|n] eqn:Hn; [|lia|].
  - exists t, 0. rewrite binary_round_aux_exact by lia.
    split; [done|]. split; [lia|]. split; [done|].
    split; [change (2 ^ 0) with 1; lia|]. clear -Hn. lia.
  - remember (53 - Z.pos (digits2_pos t)) as a eqn:Hadef.
    assert (Ha : Z.pos n = a) by lia.
    assert (Hm : Z.pos (Pos.iter xO t n) = Z.pos t * 2 ^ a)
      by (by rewrite iter_xO, Ha).
    assert (Hdm : Z.pos (digits2_pos (Pos.iter xO t n)) = 53).
    { apply digits2_pos_unique. rewrite Hm.
      replace (2 ^ (53 - 1)) with (2 ^ (Z.pos (digits2_pos t) - 1) * 2 ^ a)
        by (rewrite <- Z.pow_add_r by lia; f_equal; lia).
      replace (2 ^ 53) with (2 ^ Z.pos (digits2_pos t) * 2 ^ a)
        by (rewrite <- Z.pow_add_r by lia; f_equal; lia).
      assert (0 < 2 ^ a) by (apply Z.pow_pos_nonneg; lia). nia. }
    exists (Pos.iter xO t n), a. clear Hlo Hhi Ht.
    replace (Z.max (Z.pos (digits2_pos t) + 0 - 53) (3 - 1024 - prec))
      with (- a) by (unfold prec; lia).
    rewrite binary_round_aux_exact by (done || lia).
    split; [done|]. split; [lia|]. split; [lia|]. split; done.
Qed.

(** The quotient of two such doubles, before the rounding. *)
Lemma double_div_finite (m1 m2 : positive) (e1 e2 : Z) :
  Z.pos (digits2_pos m1) = 53 → Z.pos (digits2_pos m2) = 53 →
  -52 ≤ e1 ≤ 0 → -52 ≤ e2 ≤ 0 →
  double_div (S754_finite false m1 e1) (S754_finite false m2 e2)
  = binary_round_aux prec emax false
      (Z.pos m1 * 2 ^ 53 / Z.pos m2) (e1 - e2 - 53)
      (new_location (Z.pos m2) ((Z.pos m1 * 2 ^ 53) `mod` Z.pos m2)).
Proof.
  intros Hd1 Hd2 He1 He2.
  unfold double_div, SFdiv, SFdiv_core_binary, Zdigits2, fexp, emin.
  rewrite Hd1, Hd2.
  set (e' := Z.min (Z.max _ _) (e1 - e2)).
  assert (e' = e1 - e2 - 53) as -> by (subst e'; unfold prec, emax; lia).
  replace (e1 - e2 - (e1 - e2 - 53)) with 53 by lia.
  rewrite Z.shiftl_mul_pow2 by lia.
  unfold Z.div, Z.modulo.
  by destruct (Z.div_eucl (Z.pos m1 * 2 ^ 53) (Z.pos m2)).
Qed.

Lemma digits2_pos_53_bounds (m : positive) :
  Z.pos (digits2_pos m) = 53 → 2 ^ 52 ≤ Z.pos m < 2 ^ 53.
Proof. intros Hd. pose proof (digits2_pos_bounds m) as H. by rewrite Hd in H. Qed.

(** The double quotient of two positive integers, the dividend below [2^44]:
    it is a double [M * 2^E] with [E < 0], within half a unit of its last
    digit of the exact quotient, and that unit is finer than a hundredth of
    [1 / c]. *)
Lemma double_div_accurate (t c : positive) :
  Z.pos t < 2 ^ 44 → Z.pos c < 2 ^ 53 →
  ∃ (M : positive) (E : Z),
    double_div (double_of_Z (Z.pos t)) (double_of_Z (Z.pos c)) = S754_finite false M E ∧
    E < 0 ∧
    2 * Z.abs (Z.pos M * Z.pos c - Z.pos t * 2 ^ (- E)) ≤ Z.pos c ∧
    100 * Z.pos c < 2 ^ (- E).
Proof.
  intros Ht Hc.
  destruct (double_of_Z_pos t ltac:(lia)) as (m1 & a & -> & Ha & Ha0 & Hm1 & Hd1).
  destruct (double_of_Z_pos c Hc) as (m2 & b & -> & Hb & Hb0 & Hm2 & Hd2).
  assert (Ha9 : 9 ≤ a ≤ 52).
  { pose proof (digits2_pos_bounds t) as [Hlo _].
    assert (Z.pos (digits2_pos t) ≤ 44); [|lia].
    destruct (decide (Z.pos (digits2_pos t) ≤ 44)); [done|].
    assert (2 ^ 44 ≤ 2 ^ (Z.pos (digits2_pos t) - 1))
      by (apply Z.pow_le_mono_r; lia). lia. }
  assert (Hb52 : b ≤ 52) by lia.
  apply digits2_pos_53_bounds in Hd1 as Hb1, Hd2 as Hb2.
  rewrite double_div_finite by (done || lia).
  pose proof (Z.div_mod (Z.pos m1 * 2 ^ 53) (Z.pos m2) ltac:(lia)) as Hdiv.
  pose proof (Z.mod_pos_bound (Z.pos m1 * 2 ^ 53) (Z.pos m2) ltac:(lia)) as Hr.
  set (q := Z.pos m1 * 2 ^ 53 / Z.pos m2) in *.
  set (r := (Z.pos m1 * 2 ^ 53) `mod` Z.pos m2) in *.
  assert (Hq : 2 ^ 52 ≤ q < 2 ^ 54).
  { split.
    - apply Z.div_le_lower_bound; lia.
    - apply Z.div_lt_upper_bound; lia. }
  destruct q as [|q|q]; [lia| |lia].
  destruct (binary_round_aux_quotient false q (- a - - b - 53) r (Z.pos m2)
              Hq ltac:(lia) Hr) as (M & k & -> & Hk & HM & Herr).
  exists M, (- a - - b - 53 + k). split; [done|]. split; [lia|].
  replace (- (- a - - b - 53 + k)) with (a - b + 53 - k) by lia.
  set (P := 2 ^ (a - b + 53 - k)).
  set (S := 2 ^ b * 2 ^ k).
  assert (HS : 0 < S) by (apply Z.mul_pos_pos; apply Z.pow_pos_nonneg; lia).
  assert (HPS : P * S = 2 ^ a * 2 ^ 53).
  { unfold P, S. rewrite <- !Z.pow_add_r by lia. f_equal. lia. }
  assert (HP : 2 ^ (60 - b) ≤ P) by (apply Z.pow_le_mono_r; lia).
  assert (Hc' : Z.pos c * 2 ^ b < 2 ^ (53 - b) * 2 ^ b).
  { rewrite <- Z.pow_add_r by lia. replace (53 - b + b) with 53 by lia. lia. }
  assert (Hcb : Z.pos c < 2 ^ (53 - b))
    by (eapply Z.mul_lt_mono_pos_r; [|exact Hc']; apply Z.pow_pos_nonneg; lia).
  assert (H128 : 2 ^ (60 - b) = 128 * 2 ^ (53 - b)).
  { replace (60 - b) with (7 + (53 - b)) by lia. by rewrite Z.pow_add_r by lia. }
  split; [|lia].
  apply (Z.mul_le_mono_pos_r _ _ S HS).
  rewrite <- Z.mul_assoc, <- (Z.abs_eq S) at 1 by lia.
  rewrite <- Z.abs_mul.
  replace ((Z.pos M * Z.pos c - Z.pos t * P) * S)
    with (Z.pos M * 2 ^ k * Z.pos m2 - (Z.pos q * Z.pos m2 + r)).
  - replace (Z.pos c * S) with (2 ^ k * Z.pos m2); [done|].
    unfold S. rewrite Hm2. lia.
  - assert (Z.pos q * Z.pos m2 + r = Z.pos m1 * 2 ^ 53) as -> by lia.
    transitivity (Z.pos M * Z.pos c * S - Z.pos t * (P * S)); [|ring].
    rewrite HPS, Hm1, Hm2. unfold S. ring.
Qed.

(** [toFixed(2)] of the double quotient is a hundredth nearest to the exact
    quotient [t / c]. *)
Lemma toFixed2_quotient (t c : positive) :
  Z.pos t < 2 ^ 44 → Z.pos c < 2 ^ 53 →
  let n := toFixed2 (double_div (double_of_Z (Z.pos t)) (double_of_Z (Z.pos c))) in
  2 * Z.abs (100 * Z.pos t - n * Z.pos c) ≤ Z.pos c.
Proof.
  intros Ht Hc.
  destruct (double_div_accurate t c Ht Hc) as (M & E & -> & HE & Herr & Hfine).
  simpl. rewrite decide_False by lia.
  set (P := 2 ^ (- E)) in *. assert (0 < P) by (apply Z.pow_pos_nonneg; lia).
  replace (2 ^ (1 - E)) with (2 * P)
    by (unfold P; rewrite <- Z.pow_succ_r by lia; f_equal; lia).
  pose proof (Z.div_mod (200 * Z.pos M + P) (2 * P) ltac:(lia)) as Hdiv.
  pose proof (Z.mod_pos_bound (200 * Z.pos M + P) (2 * P) ltac:(lia)) as Hmod.
  set (n := (200 * Z.pos M + P) / (2 * P)) in *.
  set (r := (200 * Z.pos M + P) `mod` (2 * P)) in *.
  assert (Hlo : - Z.pos c ≤ 2 * (Z.pos M * Z.pos c - Z.pos t * P) ≤ Z.pos c) by lia.
  clear Herr.
  destruct (decide (2 * (100 * Z.pos t - n * Z.pos c) ≤ Z.pos c)) as [Hup|Hup];
    [destruct (decide (- Z.pos c ≤ 2 * (100 * Z.pos t - n * Z.pos c))) as [Hdn|Hdn];
       [lia|]|]; exfalso.
  - (* too low: 200 t - 2 n c <= - c - 1 *)
    assert (200 * Z.pos t * P - 2 * n * Z.pos c * P ≤ - (Z.pos c + 1) * P) by nia.
    assert (200 * Z.pos M * Z.pos c - 100 * Z.pos c ≤ 200 * Z.pos t * P) by nia.
    assert (0 ≤ Z.pos c * (200 * Z.pos M + P - 2 * n * P)) by nia.
    nia.
  - (* too high: 200 t - 2 n c >= c + 1 *)
    assert ((Z.pos c + 1) * P ≤ 200 * Z.pos t * P - 2 * n * Z.pos c * P) by nia.
    assert (200 * Z.pos t * P ≤ 200 * Z.pos M * Z.pos c + 100 * Z.pos c) by nia.
    assert (Z.pos c * (200 * Z.pos M + P - 2 * n * P - 2 * P) ≤ - Z.pos c) by nia.
    nia.
Qed.

(** The average of up to [2^53] ratings whose sum is below [2^44]: a
    hundredth nearest to the exact mean. *)
Lemma mean_rating_nearest (fs : list Feedback.t) :
  fs ≠ [] → 0 ≤ sum_ratings fs < 2 ^ 44 → Z.of_nat (length fs) < 2 ^ 53 →
  2 * Z.abs (100 * sum_ratings fs - mean_rating fs * Z.of_nat (length fs))
    ≤ Z.of_nat (length fs).
Proof.
  intros Hne Hsum Hlen. unfold mean_rating.
  assert (Hpos : 0 < Z.of_nat (length fs)) by (destruct fs; simpl; [done|lia]).
  rewrite decide_False by lia.
  destruct (Z.of_nat (length fs)) as [|c|c] eqn:Hc; [lia| |lia].
  destruct (sum_ratings fs) as [|t|t] eqn:Ht; [|apply toFixed2_quotient; lia|lia].
  destruct (double_of_Z_pos c Hlen) as (m & a & -> & _).
  simpl. lia.
Qed.

Lemma sum_ratings_bounds (fs : list Feedback.t) :
  Forall (λ f, 1 ≤ Feedback.rating f ≤ 5) fs →
  Z.of_nat (length fs) ≤ sum_ratings fs ≤ 5 * Z.of_nat (length fs).
Proof. induction 1 as [|f fs Hf _ IH]; simpl; lia. Qed.

(** C2.  [getCourseRatings] resolves with one entry per course, carrying the
    course's name and the mean of the ratings of the feedback with that
    [courseId]: their sum divided, as doubles, by their number, or by 1
    where there is none, which gives 0, and rounded by [toFixed(2)].  The
    entries are sorted by average, highest first.  For ratings from 1 to 5,
    of fewer than [2^41] feedback, the average is a hundredth nearest to the
    exact mean; for any double, [toFixed(2)] gives the hundredth nearest to
    it.  For courses [A, B] and feedback [{A,4}, {A,2}, {B,5}] the result
    is [{B, 5.00}, {A, 3.00}]. *)
Theorem getCourseRatings_spec (st : Store) :
  (∃ rs, getCourseRatings st = (Resolve rs, st) ∧
     rs ≡ₚ (λ c, mkRating (Course.name c)
                   (mean_rating
                      (filter (λ f, Feedback.courseId f = Course.id c) (feedbacks st))))
             <$> courses st ∧
     length rs = length (courses st) ∧
     StronglySorted (λ a b, avgRating b ≤ avgRating a) rs) ∧
  mean_rating [] = 0 ∧
  (∀ fs : list Feedback.t,
     fs ≠ [] → Forall (λ f, 1 ≤ Feedback.rating f ≤ 5) fs →
     Z.of_nat (length fs) < 2 ^ 41 →
     2 * Z.abs (100 * sum_ratings fs - mean_rating fs * Z.of_nat (length fs))
       ≤ Z.of_nat (length fs)) ∧
  (∀ (s : bool) (m : positive) (e : Z),
     let n := Z.abs (toFixed2 (S754_finite s m e)) in
     if decide (e < 0)
     then - 2 ^ (- e) < 2 * (n * 2 ^ (- e) - 100 * Z.pos m) ≤ 2 ^ (- e)
     else n = 100 * (Z.pos m * 2 ^ e)) ∧
  (∀ h us dA lA tA cA dB lB tB cB i1 s1 n1 m1 c1 i2 s2 n2 m2 c2 i3 s3 n3 m3 c3,
     fst (getCourseRatings
            (mkStore h us
               [Course.mk "A" "A" dA lA tA cA; Course.mk "B" "B" dB lB tB cB]
               [Feedback.mk i1 s1 n1 "A" 4 m1 c1; Feedback.mk i2 s2 n2 "A" 2 m2 c2;
                Feedback.mk i3 s3 n3 "B" 5 m3 c3]))
     = Resolve [mkRating "B" 500; mkRating "A" 300]).
Proof.
  split; [|split; [|split; [|split]]].
  - eexists. split; [reflexivity|].
    assert (Hmap : course_rating (foldl add_rating ∅ (feedbacks st)) <$> courses st
                   = (λ c, mkRating (Course.name c)
                             (mean_rating
                                (filter (λ f, Feedback.courseId f = Course.id c)
                                   (feedbacks st)))) <$> courses st).
    { apply list_fmap_ext. intros _ c _. apply course_rating_mean. }
    split; [|split].
    + rewrite <- Hmap. apply sort_perm.
    + by rewrite sort_length, length_fmap.
    + apply (sort_sorted avgRating).
  - by vm_compute.
  - intros fs Hne Hr Hlen. pose proof (sum_ratings_bounds fs Hr).
    apply mean_rating_nearest; [done|lia|lia].
  - intros s m e n. case_decide as He.
    + by apply toFixed2_nearest.
    + subst n. simpl. rewrite decide_True by lia.
      assert (0 ≤ 2 ^ e) by (apply Z.pow_nonneg; lia).
      destruct s; nia.
  - intros. by vm_compute.
Qed.

(** The specification's feedback for course [A]: ratings 4 and 2, whose mean
    is 3.00 exactly. *)
Lemma getCourseRatings_spec_witness :
  let fs := [Feedback.mk "feedback-1" "user-2" "Student User" "A" 4 "" 0;
             Feedback.mk "feedback-2" "user-3" "Test Student 1" "A" 2 "" 0] in
  mean_rating fs = 300 ∧
  2 * Z.abs (100 * sum_ratings fs - mean_rating fs * Z.of_nat (length fs))
    ≤ Z.of_nat (length fs).
Proof.
  split; [by vm_compute|].
  refine (proj1 (proj2 (proj2 (getCourseRatings_spec empty_store))) _ _ _ _).
  - done.
  - repeat constructor; simpl; lia.
  - simpl. lia.
Defined.

(** * Further properties of the store *)

(** ** Sorting by a key *)

Section SortByKey.
Context {A : Type} (key : A → Z).
Implicit Types (x : A) (l s : list A).

(** An element that no element of a list beats goes to its front. *)
Lemma sort_insert_front x s :
  Forall (λ z, key z ≤ key x) s → sort_insert (λ a b, key b - key a) x s = x :: s.
Proof.
  destruct 1 as [|y s Hy _]; [done|]. simpl. rewrite decide_True by lia. done.
Qed.

Lemma sort_sorted_id l :
  StronglySorted (λ a b, key b ≤ key a) l → sort (λ a b, key b - key a) l = l.
Proof.
  induction 1 as [|x l _ IH Hx]; [done|].
  unfold sort in *. simpl. rewrite IH. by apply sort_insert_front.
Qed.

Lemma filter_sort_insert (P : A → Prop) `{∀ x, Decision (P x)} x s :
  StronglySorted (λ a b, key b ≤ key a) s →
  filter P (sort_insert (λ a b, key b - key a) x s)
  = if decide (P x) then sort_insert (λ a b, key b - key a) x (filter P s) else filter P s.
Proof.
  induction 1 as [|y s Hs IH Hy]; simpl.
  - rewrite filter_cons. destruct (decide (P x)); by rewrite ?filter_nil.
  - destruct (decide (key y - key x ≤ 0)) as [Hle|Hgt].
    + rewrite (filter_cons _ x). destruct (decide (P x)) as [HPx|HPx]; [|done].
      symmetry. apply sort_insert_front.
      rewrite filter_cons. apply Forall_forall. intros z Hz.
      assert (z ∈ y :: s) as [->|Hzs]%elem_of_cons; [|lia|].
      { apply elem_of_cons. destruct (decide (P y)).
        - apply elem_of_cons in Hz as [->|Hz]; [by left|].
          right. by apply list_elem_of_filter in Hz as [_ ?].
        - right. by apply list_elem_of_filter in Hz as [_ ?]. }
      eapply Forall_forall in Hy; [|done]. lia.
    + rewrite !(filter_cons _ y). destruct (decide (P y)) as [HPy|HPy].
      * rewrite IH. destruct (decide (P x)); [|done].
        simpl. by rewrite decide_False.
      * exact IH.
Qed.

(** Filtering commutes with the sort. *)
Lemma sort_filter (P : A → Prop) `{∀ x, Decision (P x)} l :
  filter P (sort (λ a b, key b - key a) l) = sort (λ a b, key b - key a) (filter P l).
Proof.
  induction l as [|x l IH]; [done|].
  change (sort (λ a b, key b - key a) (x :: l)) with (sort_insert (λ a b, key b - key a) x (sort (λ a b, key b - key a) l)).
  rewrite filter_sort_insert by apply sort_sorted.
  rewrite filter_cons, IH. by destruct (decide (P x)).
Qed.

(** The sort is stable: the elements of one key stay in their order. *)
Lemma sort_stable (k : Z) l :
  filter (λ x, key x = k) (sort (λ a b, key b - key a) l) = filter (λ x, key x = k) l.
Proof.
  rewrite sort_filter. apply sort_sorted_id.
  induction l as [|x l IH]; [constructor|].
  rewrite filter_cons. case_decide as Hk; [|done].
  constructor; [done|]. apply Forall_forall.
  intros z [Hz _]%list_elem_of_filter. lia.
Qed.

End SortByKey.

Lemma sort_insert_fmap {A B} (g : A → B) (cmp : B → B → Z) (x : A) (s : list A) :
  sort_insert cmp (g x) (g <$> s) = g <$> sort_insert (λ a b, cmp (g a) (g b)) x s.
Proof.
  induction s as [|y s IH]; [done|].
  rewrite fmap_cons. cbn [sort_insert]. case_decide; [done|].
  rewrite fmap_cons. f_equal. exact IH.
Qed.

(** The sort commutes with a map, the comparator looking through the map. *)
Lemma sort_fmap {A B} (g : A → B) (cmp : B → B → Z) (l : list A) :
  sort cmp (g <$> l) = g <$> sort (λ a b, cmp (g a) (g b)) l.
Proof.
  induction l as [|x l IH]; [done|].
  change (sort_insert cmp (g x) (sort cmp (g <$> l))
          = g <$> sort_insert (λ a b, cmp (g a) (g b)) x
                    (sort (λ a b, cmp (g a) (g b)) l)).
  rewrite IH. apply sort_insert_fmap.
Qed.

(** Two comparators that agree on the elements of a list sort it alike. *)
Lemma sort_ext {A} (cmp1 cmp2 : A → A → Z) (l : list A) :
  (∀ a b, a ∈ l → b ∈ l → cmp1 a b = cmp2 a b) → sort cmp1 l = sort cmp2 l.
Proof.
  induction l as [|x l IH]; [done|]. intros Heq.
  change (sort_insert cmp1 x (sort cmp1 l) = sort_insert cmp2 x (sort cmp2 l)).
  rewrite IH by (intros; apply Heq; by constructor).
  assert (Hs : ∀ z, z ∈ sort cmp2 l → z ∈ l) by (intros z; by rewrite sort_perm).
  revert Hs. generalize (sort cmp2 l). intros s Hs.
  induction s as [|y s IHs]; [done|]. simpl.
  rewrite (Heq x y); [|by left|right; apply Hs; by left].
  case_decide; [done|]. f_equal. apply IHs. intros z Hz. apply Hs. by right.
Qed.

(** A comparator that is total and transitive leaves the array sorted. *)
Lemma sort_sorted_total {A} (cmp : A → A → Z) (l : list A) :
  (∀ a b, cmp a b ≤ 0 ∨ cmp b a ≤ 0) →
  (∀ a b c, cmp a b ≤ 0 → cmp b c ≤ 0 → cmp a c ≤ 0) →
  StronglySorted (λ a b, cmp a b ≤ 0) (sort cmp l).
Proof.
  intros Htot Htrans. induction l as [|x l IH]; [constructor|].
  change (sort cmp (x :: l)) with (sort_insert cmp x (sort cmp l)).
  revert IH. generalize (sort cmp l). clear l. intros s.
  induction 1 as [|y s Hs IH Hy]; simpl; [repeat constructor|].
  case_decide as Hxy.
  - constructor; [by constructor|]. constructor; [done|].
    eapply Forall_impl; [exact Hy|]. simpl. eauto.
  - constructor; [done|]. rewrite sort_insert_perm.
    constructor; [|done]. destruct (Htot x y); [done|done].
Qed.

(** ** Pages *)

Lemma paginate_data {A} (items : list A) (page limit : Z) :
  1 ≤ page → 1 ≤ limit →
  data (paginate items (Int page) (Int limit))
  = take (Z.to_nat limit) (drop (Z.to_nat ((page - 1) * limit)) items).
Proof.
  intros Hp Hl. unfold paginate. simpl.
  replace (page * limit) with ((page - 1) * limit + limit) by lia.
  apply slice_window; nia.
Qed.

Lemma paginate_totalPages {A} (items : list A) (page : number) (limit : Z) :
  1 ≤ limit →
  totalPages (paginate items page (Int limit))
  = Int (- ((- Z.of_nat (length items)) / limit)).
Proof. intros Hl. unfold paginate. simpl. by rewrite decide_False by lia. Qed.

Lemma concat_pages {A} (items : list A) (L k : nat) :
  concat ((λ p, take L (drop ((p - 1) * L) items)) <$> seq 1 k) = take (k * L) items.
Proof.
  induction k as [|k IH]; [done|].
  rewrite seq_S, fmap_app, concat_app, IH. simpl.
  rewrite app_nil_r, Nat.sub_0_r.
  replace (L + k * L)%nat with (k * L + L)%nat by lia.
  rewrite <- (take_drop (k * L) (take (k * L + L) items)).
  rewrite take_take, Nat.min_l by lia. f_equal.
  by rewrite <- take_drop_commute.
Qed.

(** X1.  The pages of [paginate] cut the sequence up: for a page size of at
    least 1, the pages 1 to [totalPages], one after the other, are the
    sequence; every element is on exactly one page, in order. *)
Theorem pages_partition {A} (items : list A) (limit : Z) :
  1 ≤ limit →
  ∃ n : nat,
    (∀ page, totalPages (paginate items page (Int limit)) = Int (Z.of_nat n)) ∧
    concat ((λ p, data (paginate items (Int (Z.of_nat p)) (Int limit))) <$> seq 1 n)
    = items.
Proof.
  intros Hl.
  pose proof (ceil_div_bounds (Z.of_nat (length items)) limit ltac:(lia)) as Hn.
  set (n := - ((- Z.of_nat (length items)) / limit)) in *.
  assert (0 ≤ n) by nia.
  exists (Z.to_nat n). split.
  - intros page. rewrite paginate_totalPages by done. f_equal. fold n. lia.
  - rewrite (list_fmap_ext _
      (λ p, take (Z.to_nat limit) (drop ((p - 1) * Z.to_nat limit) items))).
    + rewrite concat_pages. apply take_ge. nia.
    + intros i p Hp. apply lookup_seq in Hp as [-> _].
      rewrite paginate_data by lia. do 2 f_equal. nia.
Qed.

Lemma pages_partition_witness :
  1 ≤ 5 ∧
  concat ((λ p, data (paginate (seq 1 22) (Int (Z.of_nat p)) (Int 5))) <$> seq 1 5)
  = seq 1 22.
Proof.
  split; [lia|].
  destruct (pages_partition (seq 1 22) 5 ltac:(lia)) as (n & Hn & Hc).
  assert (n = 5%nat) as ->; [|exact Hc].
  specialize (Hn (Int 1)).
  assert (Ht : totalPages (paginate (seq 1 22) (Int 1) (Int 5)) = Int 5)
    by (vm_compute; reflexivity).
  rewrite Ht in Hn. injection Hn as Hn. lia.
Defined.

(** ** Listings of feedback *)

Lemma newest_first_sorted (l : list Feedback.t) :
  StronglySorted (λ a b, Feedback.createdAt b ≤ Feedback.createdAt a)
    (sort newest_first l).
Proof. apply (sort_sorted Feedback.createdAt). Qed.

Lemma newest_first_filter (P : Feedback.t → Prop) `{∀ f, Decision (P f)}
    (l : list Feedback.t) :
  filter P (sort newest_first l) = sort newest_first (filter P l).
Proof. apply (sort_filter Feedback.createdAt). Qed.

(** X2.  The sequence that [getStudentFeedback] cuts its pages from is the
    student's feedback, all of it and nothing else, newest first; feedback
    of the same date keeps the order it has in the store. *)
Theorem getStudentFeedback_order (st : Store) (studentId : string) :
  ∃ fs : list Feedback.t,
    (∀ page limit,
       getStudentFeedback st studentId page limit
       = (Resolve (paginate fs (default (Int 1) page) (default (Int 5) limit)), st)) ∧
    fs ≡ₚ filter (λ f, Feedback.studentId f = studentId) (feedbacks st) ∧
    StronglySorted (λ a b, Feedback.createdAt b ≤ Feedback.createdAt a) fs ∧
    ∀ t, filter (λ f, Feedback.createdAt f = t) fs
         = filter (λ f, Feedback.createdAt f = t)
             (filter (λ f, Feedback.studentId f = studentId) (feedbacks st)).
Proof.
  eexists. split; [intros; reflexivity|].
  split; [apply sort_perm|]. split; [apply newest_first_sorted|].
  intros t. apply (sort_stable Feedback.createdAt).
Qed.

(** X3.  Filtering and sorting commute in the listings.  Read without
    paging, as the export does, [getAllFeedback] with a course filter, a
    rating filter or both returns the unfiltered listing with the filter
    applied to it, in the same order, and [getStudentFeedback] returns the
    unfiltered listing restricted to the student. *)
Theorem listings_are_filtered (st : Store) (courseId studentId : string) (rating : Z) :
  courseId ≠ "" → rating ≠ 0 →
  let all := data_of (getAllFeedback st (Some (Int 1)) (Some PosInf) None) in
  data_of (getAllFeedback st (Some (Int 1)) (Some PosInf)
             (Some (Filters.mk (Some courseId) None)))
    = filter (λ f, Feedback.courseId f = courseId) all ∧
  data_of (getAllFeedback st (Some (Int 1)) (Some PosInf)
             (Some (Filters.mk None (Some (Int rating)))))
    = filter (λ f, Feedback.rating f = rating) all ∧
  data_of (getAllFeedback st (Some (Int 1)) (Some PosInf)
             (Some (Filters.mk (Some courseId) (Some (Int rating)))))
    = filter (λ f, Feedback.rating f = rating ∧ Feedback.courseId f = courseId) all ∧
  data_of (getStudentFeedback st studentId (Some (Int 1)) (Some PosInf))
    = filter (λ f, Feedback.studentId f = studentId) all.
Proof.
  intros Hc Hr all.
  assert (Hall : all = sort newest_first (feedbacks st)).
  { subst all. unfold data_of, getAllFeedback, paginate. simpl. apply slice_all. }
  assert (Hrating : ∀ l : list Feedback.t,
            filter (λ f, Int (Feedback.rating f) = Int rating) l
            = filter (λ f, Feedback.rating f = rating) l).
  { intros l. apply list_filter_iff. intros f. split; [by intros [= ->]|by intros ->]. }
  rewrite Hall.
  unfold data_of, getAllFeedback, getStudentFeedback, paginate. simpl.
  rewrite !decide_False by done. rewrite (bool_decide_eq_true_2 _ Hr). 
  rewrite !slice_all, !newest_first_filter, !Hrating.
  repeat split; try done.
  by rewrite list_filter_filter.
Qed.

Lemma listings_are_filtered_witness :
  let st := createInitialData 0 (λ i j, (i + j, i * j)%nat) in
  let all := data_of (getAllFeedback st (Some (Int 1)) (Some PosInf) None) in
  "course-3" ≠ "" ∧ 4 ≠ 0 ∧
  data_of (getAllFeedback st (Some (Int 1)) (Some PosInf)
             (Some (Filters.mk (Some "course-3") (Some (Int 4)))))
    = filter (λ f, Feedback.rating f = 4 ∧ Feedback.courseId f = "course-3") all.
Proof.
  split; [done|]. split; [done|].
  exact (proj1 (proj2 (proj2
    (listings_are_filtered (createInitialData 0 (λ i j, (i + j, i * j)%nat))
       "course-3" "user-2" 4 ltac:(done) ltac:(done))))).
Defined.

(** ** Users: status, passwords and logging in *)

(** A write that keeps a callback's verdict on the object written keeps
    what [find] returns for the other objects. *)
Lemma find_user_write_other st (P : User.t → Prop) `{∀ u, Decision (P u)}
    r u u' r0 u0 :
  obj st r = Some u → (P u' ↔ P u) → r0 ≠ r →
  find_user st P = Some (r0, u0) →
  find_user (write r u' st) P = Some (r0, u0).
Proof.
  intros Ho HP Hne (i & Hi & Ho0 & HP0 & Hmin)%find_user_Some.
  apply find_user_Some. exists i. split; [done|].
  split; [by rewrite obj_write_ne|]. split; [done|].
  intros j r' Hj Hlt. rewrite holds_write by done. by eapply Hmin.
Qed.

Lemma find_user_write_None st (P : User.t → Prop) `{∀ u, Decision (P u)} r u u' :
  obj st r = Some u → (P u' ↔ P u) →
  find_user st P = None → find_user (write r u' st) P = None.
Proof.
  intros Ho HP Hnone%find_user_None. apply find_user_None.
  change (users (write r u' st)) with (users st).
  eapply Forall_impl; [exact Hnone|]. intros r' Hn Hh. apply Hn.
  by apply (holds_write st P r u u' r' Ho HP).
Qed.

(** With every reference allocated, the records are read off position by
    position. *)
Lemma user_list_lookup st i :
  wf st → user_list st !! i = users st !! i ≫= obj st.
Proof.
  unfold wf, user_list. revert i.
  induction (users st) as [|r rs IH]; intros i Hwf; [done|].
  apply Forall_cons in Hwf as [Hr Hwf].
  destruct (lookup_lt_is_Some_2 (heap st) r Hr) as [u Hu].
  cbn [omap list_omap]. unfold obj at 1. rewrite Hu.
  destruct i as [|i]; simpl; [by unfold obj; rewrite Hu|].
  by apply IH.
Qed.

(** Among unique addresses, an address belongs to one position. *)
Lemma unique_email_position st i j r r' u u' :
  wf st → NoDup (emails st) →
  users st !! i = Some r → users st !! j = Some r' →
  obj st r = Some u → obj st r' = Some u' →
  User.email u = User.email u' → i = j.
Proof.
  intros Hwf Hnd Hi Hj Ho Ho' He.
  eapply NoDup_lookup; [exact Hnd| |].
  - unfold emails. rewrite list_lookup_fmap, user_list_lookup, Hi by done.
    simpl. rewrite Ho. done.
  - unfold emails. rewrite list_lookup_fmap, user_list_lookup, Hj by done.
    simpl. rewrite Ho'. simpl. by rewrite He.
Qed.

(** X4.  [updateUserStatus] rejects with "User not found" for an absent id
    and changes nothing.  Otherwise it resolves with the object found, whose
    [isBlocked] it has set and whose other fields, like all other objects
    and arrays, it has left alone.  A login that matched this object now
    rejects as blocked, or resolves, as the status says; a login that
    matched another object, or none, settles as before. *)
Theorem updateUserStatus_spec (st : Store) (id : string) (isBlocked : bool) :
  (Forall (λ u, User.id u ≠ id) (user_list st) →
     updateUserStatus st id isBlocked = (Reject UserNotFound, st)) ∧
  (∀ r u, find_user st (λ u, User.id u = id) = Some (r, u) →
     let st' := snd (updateUserStatus st id isBlocked) in
     fst (updateUserStatus st id isBlocked) = Resolve r ∧
     (∃ u', obj st' r = Some u' ∧ User.isBlocked u' = isBlocked ∧
        set_isBlocked u' (User.isBlocked u) = u) ∧
     (∀ r', r' ≠ r → obj st' r' = obj st r') ∧
     users st' = users st ∧ courses st' = courses st ∧
     feedbacks st' = feedbacks st ∧
     (∀ email password r0 u0,
        find_user st (λ u, User.email u = email ∧ User.password u = Some password)
          = Some (r0, u0) →
        fst (login st' email password)
        = if decide (r0 = r)
          then (if isBlocked then Reject AccountBlocked else Resolve r)
          else fst (login st email password)) ∧
     (∀ email password,
        fst (login st email password) = Reject InvalidCredentials →
        fst (login st' email password) = Reject InvalidCredentials)).
Proof.
  split.
  - intros Hnone. apply not_holds_user_list in Hnone.
    apply (find_user_None st (λ u, User.id u = id)) in Hnone.
    unfold updateUserStatus. by rewrite Hnone.
  - intros r u Hf. unfold updateUserStatus. rewrite Hf. simpl.
    apply find_user_elem in Hf as (Hin & Ho & Hid).
    split; [done|]. split.
    { exists (set_isBlocked u isBlocked).
      split; [by eapply obj_write_eq|]. split; [done|]. by destruct u. }
    split; [intros r' Hne; by apply obj_write_ne|].
    split; [done|]. split; [done|]. split; [done|].
    assert (Hfound : ∀ email password r0 u0,
              find_user st (λ u, User.email u = email ∧ User.password u = Some password)
                = Some (r0, u0) →
              find_user (write r (set_isBlocked u isBlocked) st)
                (λ u, User.email u = email ∧ User.password u = Some password)
              = Some (r0, if decide (r0 = r) then set_isBlocked u isBlocked else u0)).
    { intros email password r0 u0 Hf0. destruct (decide (r0 = r)) as [->|Hne].
      - pose proof Hf0 as (_ & Ho0 & _)%find_user_elem.
        assert (u0 = u) as -> by congruence.
        by apply (find_user_write st _ r u).
      - by apply (find_user_write_other st _ r u). }
    split.
    + intros email password r0 u0 Hf0. unfold login.
      rewrite (Hfound _ _ _ _ Hf0), Hf0.
      destruct (decide (r0 = r)) as [->|Hne]; simpl; [by destruct isBlocked|].
      by destruct (User.isBlocked u0).
    + intros email password Hlogin. unfold login in *.
      destruct (find_user st _) as [[r1 u1]|] eqn:Hf1.
      { by destruct (User.isBlocked u1). }
      by rewrite (find_user_write_None st _ r u _ Ho).
Qed.

(** The administrator blocks the seeded student, whose login then rejects. *)
Lemma updateUserStatus_spec_witness :
  let st := createInitialData 0 (λ _ _, (0, 0)%nat) in
  let st' := snd (updateUserStatus st "user-2" true) in
  fst (login st "student@example.com" "Student@1234!") = Resolve 1%nat ∧
  fst (login st' "student@example.com" "Student@1234!") = Reject AccountBlocked.
Proof.
  pose (st := createInitialData 0 (λ _ _, (0, 0)%nat)).
  assert (Hu : ∃ u, find_user st (λ u, User.id u = "user-2") = Some (1%nat, u))
    by (eexists; vm_compute; reflexivity).
  destruct Hu as (u & Hf).
  assert (Hc : ∃ u0, find_user st
                 (λ u, User.email u = "student@example.com"
                       ∧ User.password u = Some "Student@1234!") = Some (1%nat, u0))
    by (eexists; vm_compute; reflexivity).
  destruct Hc as (u0 & Hc).
  split; [by vm_compute|].
  destruct (updateUserStatus_spec st "user-2" true) as (_ & Hok).
  destruct (Hok _ _ Hf) as (_ & _ & _ & _ & _ & _ & Hlogin & _).
  exact (Hlogin _ _ _ _ Hc).
Defined.

(** X5.  After a successful [changePassword], in a store whose e-mail
    addresses are unique, the user logs in with the new password (or is
    told the account is blocked), and no longer with the old one. *)
Theorem changePassword_then_login (st : Store) (userId oldPass newPass : string)
    (r : ref) (u : User.t) :
  wf st → NoDup (emails st) →
  find_user st (λ u, User.id u = userId) = Some (r, u) →
  User.password u = Some oldPass →
  let st' := snd (changePassword st userId oldPass newPass) in
  fst (changePassword st userId oldPass newPass) = Resolve true ∧
  fst (login st' (User.email u) newPass)
    = (if User.isBlocked u then Reject AccountBlocked else Resolve r) ∧
  (oldPass ≠ newPass →
   fst (login st' (User.email u) oldPass) = Reject InvalidCredentials).
Proof.
  intros Hwf Hnd Hf Hpw. unfold changePassword. rewrite Hf.
  rewrite decide_False by (intros ?; done). simpl.
  apply find_user_Some in Hf as (i & Hi & Ho & Hid & _).
  set (u' := set_password u (Some newPass)).
  set (st' := write r u' st).
  assert (Ho' : obj st' r = Some u') by (by eapply obj_write_eq).
  assert (Hwf' : wf st') by (by apply wf_write).
  assert (Hnd' : NoDup (emails st')).
  { unfold st'. by erewrite emails_write. }
  assert (Honly : ∀ j r' x, users st !! j = Some r' → obj st' r' = Some x →
            User.email x = User.email u → j = i ∧ r' = r ∧ x = u').
  { intros j r' x Hj Hx He.
    assert (j = i) as ->.
    { eapply (unique_email_position st' j i r' r x u'); try done. }
    assert (r' = r) as -> by congruence.
    split; [done|]. split; [done|]. congruence. }
  split; [done|]. split.
  - unfold login.
    assert (find_user st' (λ x, User.email x = User.email u
                                ∧ User.password x = Some newPass) = Some (r, u')) as ->.
    { apply find_user_Some. exists i. split; [done|]. split; [done|].
      split; [done|]. intros j r' Hj Hlt (x & Hx & He & _)%holds_obj.
      destruct (Honly j r' x Hj Hx He) as [-> _]. lia. }
    simpl. by destruct (User.isBlocked u).
  - intros Hne. unfold login.
    assert (find_user st' (λ x, User.email x = User.email u
                                ∧ User.password x = Some oldPass) = None) as ->; [|done].
    apply find_user_None, Forall_forall.
    intros r' [j Hj]%list_elem_of_lookup (x & Hx & He & Hp)%holds_obj.
    destruct (Honly j r' x Hj Hx He) as (_ & _ & ->).
    simpl in Hp. congruence.
Qed.

(** The seeded student changes the password and logs in with it. *)
Lemma changePassword_then_login_witness :
  let st := createInitialData 0 (λ _ _, (0, 0)%nat) in
  let st' := snd (changePassword st "user-2" "Student@1234!" "Changed@123!") in
  wf st ∧ NoDup (emails st) ∧
  fst (login st' "student@example.com" "Changed@123!") = Resolve 1%nat ∧
  fst (login st' "student@example.com" "Student@1234!") = Reject InvalidCredentials.
Proof.
  pose (st := createInitialData 0 (λ _ _, (0, 0)%nat)).
  assert (Hwf : wf st) by (apply (bool_decide_unpack _); vm_compute; exact I).
  assert (Hnd : NoDup (emails st))
    by (apply (bool_decide_unpack _); vm_compute; exact I).
  assert (Hu : ∃ u, find_user st (λ u, User.id u = "user-2") = Some (1%nat, u)
                    ∧ User.password u = Some "Student@1234!"
                    ∧ User.email u = "student@example.com"
                    ∧ User.isBlocked u = false)
    by (eexists; repeat split; vm_compute; reflexivity).
  destruct Hu as (u & Hf & Hpw & He & Hb).
  split; [exact Hwf|]. split; [exact Hnd|].
  destruct (changePassword_then_login st "user-2" "Student@1234!" "Changed@123!"
              1%nat u Hwf Hnd Hf Hpw) as (_ & Hnew & Hold).
  rewrite He, Hb in Hnew. rewrite He in Hold.
  split; [exact Hnew|]. apply Hold. discriminate.
Defined.

Lemma signup_fresh (st : Store) (now : Z) (name email password : string) :
  ¬ Exists (holds (heap st) (λ u, User.email u = email)) (users st) →
  signup st now name email password
  = (Resolve (length (heap st)),
     snd (push_user
            (User.mk ("user-" +:+ toString (length (users st) + 1)) name email
               (Some password) STUDENT None None None None false now) st)).
Proof. intros Hex. unfold signup. by rewrite decide_False. Qed.

(** [find] reaches an object that was just pushed when no earlier user
    has its e-mail address. *)
Lemma find_user_push (st : Store) (newUser : User.t) (email password : string) :
  wf st →
  ¬ Exists (holds (heap st) (λ u, User.email u = email)) (users st) →
  User.email newUser = email → User.password newUser = Some password →
  find_user (snd (push_user newUser st))
    (λ x, User.email x = email ∧ User.password x = Some password)
  = Some (length (heap st), newUser).
Proof.
  intros Hwf Hex He Hp.
  apply find_user_Some. exists (length (users st)).
  split; [unfold push_user; simpl; by apply list_lookup_middle|].
  split; [unfold obj, push_user; simpl; by apply list_lookup_middle|].
  split; [done|].
  intros j r' Hj Hlt (x & Hx & Hxe & _)%holds_obj.
  unfold push_user in Hj, Hx. simpl in Hj.
  rewrite lookup_app_l in Hj by done.
  apply Hex, Exists_exists. exists r'.
  split; [by eapply list_elem_of_lookup_2|]. apply holds_obj. exists x.
  split; [|done].
  assert ((r' < length (heap st))%nat).
  { eapply Forall_forall in Hwf; [exact Hwf|]. by eapply list_elem_of_lookup_2. }
  unfold obj in *. simpl in Hx. by rewrite lookup_app_l in Hx.
Qed.

(** X6.  After a successful [signup], [login] with the same e-mail address
    and password resolves with the very object [signup] resolved with: a
    student, not blocked, appended to the users, who were not touched. *)
Theorem signup_then_login (st : Store) (now : Z) (name email password : string)
    (r : ref) :
  wf st →
  fst (signup st now name email password) = Resolve r →
  let st' := snd (signup st now name email password) in
  fst (login st' email password) = Resolve r ∧
  (r ∉ users st) ∧
  (∃ u, obj st' r = Some u ∧
        User.name u = name ∧ User.email u = email ∧
        User.password u = Some password ∧
        User.role u = STUDENT ∧ User.isBlocked u = false ∧
        User.createdAt u = now ∧
        user_list st' = user_list st ++ [u]).
Proof.
  intros Hwf.
  destruct (decide (Exists (holds (heap st) (λ u, User.email u = email)) (users st)))
    as [Hex|Hex].
  { unfold signup. by rewrite decide_True. }
  rewrite signup_fresh by done.
  set (newUser := User.mk _ _ _ _ _ _ _ _ _ _ _).
  simpl fst. intros [= <-] st'.
  assert (Ho : obj st' (length (heap st)) = Some newUser).
  { unfold obj, st', push_user. simpl. by apply list_lookup_middle. }
  assert (Hnotin : length (heap st) ∉ users st).
  { intros Hin. eapply Forall_forall in Hwf; [|exact Hin]. simpl in Hwf. lia. }
  split; [|split; [done|]].
  - unfold login.
    change st' with (snd (push_user newUser st)).
    by rewrite (find_user_push st newUser email password Hwf Hex eq_refl eq_refl).
  - exists newUser. split; [done|]. repeat (split; [done|]).
    by apply user_list_push.
Qed.

Lemma signup_then_login_witness :
  let st := createInitialData 0 (λ _ _, (0, 0)%nat) in
  let st' := snd (signup st 7 "New Student" "new@example.com" "Passw0rd@1") in
  wf st ∧
  fst (signup st 7 "New Student" "new@example.com" "Passw0rd@1") = Resolve 22%nat ∧
  fst (login st' "new@example.com" "Passw0rd@1") = Resolve 22%nat.
Proof.
  pose (st := createInitialData 0 (λ _ _, (0, 0)%nat)).
  assert (Hwf : wf st) by (apply (bool_decide_unpack _); vm_compute; exact I).
  assert (Hs : fst (signup st 7 "New Student" "new@example.com" "Passw0rd@1")
               = Resolve 22%nat) by (vm_compute; reflexivity).
  split; [exact Hwf|]. split; [exact Hs|].
  exact (proj1 (signup_then_login st 7 _ _ _ 22%nat Hwf Hs)).
Defined.

(** ** Feedback: adding, editing, deleting *)

Lemma slice_fmap {A B} (g : A → B) (l : list A) (a b : number) :
  slice (g <$> l) a b = g <$> slice l a b.
Proof. unfold slice. by rewrite length_fmap, fmap_take, fmap_drop. Qed.

(** X7.  A feedback added no earlier than the student's stored feedback is
    the first entry of page 1 of the student's list; it is put in front of
    the array, with the id made from the length of the array and the time of
    the call. *)
Theorem addFeedback_shows_first (st : Store) (now : Z) (feedbackData : FeedbackData.t)
    (limit : Z) :
  1 ≤ limit →
  Forall (λ f, Feedback.studentId f = FeedbackData.studentId feedbackData →
               Feedback.createdAt f ≤ now) (feedbacks st) →
  ∃ f, fst (addFeedback st now feedbackData) = Resolve f ∧
       Feedback.id f = "feedback-" +:+ toString (length (feedbacks st) + 1) ∧
       Feedback.createdAt f = now ∧
       feedbacks (snd (addFeedback st now feedbackData)) = f :: feedbacks st ∧
       head (data_of (getStudentFeedback (snd (addFeedback st now feedbackData))
                        (FeedbackData.studentId feedbackData)
                        (Some (Int 1)) (Some (Int limit))))
       = Some f.
Proof.
  intros Hl Hnew. eexists. split; [reflexivity|].
  split; [done|]. split; [done|]. split; [done|].
  unfold data_of, getStudentFeedback. simpl fst. cbv iota. simpl default.
  rewrite paginate_data by lia. simpl feedbacks.
  rewrite filter_cons_True by done.
  change (sort newest_first (?x :: ?l)) with (sort_insert newest_first x (sort newest_first l)).
  rewrite (sort_insert_front Feedback.createdAt).
  - simpl. destruct (Z.to_nat limit) eqn:Hn; [lia|done].
  - apply Forall_forall. intros z Hz. rewrite sort_perm in Hz.
    apply list_elem_of_filter in Hz as [Hs Hz].
    eapply Forall_forall in Hnew; [|exact Hz]. simpl. by apply Hnew.
Qed.

Lemma addFeedback_shows_first_witness :
  let st := createInitialData 100 (λ _ _, (0, 0)%nat) in
  let data := FeedbackData.mk "user-2" "Student User" "course-1" 5 "Great" in
  1 ≤ 5 ∧
  (Feedback.id <$>
     head (data_of (getStudentFeedback (snd (addFeedback st 100 data)) "user-2"
                      (Some (Int 1)) (Some (Int 5)))))
  = Some "feedback-106".
Proof.
  split; [lia|].
  destruct (addFeedback_shows_first (createInitialData 100 (λ _ _, (0, 0)%nat)) 100
              (FeedbackData.mk "user-2" "Student User" "course-1" 5 "Great") 5
              ltac:(lia)) as (f & _ & Hid & _ & _ & Hhead).
  - apply (bool_decide_unpack _). vm_compute. exact I.
  - simpl FeedbackData.studentId in Hhead. rewrite Hhead. simpl. rewrite Hid.
    by vm_compute.
Defined.

Lemma NoDup_fmap_inj {A B} (g : A → B) (l : list A) (x y : A) :
  NoDup (g <$> l) → x ∈ l → y ∈ l → g x = g y → x = y.
Proof.
  intros Hnd [i Hi]%list_elem_of_lookup [j Hj]%list_elem_of_lookup Hg.
  assert (i = j) as ->; [|congruence].
  eapply NoDup_lookup; [exact Hnd| |]; rewrite list_lookup_fmap.
  - by rewrite Hi.
  - rewrite Hj. simpl. by rewrite Hg.
Qed.

Lemma list_find_snd {A} (P : A → Prop) `{∀ x, Decision (P x)} (l : list A) :
  (snd <$> list_find P l = None ↔ Forall (λ x, ¬ P x) l) ∧
  (∀ x, snd <$> list_find P l = Some x → x ∈ l ∧ P x).
Proof.
  split.
  - destruct (list_find P l) as [[i y]|] eqn:Hf; simpl.
    + split; [done|]. intros Hall. apply (proj2 (list_find_None P l)) in Hall.
      congruence.
    + split; [|done]. intros _. by apply (proj1 (list_find_None P l)).
  - intros x. destruct (list_find P l) as [[i y]|] eqn:Hf; simpl; [|done].
    intros [= ->]. apply list_find_Some in Hf as (Hi & HP & _).
    split; [by eapply list_elem_of_lookup_2|done].
Qed.

(** X8.  Editing a feedback does not move it.  Where ids are unique and the
    payload carries no date, [updateFeedback] resolves with the merged
    record and every unfiltered listing page afterwards is the page before
    with that record in the place of the old one.  For an absent id it
    rejects with "Feedback not found". *)
Theorem updateFeedback_keeps_place (st : Store) (id : string)
    (data : PartialFeedback.t) :
  (Forall (λ f, Feedback.id f ≠ id) (feedbacks st) →
     updateFeedback st id data = (Reject FeedbackNotFound, st)) ∧
  (∀ found, found ∈ feedbacks st → Feedback.id found = id →
     NoDup (Feedback.id <$> feedbacks st) →
     PartialFeedback.createdAt data = None →
     let feedback := spread_feedback found data in
     let st' := snd (updateFeedback st id data) in
     let swap := λ f, if decide (Feedback.id f = id) then feedback else f in
     fst (updateFeedback st id data) = Resolve feedback ∧
     feedbacks st' = swap <$> feedbacks st ∧
     ∀ page limit,
       data_of (getAllFeedback st' page limit None)
       = swap <$> data_of (getAllFeedback st page limit None)).
Proof.
  destruct (list_find_snd (λ f, Feedback.id f = id) (feedbacks st)) as [Hnone Hsome].
  split.
  - intros Hall. apply Hnone in Hall. unfold updateFeedback. by rewrite Hall.
  - intros found Hin Hid Hnd Hdate feedback st' swap.
    assert (Hfind : snd <$> list_find (λ f, Feedback.id f = id) (feedbacks st)
                    = Some found).
    { destruct (snd <$> list_find _ _) as [x|] eqn:Hf.
      - destruct (Hsome x eq_refl) as [Hx Hxid]. f_equal.
        eapply (NoDup_fmap_inj Feedback.id); [done..|congruence].
      - pose proof (proj1 Hnone eq_refl) as Hall.
        eapply Forall_forall in Hall; [|exact Hin]. done. }
    assert (Hfb : feedbacks st' = swap <$> feedbacks st).
    { subst st'. unfold updateFeedback. by rewrite Hfind. }
    split; [unfold updateFeedback; by rewrite Hfind|]. split; [done|].
    intros page limit. unfold data_of, getAllFeedback. simpl fst. cbv iota.
    simpl. rewrite Hfb, sort_fmap.
    rewrite (sort_ext _ newest_first).
    + apply slice_fmap.
    + assert (Hc : ∀ f, f ∈ feedbacks st →
                Feedback.createdAt (swap f) = Feedback.createdAt f).
      { intros f Hf. unfold swap. case_decide as Hfid; [|done].
        assert (f = found) as ->
          by (eapply (NoDup_fmap_inj Feedback.id); [done..|congruence]).
        subst feedback. unfold spread_feedback. simpl. by rewrite Hdate. }
      intros a b Ha Hb. unfold newest_first. by rewrite !Hc.
Qed.

(** The seeded feedback [feedback-1] gets another rating and message. *)
Lemma updateFeedback_keeps_place_witness :
  let st := createInitialData 0 (λ i j, (i, j)%nat) in
  let data := PartialFeedback.mk None None None None (Some 1) (Some "Changed") None in
  (Feedback.id <$> data_of (getAllFeedback (snd (updateFeedback st "feedback-1" data))
                              (Some (Int 1)) (Some (Int 10)) None))
  = (Feedback.id <$> data_of (getAllFeedback st (Some (Int 1)) (Some (Int 10)) None)).
Proof.
  intros st data.
  assert (Hf : ∃ found, feedbacks st !! 0%nat = Some found
                        ∧ Feedback.id found = "feedback-1")
    by (eexists; split; vm_compute; reflexivity).
  destruct Hf as (found & Hin & Hid).
  assert (Hnd : NoDup (Feedback.id <$> feedbacks st))
    by (apply (bool_decide_unpack _); vm_compute; exact I).
  destruct (updateFeedback_keeps_place st "feedback-1" data) as [_ Hok].
  destruct (Hok found (list_elem_of_lookup_2 _ _ _ Hin) Hid Hnd eq_refl)
    as (_ & _ & Hpages).
  rewrite Hpages, <- list_fmap_compose.
  apply list_fmap_ext. intros i f _. simpl.
  case_decide as Hf; [|done]. by rewrite Hf.
Defined.

(** ** Courses and records with a generated id *)

Lemma fmap_replace_unique {A} (g : A → string) (l : list A) (i : nat) (x y : A) :
  NoDup (g <$> l) → l !! i = Some x →
  (λ c, if decide (g c = g x) then y else c) <$> l = <[i := y]> l.
Proof.
  intros Hnd Hi. apply list_eq. intros j. rewrite list_lookup_fmap.
  destruct (decide (i = j)) as [<-|Hij].
  - rewrite list_lookup_insert_eq by (by eapply lookup_lt_Some).
    rewrite Hi. simpl. by rewrite decide_True.
  - rewrite list_lookup_insert_ne by done.
    destruct (l !! j) as [z|] eqn:Hj; [|done]. simpl.
    rewrite decide_False; [done|]. intros Hg. apply Hij.
    eapply NoDup_lookup; [exact Hnd| |]; rewrite list_lookup_fmap.
    + by rewrite Hi.
    + rewrite Hj. simpl. by rewrite Hg.
Qed.

(** X9.  [updateCourse] rejects with "Course not found" for an id no course
    has and leaves the store as it is.  Where the ids of the courses are
    unique it changes the one course with the id, in its place, and nothing
    else of the store. *)
Theorem updateCourse_spec (st : Store) (id : string) (data : PartialCourse.t) :
  (Forall (λ c, Course.id c ≠ id) (courses st) →
     updateCourse st id data = (Reject CourseNotFound, st)) ∧
  (∀ i found, courses st !! i = Some found → Course.id found = id →
     NoDup (Course.id <$> courses st) →
     updateCourse st id data
     = (Resolve (spread_course found data),
        mkStore (heap st) (users st)
          (<[i := spread_course found data]> (courses st)) (feedbacks st))).
Proof.
  destruct (list_find_snd (λ c, Course.id c = id) (courses st)) as [Hnone Hsome].
  split.
  - intros Hall. apply Hnone in Hall. unfold updateCourse. by rewrite Hall.
  - intros i found Hi Hid Hnd. unfold updateCourse.
    destruct (snd <$> list_find _ _) as [x|] eqn:Hf.
    + destruct (Hsome x eq_refl) as [Hx Hxid].
      assert (x = found) as ->.
      { eapply (NoDup_fmap_inj Course.id); [done..| |congruence].
        by eapply list_elem_of_lookup_2. }
      cbv zeta. rewrite <- Hid. by rewrite (fmap_replace_unique _ _ i).
    + pose proof (proj1 Hnone eq_refl) as Hall.
      eapply Forall_forall in Hall; [|by eapply list_elem_of_lookup_2]. done.
Qed.

Lemma updateCourse_spec_witness :
  let st := createInitialData 0 (λ _ _, (0, 0)%nat) in
  let data := PartialCourse.mk None (Some "Renamed") None None None None in
  Forall (λ c, Course.id c ≠ "course-99") (courses st) ∧
  updateCourse st "course-99" data = (Reject CourseNotFound, st) ∧
  (Course.name <$> courses (snd (updateCourse st "course-2" data)) !! 1%nat)
  = Some "Renamed".
Proof.
  intros st data.
  assert (Hall : Forall (λ c, Course.id c ≠ "course-99") (courses st))
    by (apply (bool_decide_unpack _); vm_compute; exact I).
  split; [exact Hall|]. split.
  - exact (proj1 (updateCourse_spec st "course-99" data) Hall).
  - assert (Hf : ∃ found, courses st !! 1%nat = Some found
                          ∧ Course.id found = "course-2")
      by (eexists; split; vm_compute; reflexivity).
    destruct Hf as (found & Hi & Hid).
    assert (Hnd : NoDup (Course.id <$> courses st))
      by (apply (bool_decide_unpack _); vm_compute; exact I).
    rewrite (proj2 (updateCourse_spec st "course-2" data) 1%nat found Hi Hid Hnd).
    cbn [snd courses]. rewrite list_lookup_insert_eq by (by eapply lookup_lt_Some).
    reflexivity.
Defined.

(** X10.  Deleting the record that was just added deletes every record
    with its generated id.  The id is made from the length of the array:
    where no stored record has it, adding and then deleting gives the store
    back; otherwise the older records with that id go as well. *)
Theorem delete_after_add (st : Store) (now : Z) :
  (∀ data,
     let id := "course-" +:+ toString (length (courses st) + 1) in
     snd (deleteCourse (snd (addCourse st now data)) id)
     = mkStore (heap st) (users st)
         (filter (λ c, Course.id c ≠ id) (courses st)) (feedbacks st)
     ∧ (Forall (λ c, Course.id c ≠ id) (courses st) →
        snd (deleteCourse (snd (addCourse st now data)) id) = st)) ∧
  (∀ data,
     let id := "feedback-" +:+ toString (length (feedbacks st) + 1) in
     snd (deleteFeedback (snd (addFeedback st now data)) id)
     = mkStore (heap st) (users st) (courses st)
         (filter (λ f, Feedback.id f ≠ id) (feedbacks st))
     ∧ (Forall (λ f, Feedback.id f ≠ id) (feedbacks st) →
        snd (deleteFeedback (snd (addFeedback st now data)) id) = st)).
Proof.
  assert (Hall : ∀ A (P : A → Prop) `{∀ x, Decision (P x)} (l : list A),
            Forall P l → filter P l = l).
  { intros A P ? l Hl. induction Hl as [|x l Hx Hl IH]; [done|].
    by rewrite filter_cons_True, IH. }
  split; intros data id.
  - assert (Heq : snd (deleteCourse (snd (addCourse st now data)) id)
                  = mkStore (heap st) (users st)
                      (filter (λ c, Course.id c ≠ id) (courses st)) (feedbacks st)).
    { unfold deleteCourse, addCourse. simpl. f_equal.
      rewrite filter_app, filter_cons_False, filter_nil, app_nil_r; [done|].
      simpl. intros Hne. by apply Hne. }
    split; [exact Heq|]. intros Hfresh. rewrite Heq, Hall by done. by destruct st.
  - assert (Heq : snd (deleteFeedback (snd (addFeedback st now data)) id)
                  = mkStore (heap st) (users st) (courses st)
                      (filter (λ f, Feedback.id f ≠ id) (feedbacks st))).
    { unfold deleteFeedback, addFeedback. simpl. f_equal.
      rewrite filter_cons_False; [done|]. simpl. intros Hne. by apply Hne. }
    split; [exact Heq|]. intros Hfresh. rewrite Heq, Hall by done. by destruct st.
Qed.

Lemma delete_after_add_witness :
  let st := createInitialData 0 (λ _ _, (0, 0)%nat) in
  let data := CourseData.mk "Rocq" "Proofs" None None in
  Forall (λ c, Course.id c ≠ "course-" +:+ toString (length (courses st) + 1))
    (courses st) ∧
  snd (deleteCourse (snd (addCourse st 0 data))
         ("course-" +:+ toString (length (courses st) + 1))) = st.
Proof.
  intros st data.
  assert (Hfresh : Forall (λ c, Course.id c
                     ≠ "course-" +:+ toString (length (courses st) + 1)) (courses st))
    by (apply (bool_decide_unpack _); vm_compute; exact I).
  split; [exact Hfresh|].
  exact (proj2 (proj1 (delete_after_add st 0) data) Hfresh).
Defined.

(** X11.  [deleteCourse] always resolves with [true] and never touches the
    feedback: what was written for the deleted course stays stored.  The
    course ratings afterwards are the ratings before without the rows of the
    deleted courses, in the same order. *)
Theorem deleteCourse_keeps_feedback (st : Store) (id : string) :
  let st' := snd (deleteCourse st id) in
  fst (deleteCourse st id) = Resolve true ∧
  feedbacks st' = feedbacks st ∧ users st' = users st ∧ heap st' = heap st ∧
  (∀ page limit filters,
     fst (getAllFeedback st' page limit filters)
     = fst (getAllFeedback st page limit filters)) ∧
  ∃ rows : list (Course.t * CourseRating),
    fst (getCourseRatings st) = Resolve (snd <$> rows) ∧
    fst (getCourseRatings st')
    = Resolve (snd <$> filter (λ row, Course.id (fst row) ≠ id) rows) ∧
    (fst <$> rows) ≡ₚ courses st ∧
    Forall (λ row, snd row
              = mkRating (Course.name (fst row))
                  (mean_rating (filter (λ f, Feedback.courseId f = Course.id (fst row))
                                  (feedbacks st)))) rows.
Proof.
  cbv zeta. split; [done|]. split; [done|]. split; [done|]. split; [done|].
  split; [done|].
  set (m := foldl add_rating ∅ (feedbacks st)).
  set (key := λ c, avgRating (course_rating m c)).
  exists ((λ c, (c, course_rating m c)) <$> sort (λ a b, key b - key a) (courses st)).
  split; [|split; [|split]].
  - unfold getCourseRatings. simpl. fold m. f_equal.
    rewrite sort_fmap, <- list_fmap_compose. done.
  - unfold getCourseRatings. simpl. fold m. f_equal.
    rewrite sort_fmap.
    change (λ a b, best_first (course_rating m a) (course_rating m b))
      with (λ a b, key b - key a).
    rewrite <- (sort_filter key).
    induction (sort (λ a b, key b - key a) (courses st)) as [|c l IH]; [done|].
    rewrite fmap_cons, !filter_cons. cbn [fst].
    destruct (decide (Course.id c ≠ id));
      [rewrite !fmap_cons; cbn [snd]; f_equal|]; exact IH.
  - rewrite <- list_fmap_compose. simpl.
    rewrite (list_fmap_ext _ (λ c, c) _ (λ _ _ _, eq_refl)), list_fmap_id.
    apply sort_perm.
  - apply Forall_fmap, Forall_forall. intros c _. simpl. apply course_rating_mean.
Qed.

(** ** The dashboard counters *)

Lemma length_filter_holds (h : list User.t) (P : User.t → Prop)
    `{∀ u, Decision (P u)} (rs : list ref) :
  length (filter (holds h P) rs) = length (filter P (omap (λ r, h !! r) rs)).
Proof.
  induction rs as [|r rs IH]; [done|].
  rewrite filter_cons. simpl.
  destruct (decide (holds h P r)) as [Hh|Hh]; unfold holds in Hh;
    destruct (h !! r) as [u|]; simpl in Hh; try done.
  - rewrite filter_cons_True by done. simpl. by rewrite IH.
  - by rewrite filter_cons_False.
Qed.

Lemma length_filter_split {A} (P Q : A → Prop) `{∀ x, Decision (P x)}
    `{∀ x, Decision (Q x)} (l : list A) :
  length (filter P l)
  = (length (filter P (filter (λ x, ¬ Q x) l))
     + length (filter (λ x, P x ∧ Q x) l))%nat.
Proof.
  induction l as [|x l IH]; [done|].
  rewrite !filter_cons.
  destruct (decide (P x)), (decide (Q x)).
  - rewrite decide_False, decide_True by tauto. simpl. lia.
  - rewrite decide_True, decide_False by tauto.
    rewrite filter_cons_True by done. simpl. lia.
  - rewrite decide_False, decide_False by tauto. done.
  - rewrite decide_True, decide_False by tauto.
    rewrite filter_cons_False by done. done.
Qed.

(** X12.  The dashboard counts the users whose role is [STUDENT] (the
    administrators are not counted), the feedback and the courses.  A
    successful [signup] raises the first counter by one, [addFeedback] and
    [addCourse] the second and the third; [deleteUser] lowers the first by
    the students with the id and the second by the feedback they wrote. *)
Theorem dashboard_counts (st : Store) :
  ∃ d, getDashboardStats st = (Resolve d, st) ∧
    studentCount d = length (filter (λ u, User.role u = STUDENT) (user_list st)) ∧
    feedbackCount d = length (feedbacks st) ∧
    courseCount d = length (courses st) ∧
    (∀ now name email password r,
       wf st → fst (signup st now name email password) = Resolve r →
       fst (getDashboardStats (snd (signup st now name email password)))
       = Resolve (mkStats (S (studentCount d)) (feedbackCount d) (courseCount d))) ∧
    (∀ now data,
       fst (getDashboardStats (snd (addFeedback st now data)))
       = Resolve (mkStats (studentCount d) (S (feedbackCount d)) (courseCount d))) ∧
    (∀ now data,
       fst (getDashboardStats (snd (addCourse st now data)))
       = Resolve (mkStats (studentCount d) (feedbackCount d) (S (courseCount d)))) ∧
    (∀ id, ∃ d',
       fst (getDashboardStats (snd (deleteUser st id))) = Resolve d' ∧
       studentCount d
       = (studentCount d'
          + length (filter (λ u, User.role u = STUDENT ∧ User.id u = id)
                      (user_list st)))%nat ∧
       feedbackCount d
       = (feedbackCount d'
          + length (filter (λ f, Feedback.studentId f = id) (feedbacks st)))%nat ∧
       courseCount d' = courseCount d).
Proof.
  eexists. split; [reflexivity|]. simpl.
  split; [apply length_filter_holds|]. split; [done|]. split; [done|].
  split; [|split; [|split]].
  - intros now name email password r Hwf Hr.
    destruct (decide (Exists (holds (heap st) (λ u, User.email u = email)) (users st)))
      as [Hex|Hex].
    { unfold signup in Hr. by rewrite decide_True in Hr. }
    rewrite (signup_fresh _ _ _ _ _ Hex).
    set (u := User.mk _ _ _ _ _ _ _ _ _ _ _).
    unfold getDashboardStats. cbn [fst snd]. f_equal.
    rewrite (length_filter_holds (heap st)).
    rewrite (length_filter_holds (heap (snd (push_user u st)))).
    change (omap (λ r0, heap (snd (push_user u st)) !! r0) (users (snd (push_user u st))))
      with (user_list (snd (push_user u st))).
    rewrite (user_list_push st u Hwf), filter_app, length_app.
    rewrite filter_cons_True by done. simpl.
    by rewrite Nat.add_1_r.
  - intros now data. done.
  - intros now data. unfold getDashboardStats. simpl. by rewrite length_app, Nat.add_1_r.
  - intros id. eexists. split; [reflexivity|]. simpl.
    split; [|split; [|done]].
    + rewrite !length_filter_holds.
      rewrite (omap_filter_holds (heap st) (λ u, User.id u ≠ id)).
      apply (length_filter_split _ (λ u, User.id u = id)).
    + induction (feedbacks st) as [|f l IH]; [done|].
      rewrite !filter_cons.
      destruct (decide (Feedback.studentId f = id)).
      * rewrite decide_False by tauto. simpl. lia.
      * rewrite decide_True by done. simpl. lia.
Qed.

Lemma dashboard_counts_witness :
  let st := createInitialData 0 (λ _ _, (0, 0)%nat) in
  wf st ∧
  fst (getDashboardStats (snd (signup st 5 "New" "new@example.com" "secret1!")))
  = Resolve (mkStats 22 105 10).
Proof.
  intros st.
  assert (Hwf : wf st) by (apply (bool_decide_unpack _); vm_compute; exact I).
  split; [exact Hwf|].
  destruct (dashboard_counts st) as (d & Hd & Hs & Hf & Hc & Hsignup & _).
  rewrite (Hsignup 5 "New" "new@example.com" "secret1!" (length (heap st)) Hwf).
  - rewrite Hs, Hf, Hc. by vm_compute.
  - by vm_compute.
Defined.

(** ** The seeded store *)

(** X13.  Whatever [Math.random] draws and whenever the module is loaded,
    the seeded store has 22 users with distinct ids and distinct e-mail
    addresses, 10 courses and 105 feedback entries with distinct ids; every
    feedback has a rating from 1 to 5, the id of a seeded course and the id
    and name of a seeded student, and every student has five of them. *)
Theorem createInitialData_invariants (now : Z) (rand : nat → nat → nat * nat) :
  let st := createInitialData now rand in
  wf st ∧ NoDup (users st) ∧ length (users st) = 22%nat ∧
  NoDup (ids st) ∧ NoDup (emails st) ∧
  length (courses st) = 10%nat ∧ NoDup (Course.id <$> courses st) ∧
  length (feedbacks st) = 105%nat ∧ NoDup (Feedback.id <$> feedbacks st) ∧
  Forall (λ u, User.role u = STUDENT →
               length (filter (λ f, Feedback.studentId f = User.id u) (feedbacks st))
               = 5%nat) (user_list st) ∧
  Forall (λ f, 1 ≤ Feedback.rating f ≤ 5 ∧
               (∃ c, c ∈ courses st ∧ Course.id c = Feedback.courseId f) ∧
               (∃ u, u ∈ user_list st ∧ User.id u = Feedback.studentId f ∧
                     User.name u = Feedback.studentName f ∧
                     User.role u = STUDENT)) (feedbacks st).
Proof.
  cbv zeta.
  repeat (split; [apply (bool_decide_unpack _); vm_compute; exact I|]).
  unfold createInitialData. cbn [feedbacks courses]. unfold seed_feedbacks.
  apply Forall_bind, Forall_forall. intros i Hi. unfold compose.
  apply Forall_bind, Forall_forall. intros j Hj. unfold compose.
  apply Forall_singleton. split; [|split].
  - unfold seed_feedback. cbn [Feedback.rating].
    pose proof (Nat.mod_upper_bound (snd (rand i j)) 5). lia.
  - eexists. split; [|reflexivity].
    apply list_elem_of_lookup_total_2, Nat.mod_upper_bound.
    by vm_compute.
  - revert i Hi. apply Forall_forall.
    cut (Forall (λ i, Exists (λ u, User.id u = "user-" +:+ toString i ∧
                   User.name u
                   = or_string (User.name <$> List.find (λ u, bool_decide (User.id u = "user-" +:+ toString i)) (seed_users now)) "Unknown Student" ∧
                   User.role u = STUDENT)
              (user_list (createInitialData now rand))) (seq 2 21)).
    { intros Hall. eapply Forall_impl; [exact Hall|].
      intros i (u & Hu & Hp)%Exists_exists. by exists u. }
    apply (bool_decide_unpack _). vm_compute. exact I.
Qed.

(** ** The users' listing *)

Lemma Forall_names (st : Store) (Q : string → Prop) (us : list ref) :
  Forall (λ r, (r < length (heap st))%nat) us →
  Forall (λ r, Q (default "" (User.name <$> obj st r))) us →
  Forall Q (User.name <$> omap (obj st) us).
Proof.
  induction 1 as [|r us Hr Hus IH]; [constructor|].
  rewrite Forall_cons. intros [Hq Hqs]. simpl.
  destruct (lookup_lt_is_Some_2 _ _ Hr) as [u Hu].
  unfold obj in *. rewrite Hu in *. simpl. constructor; [exact Hq|by apply IH].
Qed.

(** X14.  Where [localeCompare] orders the names (any two names compare one
    way or the other, transitively), the pages of [getUsers] are the pages
    of one list: the users of the store, each once, with their names in
    ascending order.  The array of the store is not reordered. *)
Theorem getUsers_sorted (localeCompare : string → string → Z) (st : Store) :
  (∀ a b, localeCompare a b ≤ 0 ∨ localeCompare b a ≤ 0) →
  (∀ a b c, localeCompare a b ≤ 0 → localeCompare b c ≤ 0 → localeCompare a c ≤ 0) →
  wf st →
  ∃ us,
    (∀ page limit,
       getUsers localeCompare st page limit
       = (Resolve (paginate us (default (Int 1) page) (default (Int 10) limit)), st)) ∧
    us ≡ₚ users st ∧
    StronglySorted (λ a b, localeCompare a b ≤ 0) (User.name <$> omap (obj st) us).
Proof.
  intros Htot Htrans Hwf.
  set (nm := λ r, default "" (User.name <$> obj st r)).
  exists (sort (λ a b, localeCompare (nm a) (nm b)) (users st)).
  assert (Heq : sort (by_name localeCompare st) (users st)
                = sort (λ a b, localeCompare (nm a) (nm b)) (users st)).
  { apply sort_ext. intros a b Ha Hb. unfold by_name, nm, wf, obj in *.
    rewrite Forall_forall in Hwf.
    destruct (lookup_lt_is_Some_2 _ _ (Hwf a Ha)) as [ua Hua].
    destruct (lookup_lt_is_Some_2 _ _ (Hwf b Hb)) as [ub Hub].
    by rewrite Hua, Hub. }
  split; [|split].
  - intros page limit. unfold getUsers. by rewrite Heq.
  - apply sort_perm.
  - assert (Hsorted : StronglySorted (λ a b, localeCompare (nm a) (nm b) ≤ 0)
                        (sort (λ a b, localeCompare (nm a) (nm b)) (users st))).
    { apply (sort_sorted_total (λ a b, localeCompare (nm a) (nm b))).
      - intros a b. apply Htot.
      - intros a b c. apply Htrans. }
    assert (Hvalid : Forall (λ r, (r < length (heap st))%nat)
                       (sort (λ a b, localeCompare (nm a) (nm b)) (users st))).
    { apply Forall_forall. intros r Hr. rewrite sort_perm in Hr.
      unfold wf in Hwf. rewrite Forall_forall in Hwf. by apply Hwf. }
    revert Hsorted Hvalid. generalize (sort (λ a b, localeCompare (nm a) (nm b)) (users st)).
    intros us. induction 1 as [|r us Hs IH Hr]; intros Hvalid; [constructor|].
    apply Forall_cons in Hvalid as [Hv Hvs]. simpl.
    destruct (lookup_lt_is_Some_2 _ _ Hv) as [u Hu].
    unfold obj at 1. rewrite Hu. simpl. constructor; [by apply IH|].
    apply (Forall_names st (λ y, localeCompare (User.name u) y ≤ 0)); [done|].
    eapply Forall_impl; [exact Hr|]. intros b. unfold nm at 1, obj at 1.
    by rewrite Hu.
Qed.

(** With the names compared by their length, the first page of the seeded
    store begins with the shortest name. *)
Lemma getUsers_sorted_witness :
  let cmp := λ a b : string, Z.of_nat (String.length a) - Z.of_nat (String.length b) in
  let st := createInitialData 0 (λ _ _, (0, 0)%nat) in
  wf st ∧
  ∃ us, getUsers cmp st None None = (Resolve (paginate us (Int 1) (Int 10)), st)
        ∧ us ≡ₚ users st.
Proof.
  intros cmp st.
  assert (Hwf : wf st) by (apply (bool_decide_unpack _); vm_compute; exact I).
  split; [exact Hwf|].
  destruct (getUsers_sorted cmp st) as (us & Hpages & Hperm & _).
  - intros a b. unfold cmp. lia.
  - intros a b c. unfold cmp. lia.
  - exact Hwf.
  - exists us. split; [apply Hpages|exact Hperm].
Defined.

(** ** The regular expressions of the forms *)

Lemma star_spec (p : Ascii.ascii → bool) (pos : nat) (s : list Ascii.ascii)
    (k : nat → list Ascii.ascii → bool) :
  star p pos s k ↔
  ∃ pre suf, s = pre ++ suf ∧ Forall p pre ∧ k (pos + length pre)%nat suf.
Proof.
  revert pos. induction s as [|c s IH]; intros pos; simpl.
  - split.
    + intros Hk. exists [], []. by rewrite Nat.add_0_r.
    + intros (pre & suf & Heq & _ & Hk). symmetry in Heq.
      apply app_eq_nil in Heq as [-> ->]. by rewrite Nat.add_0_r in Hk.
  - rewrite orb_True, andb_True, IH. split.
    + intros [[Hc (pre & suf & -> & Hpre & Hk)]|Hk].
      * exists (c :: pre), suf. split; [done|]. split; [by constructor|].
        simpl. by rewrite Nat.add_succ_r.
      * exists [], (c :: s). by rewrite Nat.add_0_r.
    + intros ([|c' pre] & suf & Heq & Hpre & Hk).
      * right. simpl in Heq. subst suf. by rewrite Nat.add_0_r in Hk.
      * left. simpl in Heq. injection Heq as <- ->.
        apply Forall_cons in Hpre as [Hc Hpre]. split; [done|].
        exists pre, suf. split; [done|]. split; [done|].
        simpl in Hk. by rewrite Nat.add_succ_r in Hk.
Qed.

Lemma at_least_spec (n : nat) (p : Ascii.ascii → bool) (pos : nat) (s : list Ascii.ascii)
    (k : nat → list Ascii.ascii → bool) :
  matches (at_least n p) pos s k ↔
  ∃ pre suf, s = pre ++ suf ∧ Forall p pre ∧ (n ≤ length pre)%nat
             ∧ k (pos + length pre)%nat suf.
Proof.
  revert pos s. induction n as [|n IH]; intros pos s; simpl.
  - rewrite star_spec. split.
    + intros (pre & suf & ? & ? & ?). exists pre, suf. repeat split; [done..|lia|done].
    + intros (pre & suf & ? & ? & _ & ?). by exists pre, suf.
  - destruct s as [|c s].
    + split; [done|]. intros ([|c pre] & suf & Heq & _ & Hn & _); simpl in *; [lia|done].
    + rewrite andb_True, IH. split.
      * intros [Hc (pre & suf & -> & Hpre & Hn & Hk)].
        exists (c :: pre), suf. split; [done|]. split; [by constructor|].
        simpl. split; [lia|]. by rewrite Nat.add_succ_r.
      * intros ([|c' pre] & suf & Heq & Hpre & Hn & Hk); simpl in *; [lia|].
        injection Heq as <- ->. apply Forall_cons in Hpre as [Hc Hpre].
        split; [done|]. exists pre, suf. split; [done|]. split; [done|].
        split; [lia|]. by rewrite Nat.add_succ_r in Hk.
Qed.

(** [(?=.*c)]: a [c] follows, with no line terminator before it. *)
Lemma lookahead_spec (q : Ascii.ascii → bool) (pos : nat) (s : list Ascii.ascii) :
  matches (Seq (Star dot) (Class q)) pos s (λ _ _, true) ↔
  ∃ pre c suf, s = pre ++ c :: suf ∧ Forall dot pre ∧ q c.
Proof.
  simpl. rewrite star_spec. split.
  - intros (pre & [|c suf] & -> & Hpre & Hk); [done|].
    apply andb_True in Hk as [Hc _]. by exists pre, c, suf.
  - intros (pre & c & suf & -> & Hpre & Hc). exists pre, (c :: suf).
    split; [done|]. split; [done|]. by rewrite andb_True.
Qed.

Lemma test_from_spec (r : regex) (pos : nat) (s : list Ascii.ascii) :
  test_from r pos s ↔
  ∃ pre suf, s = pre ++ suf ∧ matches r (pos + length pre)%nat suf (λ _ _, true).
Proof.
  revert pos. induction s as [|c s IH]; intros pos; simpl; rewrite orb_True.
  - split.
    + intros [Hm|[]]. exists [], []. by rewrite Nat.add_0_r.
    + intros (pre & suf & Heq & Hm). symmetry in Heq.
      apply app_eq_nil in Heq as [-> ->]. left. by rewrite Nat.add_0_r in Hm.
  - rewrite IH. split.
    + intros [Hm|(pre & suf & -> & Hm)].
      * exists [], (c :: s). by rewrite Nat.add_0_r.
      * exists (c :: pre), suf. split; [done|]. simpl. by rewrite Nat.add_succ_r.
    + intros ([|c' pre] & suf & Heq & Hm); simpl in *.
      * left. subst suf. by rewrite Nat.add_0_r in Hm.
      * right. injection Heq as <- ->. exists pre, suf. split; [done|].
        by rewrite Nat.add_succ_r in Hm.
Qed.

Lemma allowed_dot (c : Ascii.ascii) : allowed c → dot c.
Proof.
  unfold dot. intros Hc.
  destruct (Ascii.eqb_spec c "010"%char) as [->|_]; [done|].
  destruct (Ascii.eqb_spec c "013"%char) as [->|_]; done.
Qed.

Lemma Exists_split {A} (P : A → Prop) (l : list A) :
  Exists P l ↔ ∃ pre c suf, l = pre ++ c :: suf ∧ P c.
Proof.
  rewrite Exists_exists. split.
  - intros (c & (pre & suf & ->)%list_elem_of_split & Hc). by exists pre, c, suf.
  - intros (pre & c & suf & -> & Hc). exists c. split; [|done].
    apply elem_of_app. right. by left.
Qed.

(** X16.  [validatePassword] accepts exactly the strings of at least eight
    characters, all of them letters [A-Za-z], digits or one of [@$!%*#?&],
    with at least one letter, one digit and one of the special characters
    among them. *)
Theorem validatePassword_spec (pass : string) :
  let cs := String.list_ascii_of_string pass in
  validatePassword pass ↔
  (8 ≤ length cs)%nat ∧ Forall allowed cs ∧
  Exists letter cs ∧ Exists digit cs ∧ Exists special cs.
Proof.
  cbv zeta. unfold validatePassword, test.
  generalize (String.list_ascii_of_string pass). intros cs.
  rewrite test_from_spec. split.
  - intros (pre & suf & -> & Hm). unfold password_regex in Hm.
    cbn [matches] in Hm. fold (matches (at_least 8 allowed)) in Hm.
    apply andb_True in Hm as [H0 Hm]. apply bool_decide_unpack in H0.
    destruct pre; [|simpl in H0; lia]. simpl in *. clear H0.
    apply andb_True in Hm as [Hl Hm]. apply andb_True in Hm as [Hd Hm].
    apply andb_True in Hm as [Hs Hm].
    change (Is_true (star dot 0 suf (λ pos' s', matches (Class ?q) pos' s' ?k)))
      with (Is_true (matches (Seq (Star dot) (Class q)) 0 suf k)) in Hl, Hd, Hs.
    apply lookahead_spec in Hl as (? & c1 & ? & -> & _ & H1).
    assert (Hl : Exists letter (x ++ c1 :: x0))
      by (apply Exists_split; eauto).
    revert Hl Hd Hs Hm. generalize (x ++ c1 :: x0). clear. intros cs Hl Hd Hs Hm.
    apply lookahead_spec in Hd as (? & c2 & ? & Heq & _ & H2).
    assert (Hd : Exists digit cs) by (apply Exists_split; eauto).
    clear Heq. apply lookahead_spec in Hs as (? & c3 & ? & Heq & _ & H3).
    assert (Hs : Exists special cs) by (apply Exists_split; eauto).
    clear Heq.
    change (Is_true (matches (at_least 8 allowed) 0 cs (λ pos' s', matches Eol pos' s' (λ _ _, true)))) in Hm.
    apply at_least_spec in Hm as (pre & [|] & -> & Hall & Hn & Hk); [|done].
    rewrite app_nil_r in *. done.
  - intros (Hn & Hall & Hl & Hd & Hs). exists [], cs. split; [done|].
    assert (Hlook : ∀ q : Ascii.ascii → bool, Exists q cs →
              Is_true (matches (Seq (Star dot) (Class q)) 0 cs (λ _ _, true))).
    { intros q (pre & c & suf & -> & Hc)%Exists_split. apply lookahead_spec.
      exists pre, c, suf. split; [done|]. split; [|done].
      apply Forall_app in Hall as [Hpre _].
      eapply Forall_impl; [exact Hpre|]. apply allowed_dot. }
    unfold password_regex. cbn [matches length Nat.add].
    fold (matches (at_least 8 allowed)).
    rewrite !andb_True. split; [done|].
    split; [apply (Hlook letter Hl)|]. split; [apply (Hlook digit Hd)|].
    split; [apply (Hlook special Hs)|].
    change (Is_true (matches (at_least 8 allowed) 0 cs (λ pos' s', matches Eol pos' s' (λ _ _, true)))).
    apply at_least_spec. exists cs, []. rewrite app_nil_r. done.
Qed.

Lemma plus_spec (p : Ascii.ascii → bool) (pos : nat) (s : list Ascii.ascii)
    (k : nat → list Ascii.ascii → bool) :
  matches (plus p) pos s k ↔
  ∃ c pre suf, s = c :: pre ++ suf ∧ p c ∧ Forall p pre
               ∧ k (S pos + length pre)%nat suf.
Proof.
  unfold plus. cbn [matches]. destruct s as [|c s].
  - split; [done|]. by intros (? & ? & ? & ? & _).
  - rewrite andb_True, star_spec. split.
    + intros (Hc & pre & suf & -> & Hpre & Hk). by exists c, pre, suf.
    + intros (c' & pre & suf & [= <- ->] & Hc & Hpre & Hk).
      split; [done|]. by exists pre, suf.
Qed.

Lemma class_spec (p : Ascii.ascii → bool) (pos : nat) (s : list Ascii.ascii)
    (k : nat → list Ascii.ascii → bool) :
  matches (Class p) pos s k ↔ ∃ c s', s = c :: s' ∧ p c ∧ k (S pos) s'.
Proof.
  cbn [matches]. destruct s as [|c s].
  - split; [done|]. by intros (? & ? & ? & _).
  - rewrite andb_True. split.
    + intros [Hc Hk]. by exists c, s.
    + by intros (c' & s' & [= <- <-] & Hc & Hk).
Qed.

Lemma nonempty_last {A} (c : A) (l : list A) : ∃ l' a, c :: l = l' ++ [a].
Proof.
  revert c. induction l as [|x l IH]; intros c.
  - by exists [], c.
  - destruct (IH x) as (l' & a & ->). by exists (c :: l'), a.
Qed.

(** X17.  The e-mail check of the sign-in form, [/\S+@\S+\.\S+/.test(email)],
    accepts exactly the strings that contain, somewhere, a character that is
    not white space, an [@], one or more characters that are not white
    space, a dot, and a character that is not white space.  It is not
    anchored: anything may stand before and after. *)
Theorem email_test_spec (email : string) :
  test email_regex email ↔
  ∃ pre a v c post,
    String.list_ascii_of_string email
    = pre ++ [a; "@"%char] ++ v ++ ["."%char; c] ++ post ∧
    nonspace a ∧ v ≠ [] ∧ Forall nonspace v ∧ nonspace c.
Proof.
  unfold test. generalize (String.list_ascii_of_string email). intros cs.
  rewrite test_from_spec. split.
  - intros (pre & suf & -> & Hm). unfold email_regex in Hm.
    change (Is_true (matches (plus nonspace) (0 + length pre) suf
              (λ pos' s', matches (Class (Ascii.eqb "@")) pos' s'
                 (λ pos' s', matches (plus nonspace) pos' s'
                    (λ pos' s', matches (Class (Ascii.eqb ".")) pos' s'
                       (λ pos' s', matches (plus nonspace) pos' s' (λ _ _, true))))))) in Hm.
    apply plus_spec in Hm as (u0 & u & s1 & -> & Hu0 & Hu & Hm).
    apply class_spec in Hm as (at_ & s2 & -> & Hat & Hm).
    apply plus_spec in Hm as (v0 & v & s3 & -> & Hv0 & Hv & Hm).
    apply class_spec in Hm as (dot_ & s4 & -> & Hdot & Hm).
    apply plus_spec in Hm as (c & w & post & -> & Hc & _ & _).
    apply Is_true_true, Ascii.eqb_eq in Hat.
    apply Is_true_true, Ascii.eqb_eq in Hdot. subst at_ dot_.
    destruct (nonempty_last u0 u) as (u' & a & Heq).
    assert (Ha : nonspace a).
    { assert (Hall : Forall nonspace (u0 :: u)) by by constructor.
      rewrite Heq in Hall. apply Forall_app in Hall as [_ Hall].
      by apply Forall_inv in Hall. }
    exists (pre ++ u'), a, (v0 :: v), c, (w ++ post).
    split; [|split; [done|split; [done|split; [by constructor|done]]]].
    rewrite (app_comm_cons u), Heq. simpl. by rewrite <- !app_assoc.
  - intros (pre & a & v & c & post & -> & Ha & Hne & Hv & Hc).
    destruct v as [|v0 v]; [done|]. apply Forall_cons in Hv as [Hv0 Hv].
    exists pre, ([a; "@"%char] ++ (v0 :: v) ++ ["."%char; c] ++ post).
    split; [done|]. unfold email_regex.
    change (Is_true (matches (plus nonspace) (0 + length pre)
              ([a; "@"%char] ++ (v0 :: v) ++ ["."%char; c] ++ post)
              (λ pos' s', matches (Class (Ascii.eqb "@")) pos' s'
                 (λ pos' s', matches (plus nonspace) pos' s'
                    (λ pos' s', matches (Class (Ascii.eqb ".")) pos' s'
                       (λ pos' s', matches (plus nonspace) pos' s' (λ _ _, true))))))).
    apply plus_spec. exists a, [], ("@"%char :: (v0 :: v) ++ ["."%char; c] ++ post).
    split; [done|]. split; [done|]. split; [constructor|].
    apply class_spec. eexists _, _. split; [reflexivity|]. split; [done|].
    apply plus_spec. exists v0, v, (["."%char; c] ++ post).
    split; [done|]. split; [done|]. split; [done|].
    apply class_spec. eexists _, _. split; [reflexivity|]. split; [done|].
    apply plus_spec. exists c, [], post. by rewrite app_nil_l.
Qed.

(** ** The sign-in form and the profile page *)

Lemma login_store (st : Store) (email password : string) :
  snd (login st email password) = st.
Proof.
  unfold login. destruct (find_user _ _) as [[r u]|]; [|done].
  by destruct (User.isBlocked u).
Qed.

Lemma elem_of_user_list (st : Store) (r : ref) (u : User.t) :
  r ∈ users st → obj st r = Some u → u ∈ user_list st.
Proof. intros Hr Ho. apply list_elem_of_omap. eauto. Qed.

(** X18.  Signing up through the form and then logging in through it.  When
    [handleSubmit] in sign-up mode hands a user to [onAuthSuccess], the name
    was not empty, the e-mail address and the password passed the checks,
    and [signup] resolved; the error is empty and [loading] is off.  A
    later [handleSubmit] in log-in mode with the same address and password
    hands over the same user. *)
Theorem Auth_signup_then_login (st : Store) (now : Z) (s : Auth.state) (r : ref) :
  wf st → Auth.isLogin s = false →
  snd (Auth.handleSubmit st now s) = Some r →
  let s' := fst (fst (Auth.handleSubmit st now s)) in
  let st' := snd (fst (Auth.handleSubmit st now s)) in
  Auth.name s ≠ "" ∧ test email_regex (Auth.email s) ∧
  validatePassword (Auth.password s) ∧
  signup st now (Auth.name s) (Auth.email s) (Auth.password s) = (Resolve r, st') ∧
  Auth.error s' = "" ∧ Auth.loading s' = false ∧
  ∀ now' s2,
    Auth.isLogin s2 = true → Auth.email s2 = Auth.email s →
    Auth.password s2 = Auth.password s →
    Auth.handleSubmit st' now' s2
    = (Auth.setLoading false (Auth.setError "" s2), st', Some r).
Proof.
  intros Hwf Hmode. unfold Auth.handleSubmit. cbn [Auth.isLogin Auth.setError
    Auth.name Auth.email Auth.password Auth.setLoading]. rewrite Hmode.
  cbn [negb andb]. unfold falsy.
  case_bool_decide as Hname; [done|].
  destruct (test email_regex (Auth.email s)) eqn:Hemail; [|done].
  destruct (validatePassword (Auth.password s)) eqn:Hpass; [|done].
  cbn [negb].
  destruct (decide (Exists (holds (heap st) (λ u, User.email u = Auth.email s)) (users st)))
    as [Hex|Hex].
  { unfold signup. by rewrite decide_True. }
  rewrite signup_fresh by done.
  set (newUser := User.mk _ _ _ _ _ _ _ _ _ _ _).
  cbn [fst snd]. intros [= <-].
  split; [done|]. split; [done|]. split; [done|]. split; [done|].
  split; [done|]. split; [done|].
  intros now' s2 Hmode2 He2 Hp2.
  cbn [Auth.isLogin Auth.setError Auth.name Auth.email Auth.password Auth.setLoading].
  rewrite Hmode2, He2, Hp2, Hemail, Hpass. cbn [negb andb].
  unfold login.
  rewrite (find_user_push st newUser (Auth.email s) (Auth.password s) Hwf Hex
             eq_refl eq_refl).
  done.
Qed.

Lemma Auth_signup_then_login_witness :
  let st := createInitialData 0 (λ _ _, (0, 0)%nat) in
  let s := Auth.mk false "New Student" "new@example.com" "Passw0rd@1" "" false in
  wf st ∧ snd (Auth.handleSubmit st 7 s) = Some 22%nat ∧
  snd (Auth.handleSubmit (snd (fst (Auth.handleSubmit st 7 s))) 8
         (Auth.mk true "" "new@example.com" "Passw0rd@1" "old error" false))
  = Some 22%nat.
Proof.
  intros st s.
  assert (Hwf : wf st) by (apply (bool_decide_unpack _); vm_compute; exact I).
  assert (Hs : snd (Auth.handleSubmit st 7 s) = Some 22%nat) by (vm_compute; reflexivity).
  split; [exact Hwf|]. split; [exact Hs|].
  destruct (Auth_signup_then_login st 7 s 22%nat Hwf eq_refl Hs)
    as (_ & _ & _ & _ & _ & _ & Hlogin).
  by rewrite Hlogin.
Defined.

(** X19.  The password rule holds for every stored password as long as the
    store is changed through the forms only: it holds in the seeded store,
    and [handleSubmit] of [Auth], [handlePasswordChange] and
    [handleProfileUpdate] of [Profile] keep it.  Hence the password check of
    the log-in form never turns away a user that [login] would accept. *)
Theorem forms_keep_password_policy :
  let policy := λ st : Store,
    wf st ∧
    Forall (λ u, ∃ p, User.password u = Some p ∧ validatePassword p) (user_list st) in
  (∀ now rand, policy (createInitialData now rand)) ∧
  (∀ st, policy st →
     (∀ now s, policy (snd (fst (Auth.handleSubmit st now s)))) ∧
     (∀ userId s, policy (snd (Profile.handlePasswordChange st userId s))) ∧
     (∀ userId s, policy (snd (fst (Profile.handleProfileUpdate st userId s)))) ∧
     (∀ now s r,
        Auth.isLogin s = true → test email_regex (Auth.email s) →
        fst (login st (Auth.email s) (Auth.password s)) = Resolve r →
        snd (Auth.handleSubmit st now s) = Some r)).
Proof.
  cbv zeta. split.
  { intros now rand. split; [apply (bool_decide_unpack _); vm_compute; exact I|].
    cut (Forall (λ u, from_option validatePassword false (User.password u) = true)
           (user_list (createInitialData now rand))).
    { intros Hall. eapply Forall_impl; [exact Hall|]. intros u Hu. simpl in Hu.
      destruct (User.password u) as [p|]; [|done]. exists p. split; [done|].
      simpl in Hu. by rewrite Hu. }
    apply (bool_decide_unpack _). vm_compute. exact I. }
  intros st [Hwf Hpol]. split; [|split; [|split]].
  - intros now s. unfold Auth.handleSubmit.
    cbn [Auth.isLogin Auth.setError Auth.name Auth.email Auth.password Auth.setLoading].
    destruct (negb (Auth.isLogin s) && falsy (Auth.name s)); [done|].
    destruct (negb (test email_regex (Auth.email s))); [done|].
    destruct (validatePassword (Auth.password s)) eqn:Hpass; [|done]. cbn [negb].
    destruct (Auth.isLogin s).
    + pose proof (login_store st (Auth.email s) (Auth.password s)) as Hst.
      destruct (login st (Auth.email s) (Auth.password s)) as [[r|e] st'];
        simpl in *; by subst st'.
    + destruct (decide (Exists (holds (heap st) (λ u, User.email u = Auth.email s))
                          (users st))) as [Hex|Hex].
      { unfold signup. by rewrite decide_True. }
      rewrite signup_fresh by done. cbn [fst snd].
      split; [by apply wf_push|]. rewrite user_list_push by done.
      apply Forall_app. split; [done|]. apply Forall_singleton.
      exists (Auth.password s). split; [done|]. by rewrite Hpass.
  - intros userId s. unfold Profile.handlePasswordChange.
    case_bool_decide; [done|].
    destruct (test password_regex (Profile.newPassword s)) eqn:Hpass; [|done].
    cbn [negb Profile.currentPassword Profile.newPassword Profile.setPassMessage
           Profile.setPassLoading].
    unfold changePassword.
    destruct (find_user st (λ u, User.id u = userId)) as [[r u]|] eqn:Hf; [|done].
    case_decide; [done|]. cbn [fst snd].
    apply find_user_elem in Hf as (Hr & Ho & _).
    split; [by apply wf_write|].
    apply Forall_user_list. rewrite Forall_user_list in Hpol.
    eapply Forall_impl; [exact Hpol|]. intros r' Hold u' Hu'. simpl in Hold.
    destruct (decide (r' = r)) as [->|Hne].
    + rewrite (obj_write_eq _ _ _ _ Ho) in Hu'. injection Hu' as <-.
      exists (Profile.newPassword s). split; [done|].
      unfold validatePassword. by rewrite Hpass.
    + rewrite obj_write_ne in Hu' by done. by apply Hold.
  - intros userId s. unfold Profile.handleProfileUpdate, updateProfile.
    destruct (find_user st (λ u, User.id u = userId)) as [[r u]|] eqn:Hf; [|done].
    cbn [fst snd]. apply find_user_elem in Hf as (Hr & Ho & _).
    split.
    + apply wf_replace; [done|]. intros r' Hr'. case_decide; lia.
    + unfold user_list, obj. cbn [heap users].
      rewrite (omap_replace (heap st) _ (λ o, User.id o = userId)) by done.
      apply Forall_fmap. eapply Forall_impl; [exact Hpol|].
      intros u' Hu'. simpl. case_decide; [|done].
      pose proof (elem_of_user_list st r u Hr Ho) as Hin.
      eapply Forall_forall in Hpol; [|exact Hin].
      destruct Hpol as (p & Hp & Hv). exists p. split; [|done].
      unfold spread_user. simpl. done.
  - intros now s r Hmode Hemail Hlogin. unfold Auth.handleSubmit.
    cbn [Auth.isLogin Auth.setError Auth.name Auth.email Auth.password Auth.setLoading].
    rewrite Hmode. cbn [negb andb].
    destruct (test email_regex (Auth.email s)); [|done]. cbn [negb].
    assert (Hpass : validatePassword (Auth.password s) = true).
    { unfold login in Hlogin.
      destruct (find_user st _) as [[r' u]|] eqn:Hf; [|done].
      apply find_user_elem in Hf as (Hr & Ho & _ & Hp).
      pose proof (elem_of_user_list st r' u Hr Ho) as Hin.
      eapply Forall_forall in Hpol; [|exact Hin].
      destruct Hpol as (p & Hp' & Hv). rewrite Hp in Hp'. injection Hp' as <-.
      by apply Is_true_true. }
    rewrite Hpass. cbn [negb]. by rewrite Hlogin.
Qed.

Lemma forms_keep_password_policy_witness :
  let st := createInitialData 0 (λ _ _, (0, 0)%nat) in
  let s := Auth.mk true "" "student@example.com" "Student@1234!" "" false in
  snd (Auth.handleSubmit st 1 s) = Some 1%nat.
Proof.
  intros st s.
  destruct forms_keep_password_policy as [Hseed Hkeep].
  destruct (Hkeep st (Hseed 0 (λ _ _, (0, 0)%nat))) as (_ & _ & _ & Hlogin).
  apply Hlogin; by vm_compute.
Defined.

(** ** The pagination control and the tabs *)

Lemma page_length {A} (items : list A) (page limit : Z) :
  1 ≤ page → 1 ≤ limit →
  Z.of_nat (length (data (paginate items (Int page) (Int limit))))
  = Z.max 0 (Z.min limit (Z.of_nat (length items) - (page - 1) * limit)).
Proof.
  intros Hp Hl. rewrite paginate_data by done.
  rewrite length_take, length_drop. nia.
Qed.

Lemma page_nonempty {A} (items : list A) (page limit : Z) :
  1 ≤ page → 1 ≤ limit →
  data (paginate items (Int page) (Int limit)) ≠ []
  ↔ (page - 1) * limit < Z.of_nat (length items).
Proof.
  intros Hp Hl. pose proof (page_length items page limit Hp Hl) as Hlen.
  destruct (data _) as [|x l]; simpl in Hlen; (split; [intros ?|intros ? ?]); try done; lia.
Qed.

(** X20.  The buttons of [Pagination] never lead off the listing.  For a
    page within the pages of a listing with a page size of at least 1, the
    control is rendered unless everything fits on one page; [Previous] is
    disabled on page 1 only and [Next] on the last page only, and a button
    that is not disabled asks for a page that has entries. *)
Theorem Pagination_buttons {A} (items : list A) (limit page : Z) :
  1 ≤ limit → 1 ≤ page →
  NumOps.le (Int page) (totalPages (paginate items (Int page) (Int limit))) →
  match Pagination (Int page) (totalPages (paginate items (Int page) (Int limit))) with
  | None => Z.of_nat (length items) ≤ limit
  | Some v =>
      limit < Z.of_nat (length items) ∧
      disabled (Previous v) = bool_decide (page = 1) ∧
      onClick (Previous v) = Int (page - 1) ∧
      onClick (Next v) = Int (page + 1) ∧
      (disabled (Previous v) = false →
         data (paginate items (Int (page - 1)) (Int limit)) ≠ []) ∧
      (disabled (Next v) = false ↔
         data (paginate items (Int (page + 1)) (Int limit)) ≠ [])
  end.
Proof.
  intros Hl Hp. rewrite paginate_totalPages by done.
  pose proof (ceil_div_bounds (Z.of_nat (length items)) limit ltac:(lia)) as Hn.
  remember (- ((- Z.of_nat (length items)) / limit)) as n eqn:En. clear En.
  unfold Pagination, NumOps.le, NumOps.ge, NumOps.le, NumOps.add, Num.sub.
  intros Hle%bool_decide_unpack.
  case_bool_decide as Hone; [nia|]. cbn [Previous Next disabled onClick].
  split; [nia|]. split.
  { apply bool_decide_ext. lia. }
  split; [done|]. split; [done|]. split.
  - intros Hprev%bool_decide_eq_false. apply page_nonempty; [lia|done|nia].
  - rewrite bool_decide_eq_false, page_nonempty by lia. split; intros; nia.
Qed.

Lemma Pagination_buttons_witness :
  let items := seq 0 12 in
  1 ≤ 5 ∧ 1 ≤ 3 ∧
  (disabled <$> (Next <$> Pagination (Int 3) (totalPages (paginate items (Int 3) (Int 5)))))
  = Some true.
Proof.
  intros items. split; [lia|]. split; [lia|].
  pose proof (Pagination_buttons items 5 3 ltac:(lia) ltac:(lia)) as H.
  assert (Htp : totalPages (paginate items (Int 3) (Int 5)) = Int 3) by by vm_compute.
  rewrite Htp in *. specialize (H I).
  destruct (Pagination (Int 3) (Int 3)) as [v|]; [|by vm_compute in H].
  destruct H as (_ & _ & _ & _ & _ & Hnext). simpl.
  destruct (disabled (Next v)); [done|].
  exfalso. by apply (proj1 Hnext eq_refl).
Defined.

Lemma length_filter_remove (l : list Feedback.t) (f : Feedback.t) :
  NoDup (Feedback.id <$> l) → f ∈ l →
  (length (filter (λ g, Feedback.id g ≠ Feedback.id f) l) + 1 = length l)%nat.
Proof.
  induction l as [|x l IH]; [by intros _ ?%elem_of_nil|].
  rewrite fmap_cons, NoDup_cons. intros [Hx Hnd] Hf.
  destruct (decide (Feedback.id x = Feedback.id f)) as [Heq|Hne].
  - rewrite filter_cons_False by (intros Hn; by apply Hn).
    assert (Hall : Forall (λ g, Feedback.id g ≠ Feedback.id f) l).
    { apply Forall_forall. intros g Hg Hgf. apply Hx. rewrite Heq, <- Hgf.
      by apply list_elem_of_fmap_2. }
    assert (Hfil : filter (λ g, Feedback.id g ≠ Feedback.id f) l = l).
    { clear -Hall. induction Hall as [|y l Hy _ IH]; [done|].
      by rewrite filter_cons_True, IH. }
    rewrite Hfil. simpl. lia.
  - rewrite filter_cons_True by done. simpl.
    apply elem_of_cons in Hf as [->|Hf]; [done|]. rewrite <- (IH Hnd Hf). lia.
Qed.

(** X21.  Deleting a feedback from the student's list never leaves the
    student on an empty page.  With unique feedback ids, when the student
    deletes one of the entries shown on page [p], the tab ends up on page
    [p - 1] if that entry was the only one on a page after the first, and
    on page [p] otherwise; it shows that page of the remaining feedback,
    which has entries unless the student has no feedback left. *)
Theorem StudentView_handleDelete_lands (st : Store) (user : User.t)
    (s : StudentView.FeedbackTab.state) (f : Feedback.t) (p : Z) :
  NoDup (Feedback.id <$> feedbacks st) →
  1 ≤ p →
  StudentView.FeedbackTab.currentPage s = Int p →
  StudentView.FeedbackTab.feedbacks s
  = data_of (getStudentFeedback st (User.id user) (Some (Int p))
               (Some (Int StudentView.ITEMS_PER_PAGE))) →
  f ∈ StudentView.FeedbackTab.feedbacks s →
  let r := StudentView.FeedbackTab.handleDelete true st (Some user) s (Feedback.id f) in
  let p' := if bool_decide (length (StudentView.FeedbackTab.feedbacks s) = 1%nat ∧ 1 < p)
            then p - 1 else p in
  snd r = snd (deleteFeedback st (Feedback.id f)) ∧
  StudentView.FeedbackTab.currentPage (fst r) = Int p' ∧ 1 ≤ p' ∧
  StudentView.FeedbackTab.loading (fst r) = false ∧
  StudentView.FeedbackTab.feedbacks (fst r)
  = data_of (getStudentFeedback (snd r) (User.id user) (Some (Int p'))
               (Some (Int StudentView.ITEMS_PER_PAGE))) ∧
  (StudentView.FeedbackTab.feedbacks (fst r) = [] →
   Forall (λ g, Feedback.studentId g ≠ User.id user) (feedbacks (snd r))).
Proof.
  intros Hnd Hp Hcur Hshown Hf. cbv zeta.
  unfold StudentView.FeedbackTab.handleDelete. rewrite Hcur.
  unfold NumOps.gt, NumOps.lt, Num.sub.
  set (st' := snd (deleteFeedback st (Feedback.id f))).
  set (one := length (StudentView.FeedbackTab.feedbacks s) = 1%nat).
  assert (Hcond : (bool_decide one && bool_decide (1 < p))
                  = bool_decide (one ∧ 1 < p)).
  { apply eq_true_iff_eq. rewrite andb_true_iff, !bool_decide_eq_true. tauto. }
  rewrite Hcond. clear Hcond.
  set (p' := if bool_decide (one ∧ 1 < p) then p - 1 else p).
  assert (Hfetch : ∀ s0, StudentView.FeedbackTab.currentPage s0 = Int p' →
            let s1 := StudentView.FeedbackTab.fetchFeedback st' (Some user) s0 in
            StudentView.FeedbackTab.currentPage s1 = Int p' ∧
            StudentView.FeedbackTab.loading s1 = false ∧
            StudentView.FeedbackTab.feedbacks s1
            = data_of (getStudentFeedback st' (User.id user) (Some (Int p'))
                         (Some (Int StudentView.ITEMS_PER_PAGE)))).
  { intros s0 H0. unfold StudentView.FeedbackTab.fetchFeedback. simpl. by rewrite H0. }
  assert (Hres : (if bool_decide (one ∧ 1 < p)
                  then (StudentView.FeedbackTab.fetchFeedback st' (Some user)
                          (StudentView.FeedbackTab.setCurrentPage (Int (p - 1)) s), st')
                  else (StudentView.FeedbackTab.fetchFeedback st' (Some user) s, st'))
                 = (StudentView.FeedbackTab.fetchFeedback st' (Some user)
                      (StudentView.FeedbackTab.setCurrentPage (Int p') s), st')).
  { subst p'. case_bool_decide; [done|]. f_equal. f_equal.
    destruct s; simpl in *. by rewrite Hcur. }
  rewrite Hres. clear Hres. cbn [fst snd].
  destruct (Hfetch (StudentView.FeedbackTab.setCurrentPage (Int p') s) eq_refl)
    as (Hc & Hl & Hd).
  split; [done|]. split; [exact Hc|].
  assert (Hp' : 1 ≤ p') by (subst p'; case_bool_decide; lia).
  split; [exact Hp'|]. split; [exact Hl|]. split; [exact Hd|].
  rewrite Hd. clear Hfetch Hc Hl Hd.
  (* the lengths of the student's list before and after *)
  set (mine := λ g : Feedback.t, Feedback.studentId g = User.id user).
  set (fs := sort newest_first (filter mine (feedbacks st))).
  set (fs' := sort newest_first (filter mine (feedbacks st'))).
  assert (Hdata : ∀ q, 1 ≤ q →
            data_of (getStudentFeedback st (User.id user) (Some (Int q))
                       (Some (Int StudentView.ITEMS_PER_PAGE)))
            = data (paginate fs (Int q) (Int 5))) by done.
  assert (Hdata' : data_of (getStudentFeedback st' (User.id user) (Some (Int p'))
                              (Some (Int StudentView.ITEMS_PER_PAGE)))
                   = data (paginate fs' (Int p') (Int 5))) by done.
  rewrite Hdata'. rewrite Hdata in Hshown by done.
  assert (Hin : f ∈ filter mine (feedbacks st)).
  { rewrite Hshown, paginate_data in Hf by lia.
    apply subseteq_take, subseteq_drop in Hf. subst fs. by rewrite sort_perm in Hf. }
  assert (Hlen : (length fs' + 1 = length fs)%nat).
  { subst fs fs'. rewrite !sort_length. subst st'. cbn [deleteFeedback snd feedbacks].
    rewrite list_filter_filter.
    rewrite (list_filter_iff _ (λ g, Feedback.id g ≠ Feedback.id f ∧ mine g))
      by (intros; tauto).
    rewrite <- list_filter_filter. apply length_filter_remove; [|done].
    eapply sublist_NoDup; [exact Hnd|]. apply fmap_sublist, sublist_filter. }
  pose proof (page_length fs p 5 Hp ltac:(lia)) as Hshown_len.
  rewrite <- Hshown in Hshown_len.
  pose proof (page_length fs' p' 5 Hp' ltac:(lia)) as Hnew_len.
  assert (Hpos : (0 < length (StudentView.FeedbackTab.feedbacks s))%nat)
    by (destruct (StudentView.FeedbackTab.feedbacks s); [by apply elem_of_nil in Hf|simpl; lia]).
  intros Hnil. rewrite Hnil in Hnew_len. simpl in Hnew_len.
  assert (Hzero : length fs' = 0%nat).
  { subst p' one. case_bool_decide as Hc; lia. }
  subst fs'. rewrite sort_length in Hzero. apply nil_length_inv in Hzero.
  apply Forall_forall. intros g Hg Hmine.
  assert (Hgin : g ∈ filter mine (feedbacks st')) by by apply list_elem_of_filter.
  rewrite Hzero in Hgin. by apply elem_of_nil in Hgin.
Qed.

Lemma StudentView_handleDelete_lands_witness :
  let st := createInitialData 0 (λ _ _, (0, 0)%nat) in
  let user := User.mk "user-2" "Student User" "student@example.com" None STUDENT
                None None None None false 0 in
  let s := StudentView.FeedbackTab.fetchFeedback st (Some user)
             (StudentView.FeedbackTab.mk [] true false None (Int 1) (Int 0)) in
  ∃ f, f ∈ StudentView.FeedbackTab.feedbacks s ∧
       length (StudentView.FeedbackTab.feedbacks
                 (fst (StudentView.FeedbackTab.handleDelete true st (Some user) s
                         (Feedback.id f)))) = 4%nat.
Proof.
  intros st user s.
  assert (Hnd : NoDup (Feedback.id <$> feedbacks st))
    by (apply (bool_decide_unpack _); vm_compute; exact I).
  assert (Hf : ∃ f, StudentView.FeedbackTab.feedbacks s !! 0%nat = Some f
                    ∧ Feedback.id f = "feedback-1")
    by (eexists; split; vm_compute; reflexivity).
  destruct Hf as (f & Hf & Hid). exists f.
  pose proof (list_elem_of_lookup_2 _ _ _ Hf) as Hin. split; [exact Hin|].
  destruct (StudentView_handleDelete_lands st user s f 1 Hnd ltac:(lia) eq_refl
              eq_refl Hin) as (_ & _ & _ & _ & Hshown & _).
  rewrite Hshown, Hid. by vm_compute.
Defined.

(** ** The administrator's courses tab *)

(** X22.  The courses tab shows the stored courses.  If its list has the
    courses of the store, in any order, it still has after [handleSubmit]
    and after [handleDelete], and [fetchCourses] makes it the stored list.
    Only the order may differ: a course that was added is first in the tab
    and last in the store. *)
Theorem CoursesTab_in_sync (st : Store) (s : AdminView.CoursesTab.state) :
  AdminView.CoursesTab.courses (AdminView.CoursesTab.fetchCourses st s) = courses st ∧
  (AdminView.CoursesTab.courses s ≡ₚ courses st →
   (∀ now,
      AdminView.CoursesTab.courses (fst (AdminView.CoursesTab.handleSubmit st now s))
      ≡ₚ courses (snd (AdminView.CoursesTab.handleSubmit st now s))) ∧
   (∀ confirm id,
      AdminView.CoursesTab.courses
        (fst (AdminView.CoursesTab.handleDelete confirm st s id))
      ≡ₚ courses (snd (AdminView.CoursesTab.handleDelete confirm st s id))) ∧
   (∀ now, AdminView.CoursesTab.editingCourse s = None →
      ∃ newCourse,
        AdminView.CoursesTab.courses (fst (AdminView.CoursesTab.handleSubmit st now s))
        = newCourse :: AdminView.CoursesTab.courses s ∧
        courses (snd (AdminView.CoursesTab.handleSubmit st now s))
        = courses st ++ [newCourse] ∧
        Course.name newCourse = AdminView.CoursesTab.name s ∧
        Course.id newCourse = "course-" +:+ toString (length (courses st) + 1))).
Proof.
  split; [done|]. intros Hsync. split; [|split].
  - intros now. unfold AdminView.CoursesTab.handleSubmit.
    destruct (AdminView.CoursesTab.editingCourse s) as [editing|].
    + unfold updateCourse.
      destruct (list_find_snd (λ c, Course.id c = Course.id editing) (courses st))
        as [_ Hsome].
      destruct (snd <$> list_find _ _) as [found|]; [|done].
      destruct (Hsome found eq_refl) as [_ Hid].
      cbn [fst snd AdminView.CoursesTab.courses AdminView.CoursesTab.closeModal
             AdminView.CoursesTab.setCourses courses].
      unfold spread_course at 1 2. cbn [Course.id PartialCourse.id default].
      rewrite Hsync.
      match goal with
      | |- ?f <$> _ ≡ₚ ?g <$> _ => rewrite (list_fmap_ext f g (courses st)); [done|]
      end.
      intros i c _. simpl.
      destruct (decide (Course.id c = Course.id found)),
               (decide (Course.id c = Course.id editing)); congruence.
    + cbn [fst snd addCourse AdminView.CoursesTab.courses AdminView.CoursesTab.closeModal
             AdminView.CoursesTab.setCourses courses].
      rewrite Hsync. by rewrite Permutation_cons_append.
  - intros [] id; [|done].
    cbn [fst snd AdminView.CoursesTab.handleDelete AdminView.CoursesTab.courses
           AdminView.CoursesTab.setCourses deleteCourse courses].
    by rewrite Hsync.
  - intros now Hnew. unfold AdminView.CoursesTab.handleSubmit. rewrite Hnew.
    eexists. cbn [fst snd addCourse AdminView.CoursesTab.courses
                    AdminView.CoursesTab.closeModal AdminView.CoursesTab.setCourses courses].
    done.
Qed.

Lemma CoursesTab_in_sync_witness :
  let st := createInitialData 0 (λ _ _, (0, 0)%nat) in
  let s := AdminView.CoursesTab.mk (reverse (courses st)) false true None
             "Rocq" "Proofs" "" "" in
  AdminView.CoursesTab.courses s ≡ₚ courses st ∧
  AdminView.CoursesTab.courses (fst (AdminView.CoursesTab.handleSubmit st 3 s))
  ≡ₚ courses (snd (AdminView.CoursesTab.handleSubmit st 3 s)).
Proof.
  intros st s.
  assert (Hsync : AdminView.CoursesTab.courses s ≡ₚ courses st)
    by apply reverse_Permutation.
  split; [exact Hsync|].
  exact (proj1 (proj2 (CoursesTab_in_sync st s) Hsync) 3).
Defined.

(** ** Ratings *)

Lemma seed_ratings (now : Z) (rand : nat → nat → nat * nat) :
  Forall (λ f, 1 ≤ Feedback.rating f ≤ 5) (feedbacks (createInitialData now rand)).
Proof.
  unfold createInitialData. cbn [feedbacks]. unfold seed_feedbacks.
  apply Forall_bind, Forall_forall. intros i _. unfold compose.
  apply Forall_bind, Forall_forall. intros j _. unfold compose.
  apply Forall_singleton. unfold seed_feedback. cbn [Feedback.rating].
  pose proof (Nat.mod_upper_bound (snd (rand i j)) 5). lia.
Qed.

(** X23.  Ratings stay between 1 and 5.  They are in the seeded store, and
    when the feedback form is submitted with a rating that is its initial
    one or was chosen by a click on one of the five stars, they are again
    afterwards: the form does not submit the rating 0 that it starts a new
    feedback with. *)
Theorem FeedbackForm_keeps_ratings :
  let ok := λ st : Store, Forall (λ f, 1 ≤ Feedback.rating f ≤ 5) (feedbacks st) in
  (∀ now rand, ok (createInitialData now rand)) ∧
  (∀ st now user courses initialFeedback s,
     ok st →
     from_option (λ f, f ∈ feedbacks st) True initialFeedback →
     (StudentView.FeedbackForm.rating s
      = StudentView.FeedbackForm.rating
          (StudentView.FeedbackForm.init courses initialFeedback)
      ∨ ∃ rating star, star ∈ Rating 5 rating
                       ∧ StudentView.FeedbackForm.rating s = rate star) →
     ok (snd (fst (StudentView.FeedbackForm.handleSubmit st now user initialFeedback s)))).
Proof.
  cbv zeta. split; [apply seed_ratings|].
  intros st now user courses initialFeedback s Hok Hinit Hrating.
  unfold StudentView.FeedbackForm.handleSubmit.
  destruct user as [user|]; [|done].
  destruct (falsy (StudentView.FeedbackForm.courseId s)); [done|].
  case_bool_decide as Hzero; [done|].
  destruct (falsy (StudentView.FeedbackForm.message s)); [done|].
  cbn [orb StudentView.FeedbackForm.setLoading StudentView.FeedbackForm.courseId
         StudentView.FeedbackForm.rating StudentView.FeedbackForm.message].
  assert (Hr : 1 ≤ StudentView.FeedbackForm.rating s ≤ 5).
  { destruct Hrating as [Hr|(rating & star & Hstar & Hr)].
    - rewrite Hr in *. unfold StudentView.FeedbackForm.init in *.
      cbn [StudentView.FeedbackForm.rating] in *.
      destruct initialFeedback as [f|]; [|done]. simpl in *.
      eapply Forall_forall in Hok; [|exact Hinit].
      unfold or_number. case_decide; lia.
    - rewrite Hr. unfold Rating in Hstar.
      apply list_elem_of_fmap in Hstar as (i & -> & Hi).
      apply elem_of_seq in Hi. simpl. lia. }
  destruct initialFeedback as [f0|].
  - unfold updateFeedback.
    destruct (snd <$> list_find _ _) as [found|]; [|done].
    cbn [fst snd feedbacks]. apply Forall_fmap.
    eapply Forall_impl; [exact Hok|]. intros f Hf. simpl.
    case_decide; [|done]. by unfold spread_feedback.
  - cbn [fst snd addFeedback feedbacks]. by constructor.
Qed.

Lemma FeedbackForm_keeps_ratings_witness :
  let st := createInitialData 0 (λ _ _, (0, 0)%nat) in
  let user := User.mk "user-2" "Student User" "student@example.com" None STUDENT
                None None None None false 0 in
  let s := StudentView.FeedbackForm.setRating 4
             (StudentView.FeedbackForm.mk "course-1" 0 "Good" false) in
  Forall (λ f, 1 ≤ Feedback.rating f ≤ 5)
    (feedbacks (snd (fst (StudentView.FeedbackForm.handleSubmit st 9 (Some user) None s)))).
Proof.
  intros st user s.
  destruct FeedbackForm_keeps_ratings as [Hseed Hkeep].
  apply (Hkeep st 9 (Some user) [] None s (Hseed _ _) I).
  right. exists 0, (mkStar false 4). split; [|reflexivity].
  by apply (list_elem_of_lookup_2 _ 3%nat).
Defined.

(** X24.  With ratings from 1 to 5, of fewer than [2^41] feedback, every
    average that [getCourseRatings] returns is between 1.00 and 5.00, or is
    0 for a course without feedback: the chart's axis from 0 to 5 holds
    them all. *)
Theorem course_ratings_in_range (st : Store) :
  Forall (λ f, 1 ≤ Feedback.rating f ≤ 5) (feedbacks st) →
  Z.of_nat (length (feedbacks st)) < 2 ^ 41 →
  ∃ rs, getCourseRatings st = (Resolve rs, st) ∧
    Forall (λ r, avgRating r = 0 ∨ 100 ≤ avgRating r ≤ 500) rs ∧
    ∀ c, c ∈ courses st →
      (∃ r, r ∈ rs ∧ rating_name r = Course.name c ∧
            (avgRating r = 0 ↔
             Forall (λ f, Feedback.courseId f ≠ Course.id c) (feedbacks st))).
Proof.
  intros Hok Hlen. eexists. split; [reflexivity|].
  set (m := foldl add_rating ∅ (feedbacks st)).
  assert (Hmean : ∀ c,
            let fs := filter (λ f, Feedback.courseId f = Course.id c) (feedbacks st) in
            (fs = [] ∧ avgRating (course_rating m c) = 0) ∨
            (fs ≠ [] ∧ 100 ≤ avgRating (course_rating m c) ≤ 500)).
  { intros c fs. subst m. rewrite course_rating_mean. fold fs. cbn [avgRating].
    destruct (decide (fs = [])) as [Hnil|Hne].
    - left. split; [done|]. rewrite Hnil. by vm_compute.
    - right. split; [done|].
      assert (Hfs : Forall (λ f, 1 ≤ Feedback.rating f ≤ 5) fs).
      { apply Forall_forall. intros f [_ Hf]%list_elem_of_filter.
        eapply Forall_forall in Hok; [exact Hok|done]. }
      pose proof (sum_ratings_bounds fs Hfs) as Hsum.
      assert (Hle : (length fs ≤ length (feedbacks st))%nat) by apply length_filter.
      assert (Hpos : 0 < Z.of_nat (length fs)) by (destruct fs; simpl; [done|lia]).
      assert (H41 : 2 ^ 41 * 8 = 2 ^ 44) by done.
      assert (H53 : 2 ^ 41 * 4096 = 2 ^ 53) by done.
      pose proof (mean_rating_nearest fs Hne ltac:(lia) ltac:(lia)) as Hnear.
      revert Hnear Hsum Hpos. clear.
      generalize (mean_rating fs), (sum_ratings fs), (Z.of_nat (length fs)).
      intros a t n. nia. }
  split.
  - apply Forall_forall. intros r Hr. rewrite sort_perm in Hr.
    apply list_elem_of_fmap in Hr as (c & -> & _).
    destruct (Hmean c) as [[_ H0]|[_ H1]]; [by left|by right].
  - intros c Hc. exists (course_rating m c). split.
    { rewrite sort_perm. by apply list_elem_of_fmap_2. }
    split; [done|].
    destruct (Hmean c) as [[Hnil H0]|[Hne H1]].
    + split; [|done]. intros _. apply Forall_forall. intros f Hf Hfc.
      assert (Hin : f ∈ filter (λ f, Feedback.courseId f = Course.id c) (feedbacks st))
        by by apply list_elem_of_filter.
      rewrite Hnil in Hin. by apply elem_of_nil in Hin.
    + split; [lia|]. intros Hall. exfalso. apply Hne.
      clear -Hall. induction Hall as [|f l Hf _ IH]; [done|].
      by rewrite filter_cons_False.
Qed.

Lemma course_ratings_in_range_witness :
  let st := createInitialData 0 (λ i j, (i, j)%nat) in
  ∃ rs, getCourseRatings st = (Resolve rs, st) ∧
        Forall (λ r, avgRating r = 0 ∨ 100 ≤ avgRating r ≤ 500) rs.
Proof.
  intros st.
  destruct (course_ratings_in_range st (seed_ratings _ _)) as (rs & Hrs & Hall & _).
  - by vm_compute.
  - exists rs. split; assumption.
Defined.

(** ** The administrator's students tab *)

Lemma write_write_id (st : Store) (r : ref) (u u' : User.t) :
  obj st r = Some u → write r u (write r u' st) = st.
Proof.
  intros Ho. unfold write. destruct st as [h us cs fs]. simpl in *. f_equal.
  unfold obj in Ho. simpl in Ho.
  rewrite list_insert_insert_eq. by apply list_insert_id.
Qed.

(** X25.  Blocking from the students tab.  When the object of a row is the
    first user with its id, [handleToggleBlock] flips [isBlocked] of that
    object and of no other, the table afterwards has the rows that
    [getUsers] gave before, in the same order, and a second click gives the
    store back as it was. *)
Theorem StudentsTab_handleToggleBlock (localeCompare : string → string → Z)
    (st : Store) (s : AdminView.StudentsTab.state) (r : ref) (u : User.t) :
  find_user st (λ x, User.id x = User.id u) = Some (r, u) →
  let res := AdminView.StudentsTab.handleToggleBlock localeCompare st s r in
  obj (snd res) r = Some (set_isBlocked u (negb (User.isBlocked u))) ∧
  (∀ r', r' ≠ r → obj (snd res) r' = obj st r') ∧
  users (snd res) = users st ∧
  AdminView.StudentsTab.users (fst res)
  = data_of (getUsers localeCompare st (Some (AdminView.StudentsTab.currentPage s)) None) ∧
  AdminView.StudentsTab.currentPage (fst res) = AdminView.StudentsTab.currentPage s ∧
  snd (AdminView.StudentsTab.handleToggleBlock localeCompare (snd res) (fst res) r) = st.
Proof.
  intros Hf. pose proof Hf as (Hr & Ho & _)%find_user_elem.
  set (u' := set_isBlocked u (negb (User.isBlocked u))).
  set (st' := write r u' st).
  assert (Hres : AdminView.StudentsTab.handleToggleBlock localeCompare st s r
                 = (AdminView.StudentsTab.fetchUsers localeCompare st' s, st')).
  { unfold AdminView.StudentsTab.handleToggleBlock, updateUserStatus.
    by rewrite Ho, Hf. }
  assert (Ho' : obj st' r = Some u') by by eapply obj_write_eq.
  assert (Hf' : find_user st' (λ x, User.id x = User.id u') = Some (r, u')).
  { apply (find_user_write st (λ x, User.id x = User.id u) r u u'); done. }
  assert (Hback : write r (set_isBlocked u' (negb (User.isBlocked u'))) st' = st).
  { assert (set_isBlocked u' (negb (User.isBlocked u')) = u) as ->.
    { subst u'. destruct u. simpl. by rewrite negb_involutive. }
    by apply write_write_id. }
  cbv zeta. rewrite Hres. cbn [fst snd].
  split; [exact Ho'|]. split; [intros r' Hne; by apply obj_write_ne|].
  split; [done|]. split; [|split].
  - unfold AdminView.StudentsTab.fetchUsers, data_of, getUsers.
    cbn [fst AdminView.StudentsTab.users].
    assert (sort (by_name localeCompare st') (users st')
            = sort (by_name localeCompare st) (users st)) as ->; [|done].
    cbn [users write st']. apply sort_ext. intros a b _ _.
    assert (Hname : ∀ x, (User.name <$> obj st' x) = (User.name <$> obj st x)).
    { intros x. destruct (decide (x = r)) as [->|Hne].
      - by rewrite Ho', Ho.
      - unfold st'. by rewrite obj_write_ne. }
    unfold by_name. pose proof (Hname a) as Ha. pose proof (Hname b) as Hb.
    destruct (obj st' a), (obj st' b), (obj st a), (obj st b); simpl in *;
      congruence.
  - unfold AdminView.StudentsTab.fetchUsers, getUsers. done.
  - unfold AdminView.StudentsTab.handleToggleBlock, updateUserStatus.
    rewrite Ho'. change (User.id u') with (User.id u) in Hf' |- *.
    rewrite Hf'. cbn [fst snd]. exact Hback.
Qed.

Lemma StudentsTab_handleToggleBlock_witness :
  let st := createInitialData 0 (λ _ _, (0, 0)%nat) in
  let cmp := λ a b : string, Z.of_nat (String.length a) - Z.of_nat (String.length b) in
  let s := AdminView.StudentsTab.fetchUsers cmp st
             (AdminView.StudentsTab.mk [] true (Int 1) (Int 0)) in
  (User.isBlocked <$> obj (snd (AdminView.StudentsTab.handleToggleBlock cmp st s 2%nat))
                        2%nat)
  = Some true.
Proof.
  intros st cmp s.
  assert (Hu : ∃ u, find_user st (λ x, User.id x = User.id u) = Some (2%nat, u)
                    ∧ User.isBlocked u = false).
  { exists (seed_student 0 3). split; by vm_compute. }
  destruct Hu as (u & Hf & Hb).
  destruct (StudentsTab_handleToggleBlock cmp st s 2%nat u Hf) as (Ho & _).
  rewrite Ho. simpl. by rewrite Hb.
Defined.

Lemma length_filter_holds_remove (h : list User.t) (rs : list ref) (r : ref) (u : User.t) :
  Forall (λ x, (x < length h)%nat) rs →
  NoDup (User.id <$> omap (λ x, h !! x) rs) →
  r ∈ rs → h !! r = Some u →
  (length (filter (holds h (λ x, User.id x ≠ User.id u)) rs) + 1 = length rs)%nat.
Proof.
  intros Hwf. induction Hwf as [|x rs Hx Hwf IH]; [by intros _ ?%elem_of_nil|].
  destruct (lookup_lt_is_Some_2 _ _ Hx) as [ux Hux].
  cbn [omap list_omap]. rewrite Hux. rewrite fmap_cons, NoDup_cons.
  intros [Hnotin Hnd] Hr Hu.
  assert (Hids : ∀ y uy, y ∈ rs → h !! y = Some uy →
            User.id uy ∈ User.id <$> omap (λ x, h !! x) rs).
  { intros y uy Hy Huy. apply list_elem_of_fmap_2, list_elem_of_omap. eauto. }
  destruct (decide (User.id ux = User.id u)) as [Heq|Hne].
  - rewrite filter_cons_False by (unfold holds; rewrite Hux; simpl; tauto).
    assert (Hall : Forall (holds h (λ x, User.id x ≠ User.id u)) rs).
    { apply Forall_forall. intros y Hy. unfold holds.
      eapply Forall_forall in Hwf; [|exact Hy].
      destruct (lookup_lt_is_Some_2 _ _ Hwf) as [uy Huy]. rewrite Huy. simpl.
      intros Hyu. apply Hnotin. rewrite Heq, <- Hyu. by eapply Hids. }
    assert (Hfil : filter (holds h (λ x, User.id x ≠ User.id u)) rs = rs).
    { clear -Hall. induction Hall as [|y l Hy _ IH]; [done|].
      by rewrite filter_cons_True, IH. }
    rewrite Hfil. simpl. lia.
  - rewrite filter_cons_True by (unfold holds; by rewrite Hux).
    apply elem_of_cons in Hr as [->|Hr]; [congruence|].
    simpl. rewrite <- (IH Hnd Hr Hu). lia.
Qed.

(** X26.  Deleting a student from the students tab never leaves the
    administrator on an empty page.  With unique user ids, when the student
    of a row shown on page [p] is deleted, the tab settles on page [p - 1]
    if that row was the only student shown and [p > 1], and on page [p]
    otherwise; it shows that page of the remaining users, which has rows
    unless no user is left. *)
Theorem StudentsTab_handleDelete_lands (localeCompare : string → string → Z)
    (st : Store) (s : AdminView.StudentsTab.state) (r : ref) (u : User.t) (p : Z) :
  wf st → NoDup (ids st) → 1 ≤ p →
  AdminView.StudentsTab.currentPage s = Int p →
  AdminView.StudentsTab.users s
  = data_of (getUsers localeCompare st (Some (Int p)) None) →
  r ∈ AdminView.StudentsTab.users s → obj st r = Some u → User.role u = STUDENT →
  let res := AdminView.StudentsTab.handleDelete true localeCompare st s (User.id u) in
  let shown := length (filter (holds (heap st) (λ x, User.role x = STUDENT))
                         (AdminView.StudentsTab.users s)) in
  let p' := if bool_decide (shown = 1%nat ∧ 1 < p) then p - 1 else p in
  snd res = snd (deleteUser st (User.id u)) ∧
  (r ∉ users (snd res)) ∧
  AdminView.StudentsTab.currentPage (fst res) = Int p' ∧ 1 ≤ p' ∧
  AdminView.StudentsTab.users (fst res)
  = data_of (getUsers localeCompare (snd res) (Some (Int p')) None) ∧
  (AdminView.StudentsTab.users (fst res) = [] → users (snd res) = []).
Proof.
  intros Hwf Hnd Hp Hcur Hshown Hr Ho Hrole. cbv zeta.
  unfold AdminView.StudentsTab.handleDelete. rewrite Hcur.
  unfold NumOps.gt, NumOps.lt, Num.sub.
  set (st' := snd (deleteUser st (User.id u))).
  change (heap st') with (heap st).
  set (one := length (filter (holds (heap st) (λ x, User.role x = STUDENT))
                        (AdminView.StudentsTab.users s)) = 1%nat).
  assert (Hcond : (bool_decide one && bool_decide (1 < p))
                  = bool_decide (one ∧ 1 < p)).
  { apply eq_true_iff_eq. rewrite andb_true_iff, !bool_decide_eq_true. tauto. }
  rewrite Hcond. clear Hcond.
  set (p' := if bool_decide (one ∧ 1 < p) then p - 1 else p).
  assert (Hres : (if bool_decide (one ∧ 1 < p)
                  then (AdminView.StudentsTab.fetchUsers localeCompare st'
                          (AdminView.StudentsTab.setCurrentPage (Int (p - 1)) s), st')
                  else (AdminView.StudentsTab.fetchUsers localeCompare st' s, st'))
                 = (AdminView.StudentsTab.fetchUsers localeCompare st'
                      (AdminView.StudentsTab.setCurrentPage (Int p') s), st')).
  { subst p'. case_bool_decide; [done|]. f_equal.
    unfold AdminView.StudentsTab.fetchUsers. simpl. by rewrite Hcur. }
  rewrite Hres. clear Hres. cbn [fst snd].
  assert (Hp' : 1 ≤ p') by (subst p'; case_bool_decide; lia).
  split; [done|].
  assert (Hin : r ∈ users st).
  { rewrite Hshown in Hr.
    change (r ∈ data (paginate (sort (by_name localeCompare st) (users st))
                        (Int p) (Int 10))) in Hr.
    rewrite paginate_data in Hr by lia.
    apply subseteq_take, subseteq_drop in Hr. by rewrite sort_perm in Hr. }
  split.
  { subst st'. cbn [deleteUser snd users].
    intros [Hh _]%list_elem_of_filter. apply holds_obj in Hh as (x & Hx & Hne).
    rewrite Ho in Hx. by injection Hx as <-. }
  split; [done|]. split; [exact Hp'|]. split; [done|].
  (* lengths *)
  set (us := sort (by_name localeCompare st) (users st)).
  set (us' := sort (by_name localeCompare st') (users st')).
  assert (Hlen : (length us' + 1 = length us)%nat).
  { subst us us'. rewrite !sort_length. subst st'. cbn [deleteUser snd users].
    apply (length_filter_holds_remove _ _ r u);
      [exact Hwf|exact Hnd|exact Hin|exact Ho]. }
  assert (Hold : AdminView.StudentsTab.users s = data (paginate us (Int p) (Int 10)))
    by done.
  assert (Hnew : AdminView.StudentsTab.users
                   (AdminView.StudentsTab.fetchUsers localeCompare st'
                      (AdminView.StudentsTab.setCurrentPage (Int p') s))
                 = data (paginate us' (Int p') (Int 10))) by done.
  rewrite Hnew. clear Hnew.
  pose proof (page_length us p 10 Hp ltac:(lia)) as Hold_len. rewrite <- Hold in Hold_len.
  pose proof (page_length us' p' 10 Hp' ltac:(lia)) as Hnew_len.
  assert (Hpos : (0 < length (AdminView.StudentsTab.users s))%nat)
    by (destruct (AdminView.StudentsTab.users s); [by apply elem_of_nil in Hr|simpl; lia]).
  assert (Hone : length (AdminView.StudentsTab.users s) = 1%nat → one).
  { intros H1. subst one.
    destruct (AdminView.StudentsTab.users s) as [|x [|y l]]; simpl in H1; try lia.
    apply list_elem_of_singleton in Hr as <-.
    rewrite filter_cons_True; [done|]. apply holds_obj. eauto. }
  intros Hnil. rewrite Hnil in Hnew_len. simpl in Hnew_len.
  assert (Hzero : length us' = 0%nat).
  { subst p'. case_bool_decide as Hc; [lia|].
    destruct (decide (length (AdminView.StudentsTab.users s) = 1%nat)) as [H1|H1].
    - specialize (Hone H1). assert (p = 1) by (apply Z.le_antisymm; [|done]; apply Z.nlt_ge; tauto).
      lia.
    - lia. }
  subst us'. rewrite sort_length in Hzero. by apply nil_length_inv in Hzero.
Qed.

Lemma StudentsTab_handleDelete_lands_witness :
  let st := createInitialData 0 (λ _ _, (0, 0)%nat) in
  let cmp := λ a b : string, Z.of_nat (String.length a) - Z.of_nat (String.length b) in
  let s := AdminView.StudentsTab.fetchUsers cmp st
             (AdminView.StudentsTab.mk [] true (Int 1) (Int 0)) in
  wf st ∧ NoDup (ids st) ∧
  length (AdminView.StudentsTab.users
            (fst (AdminView.StudentsTab.handleDelete true cmp st s "user-2"))) = 10%nat.
Proof.
  intros st cmp s.
  assert (Hwf : wf st) by (apply (bool_decide_unpack _); vm_compute; exact I).
  assert (Hnd : NoDup (ids st)) by (apply (bool_decide_unpack _); vm_compute; exact I).
  split; [exact Hwf|]. split; [exact Hnd|].
  assert (Hu : ∃ u, obj st 1%nat = Some u ∧ User.role u = STUDENT
                    ∧ User.id u = "user-2")
    by (eexists; repeat split; vm_compute; reflexivity).
  destruct Hu as (u & Ho & Hrole & Hid).
  assert (Hr : 1%nat ∈ AdminView.StudentsTab.users s)
    by (apply (bool_decide_unpack _); vm_compute; exact I).
  destruct (StudentsTab_handleDelete_lands cmp st s 1%nat u 1 Hwf Hnd ltac:(lia)
              eq_refl eq_refl Hr Ho Hrole) as (_ & _ & _ & _ & Hshown & _).
  rewrite Hid in Hshown. rewrite Hshown. by vm_compute.
Defined.
